(** * Countdown-timer detection (CountdownTimerAnalysis.ipynb)

    A shallow embedding of the timer-detection core of the notebook
    [src/analysis/timer-analysis/CountdownTimerAnalysis.ipynb] (Python 2.7,
    pandas): [preprocess_segments], [differences], [most_common],
    [most_common_neg], [num_most_common_neg], [is_decreasing],
    [is_decreasing_mode], [num_unique], [ts_check] and [detect_timers].

    Python values are modelled as follows.
    - [int] (Python 2 int/long) is [Z]; lengths and counts are [Z] as well.
    - text is [string]; the notebook runs under Python 2 and compiles its
      patterns without [re.UNICODE], so [\d] is the class [0-9].
    - a Python list, a pandas Series and a DataFrame are lists (of values,
      of rows), in row order.
    - a value of the [time_stamp] column is a pandas [Timestamp] or an int;
      [int] raises [TypeError] on the first and is the identity on the
      second.
    - a raised exception is the [Raise] result of the [result] monad. *)

From Stdlib Require Import ZArith List String Ascii Bool Lia Permutation.
From Stdlib Require Import QArith Sorted SpecFloat.
From Stdlib Require OrderedTypeEx.
Import ListNotations.

Local Open Scope string_scope.
Local Open Scope list_scope.
Local Open Scope Z_scope.

(** ** Exceptions *)

Module Py.

Inductive exn : Type :=
| ValueError
| IndexError
| TypeError.

Inductive result (A : Type) : Type :=
| Ok (a : A)
| Raise (e : exn).

Arguments Ok {A} a.
Arguments Raise {A} e.

Definition bind {A B : Type} (m : result A) (k : A -> result B) : result B :=
  match m with
  | Ok a => k a
  | Raise e => Raise e
  end.

(** A list comprehension whose element expression may raise. *)
Fixpoint comprehension {A B : Type} (f : A -> result B) (l : list A)
  : result (list B) :=
  match l with
  | [] => Ok []
  | x :: l' =>
      bind (f x) (fun y => bind (comprehension f l') (fun ys => Ok (y :: ys)))
  end.

(** [len(l)] *)
Definition len {A : Type} (l : list A) : Z := Z.of_nat (List.length l).

(** [zip(a, b)] *)
Definition zip {A B : Type} (a : list A) (b : list B) : list (A * B) :=
  combine a b.

End Py.

Import Py.

Notation "x <- m ;; k" := (Py.bind m (fun x => k))
  (at level 61, m at next level, right associativity).

(** ** Preprocessing: [preprocess_segments] *)

(** [\d]: a decimal digit [0-9]. *)
Definition is_digit (c : ascii) : bool :=
  ((48 <=? nat_of_ascii c) && (nat_of_ascii c <=? 57))%nat.

(** [\D]: anything else. *)
Definition is_nondigit (c : ascii) : bool := negb (is_digit c).

(** [re.sub(p+, repl, x)] for a one-character class [p]: every maximal run of
    characters of the class is replaced by [repl]; [in_run] tells whether the
    previous character belonged to the run being replaced. *)
Fixpoint sub_runs (p : ascii -> bool) (repl : string) (in_run : bool)
  (x : string) : string :=
  match x with
  | EmptyString => EmptyString
  | String c r =>
      if p c
      then (if in_run then sub_runs p repl true r
            else String.append repl (sub_runs p repl true r))
      else String c (sub_runs p repl false r)
  end.

Definition re_sub_runs (p : ascii -> bool) (repl x : string) : string :=
  sub_runs p repl false x.

(** [lambda x: re.sub(r'\d+', 'DPNUM', x)] *)
Definition inner_processed_of (x : string) : string :=
  re_sub_runs is_digit "DPNUM" x.

(** [lambda x: re.sub(r'\D+', '', x)] *)
Definition inner_digits_of (x : string) : string :=
  re_sub_runs is_nondigit "" x.

(** The filter of [SEGMENTS_QUERY]: [se.inner_text GLOB '*[0-9]*']. *)
Fixpoint glob_has_digit (x : string) : bool :=
  match x with
  | EmptyString => false
  | String c r => is_digit c || glob_has_digit r
  end.

(** Every character of the string is a decimal digit. *)
Fixpoint all_digits (x : string) : bool :=
  match x with
  | EmptyString => true
  | String c r => is_digit c && all_digits r
  end.

(** No character of the string is a decimal digit. *)
Fixpoint no_digit (x : string) : bool :=
  match x with
  | EmptyString => true
  | String c r => negb (is_digit c) && no_digit r
  end.

(** A numeral: a non-empty string of decimal digits. *)
Definition is_numeral (x : string) : bool :=
  match x with
  | EmptyString => false
  | _ => all_digits x
  end.

(** ** Numeric differences *)

Definition digit_value (c : ascii) : Z := Z.of_nat (nat_of_ascii c) - 48.

Fixpoint int_digits (acc : Z) (x : string) : result Z :=
  match x with
  | EmptyString => Ok acc
  | String c r =>
      if is_digit c then int_digits (10 * acc + digit_value c) r
      else Raise ValueError
  end.

(** [int(x)] for a text [x].  The notebook applies it to [inner_digits]
    only, which holds decimal digits and nothing else; the empty string is
    rejected with [ValueError], and so is, in this model, any text with
    another character (signs and blanks, which Python would accept, never
    reach this call). *)
Definition py_int (x : string) : result Z :=
  match x with
  | EmptyString => Raise ValueError
  | _ => int_digits 0 x
  end.

(** [differences]:
    [[int(j)-int(i) for i, j in zip(series[:-1], series[1:])]] *)
Definition differences (series : list string) : result (list Z) :=
  comprehension
    (fun ij => vj <- py_int (snd ij) ;; vi <- py_int (fst ij) ;; Ok (vj - vi))
    (zip (removelast series) (tl series)).

(** ** Counting *)

(** [l.count(x)] *)
Definition count (x : Z) (l : list Z) : Z := len (filter (Z.eqb x) l).

(** [set(l)] keeps one copy of every value; only its size is ever used. *)
Definition set_Z (l : list Z) : list Z := nodup Z.eq_dec l.
Definition set_str (l : list string) : list string := nodup string_dec l.

(** [Counter(l).most_common(1)] is, in Python 2.7,
    [heapq.nlargest(1, self.iteritems(), key=itemgetter(1))], that is [max]
    over the items in the iteration order of the underlying [dict]: the first
    item of that order whose count is maximal.  The order of a Python 2 [dict]
    is a function of the keys and of their insertion history that the notebook
    does not fix, so the model takes it as an interface: [iterkeys l] lists,
    in iteration order, the keys of the dictionary obtained by inserting the
    elements of [l] one after the other. *)
Class DictOrder : Type := {
  iterkeys : list Z -> list Z;
  iterkeys_Permutation : forall l, Permutation (iterkeys l) (set_Z l)
}.

(** [max(items, key=itemgetter(1))], scanning from [best]: an item replaces
    the current maximum only when its count is strictly greater. *)
Fixpoint max_by_count (best : Z * Z) (items : list (Z * Z)) : Z * Z :=
  match items with
  | [] => best
  | it :: rest =>
      if snd best <? snd it then max_by_count it rest
      else max_by_count best rest
  end.

Section Heuristics.

Context {order : DictOrder}.

(** [Counter(l).iteritems()] *)
Definition Counter_items (l : list Z) : list (Z * Z) :=
  map (fun k => (k, count k l)) (iterkeys l).

(** [Counter(l).most_common(1)] *)
Definition Counter_most_common_1 (l : list Z) : list (Z * Z) :=
  match Counter_items l with
  | [] => []
  | head :: it => [max_by_count head it]
  end.

(** [Counter(l).most_common(1)[0][0]] *)
Definition most_common_key (l : list Z) : result Z :=
  match Counter_most_common_1 l with
  | [] => Raise IndexError
  | item :: _ => Ok (fst item)
  end.

(** [most_common]; [None] is Python's [None]. *)
Definition most_common (diffs : list Z) : result (option Z) :=
  match diffs with
  | [] => Ok None
  | _ => k <- most_common_key diffs ;; Ok (Some k)
  end.

(** [most_common_neg] *)
Definition most_common_neg (diffs : list Z) : result (option Z) :=
  match diffs with
  | [] => Ok None
  | _ =>
      let neg_diffs := filter (fun x => x <? 0) diffs in
      match neg_diffs with
      | [] => Ok None
      | _ => k <- most_common_key neg_diffs ;; Ok (Some k)
      end
  end.

(** Truth value of [not v] for [v] an int or [None]. *)
Definition py_not (v : option Z) : bool :=
  match v with
  | None => true
  | Some n => n =? 0
  end.

(** [v > n] in Python 2, where [None] is smaller than every number. *)
Definition py_gt (v : option Z) (n : Z) : bool :=
  match v with
  | None => false
  | Some m => n <? m
  end.

(** [num_most_common_neg] *)
Definition num_most_common_neg (diffs : list Z) : result Z :=
  neg_mode <- most_common_neg diffs ;;
  if py_not neg_mode then Ok 0
  else match neg_mode with
       | Some m => Ok (count m diffs)
       | None => Ok 0
       end.

Definition TIMER_MIN_NEG_POS_UPDATE_RATIO : Z := 5.
Definition TIMER_MIN_NO_OF_NEG_UPDATES : Z := 5.

(** [diff<0 and diff not in [59, 5, 9]] *)
Definition counts_as_neg (diff : Z) : bool :=
  (diff <? 0) && negb (existsb (Z.eqb diff) [59; 5; 9]).

(** [sum([1 for diff in diffs if diff<0 and diff not in [59, 5, 9]])] *)
Definition n_negs_of (diffs : list Z) : Z := len (filter counts_as_neg diffs).

(** [sum([1 for diff in diffs if diff>0])] *)
Definition n_pos_of (diffs : list Z) : Z := len (filter (fun d => 0 <? d) diffs).

(** [float(n) / d > k] for counts [n], [d > 0] and an int [k].  The quotient
    is taken in the rationals: [n] and [d] are list lengths, far below 2^51,
    and on that range the IEEE double quotient, rounded to nearest, lies on
    the same side of the integer [k] as the exact one (see
    [float64_div_gt_agrees] for the check against binary64 arithmetic). *)
Definition float_div_gt (n d k : Z) : bool :=
  match Qcompare (n # Z.to_pos d) (inject_Z k) with
  | Gt => true
  | _ => false
  end.

(** [if not diffs] *)
Definition is_empty {A : Type} (l : list A) : bool :=
  match l with
  | [] => true
  | _ => false
  end.

(** [is_decreasing] *)
Definition is_decreasing (series : list string) : result bool :=
  diffs <- differences series ;;
  if is_empty diffs then Ok false else
  let n_negs := n_negs_of diffs in
  let n_pos := n_pos_of diffs in
  let n_zeroes := count 0 diffs in
  if n_negs <? TIMER_MIN_NO_OF_NEG_UPDATES then Ok false else
  if n_pos =? 0 then Ok true else
  Ok (float_div_gt n_negs n_pos TIMER_MIN_NEG_POS_UPDATE_RATIO).

(** [is_decreasing_mode] *)
Definition is_decreasing_mode (series : list string) : result bool :=
  diffs <- differences series ;;
  if is_empty diffs then Ok false else
  if len (set_str series) <? 5 then Ok false else
  let n_negs := n_negs_of diffs in
  let n_pos := n_pos_of diffs in
  let n_zeroes := count 0 diffs in
  if n_negs <? TIMER_MIN_NO_OF_NEG_UPDATES then Ok false else
  if n_pos =? 0 then Ok true else
  mode <- most_common diffs ;;
  if py_gt mode 0 then Ok false else
  neg_mode_cnt <- num_most_common_neg diffs ;;
  if neg_mode_cnt <? 5 then Ok false else
  Ok (n_pos <? n_negs).

(** [num_unique] *)
Definition num_unique (series : list Z) : Z := len (set_Z series).

(** A value of the [time_stamp] column: a pandas [Timestamp], which is what
    [pd.to_datetime] makes of the column, kept with its number of nanoseconds
    since the epoch, or an int, in a column that did not go through
    [pd.to_datetime].  A time stamp read as text, which [pd.to_datetime]
    parses, is represented by the [Timestamp] it parses to. *)
Inductive timestamp : Type :=
| Timestamp (ns : Z)
| Int (n : Z).

(** [int(ts)]: a [Timestamp] has no conversion to [int]; an int is
    itself. *)
Definition int_ts (ts : timestamp) : result Z :=
  match ts with
  | Timestamp _ => Raise TypeError
  | Int n => Ok n
  end.

(** [ts_check] *)
Definition ts_check (series : list timestamp) : result bool :=
  ints <- comprehension int_ts series ;;
  let n_uniq_ts_seconds := len (set_Z ints) in
  Ok (5 <=? n_uniq_ts_seconds).

End Heuristics.

(** The dictionary order of Python 3.7 and later: insertion order, that is
    the order of first occurrence. *)
Fixpoint first_occurrences (seen l : list Z) : list Z :=
  match l with
  | [] => []
  | x :: l' =>
      if existsb (Z.eqb x) seen then first_occurrences seen l'
      else x :: first_occurrences (x :: seen) l'
  end.

(** ** The segment table *)

(** A row of [SEGMENTS_QUERY].  [site_url] is [None] where the [LEFT JOIN] finds no visit.  Identifiers
    and positions are ints; a row with a null in a key column, which
    [groupby] would drop, is not represented. *)
Record segment : Type := {
  site_url : option string;
  visit_id : Z;
  node_id : Z;
  top : Z;
  left : Z;
  width : Z;
  height : Z;
  inner_text : string;
  time_stamp : timestamp
}.

(** A row once [preprocess_segments] has added its two columns. *)
Record row : Type := {
  raw : segment;
  inner_processed : string;
  inner_digits : string
}.

(** [pd.to_datetime] on a value of the column: an int is a number of
    nanoseconds since the epoch. *)
Definition to_datetime (ts : timestamp) : timestamp :=
  match ts with
  | Timestamp ns => Timestamp ns
  | Int n => Timestamp n
  end.

(** [segments['time_stamp'] = pd.to_datetime(segments['time_stamp'])] on one
    row. *)
Definition set_time_stamp (ts : timestamp) (s : segment) : segment :=
  {| site_url := site_url s;
     visit_id := visit_id s;
     node_id := node_id s;
     top := top s;
     left := left s;
     width := width s;
     height := height s;
     inner_text := inner_text s;
     time_stamp := ts |}.

(** The two columns made from [inner_text], on one row. *)
Definition text_columns (s : segment) : row :=
  {| raw := s;
     inner_processed := inner_processed_of (inner_text s);
     inner_digits := inner_digits_of (inner_text s) |}.

(** [preprocess_segments]: the table is updated in place in the notebook;
    here the updated table is returned. *)
Definition preprocess_segments (segments : list segment) : list row :=
  map (fun s => text_columns (set_time_stamp (to_datetime (time_stamp s)) s))
      segments.

(** The table with its two text columns and its [time_stamp] column as it
    is read, for a caller of [detect_timers] that keeps int time stamps. *)
Definition with_text_columns (segments : list segment) : list row :=
  map text_columns segments.

(** ** Grouping *)

(** The grouping key [['visit_id', 'top', 'left', 'inner_processed']]. *)
Definition key : Type := Z * Z * Z * string.

Definition key_of (r : row) : key :=
  (visit_id (raw r), top (raw r), left (raw r), inner_processed r).

Definition lex (c d : comparison) : comparison :=
  match c with
  | Eq => d
  | _ => c
  end.

(** Tuples of keys are compared field by field. *)
Definition key_compare (a b : key) : comparison :=
  let '(v1, t1, l1, p1) := a in
  let '(v2, t2, l2, p2) := b in
  lex (v1 ?= v2) (lex (t1 ?= t2) (lex (l1 ?= l2) (String.compare p1 p2))).

Definition key_eqb (a b : key) : bool :=
  match key_compare a b with
  | Eq => true
  | _ => false
  end.

(** One step of [groupby]: the row joins the group of its key, after the rows
    already there, or opens a new group at the place of its key ([groupby]
    sorts the groups by key and keeps the rows of a group in table order). *)
Fixpoint add_row (k : key) (r : row) (groups : list (key * list row))
  : list (key * list row) :=
  match groups with
  | [] => [(k, [r])]
  | (k', rs) :: rest =>
      match key_compare k k' with
      | Lt => (k, [r]) :: groups
      | Eq => (k', rs ++ [r]) :: rest
      | Gt => (k', rs) :: add_row k r rest
      end
  end.

(** [tmp.groupby(['visit_id', 'top', 'left', 'inner_processed'])] *)
Definition groupby (tmp : list row) : list (key * list row) :=
  fold_left (fun groups r => add_row (key_of r) r groups) tmp [].

(** The aggregation ['first']: the first value of the group that is not
    null. *)
Fixpoint first_valid (l : list (option string)) : option string :=
  match l with
  | [] => None
  | Some u :: _ => Some u
  | None :: l' => first_valid l'
  end.

(** A row of [segments_grouped], with the column names that
    [columns.map('_'.join)] gives. *)
Record group_row : Type := {
  visit_id_ : Z;
  top_ : Z;
  left_ : Z;
  inner_processed_ : string;
  node_id_num_unique : Z;
  time_stamp_ts_check : bool;
  inner_digits_is_decreasing : bool;
  inner_digits_is_decreasing_mode : bool;
  site_url_first : option string
}.

Definition key_of_group (g : group_row) : key :=
  (visit_id_ g, top_ g, left_ g, inner_processed_ g).

(** [segments.head(n)]: the first [n] rows, or all but the last [-n] rows
    when [n] is negative. *)
Definition head {A : Type} (n : Z) (l : list A) : list A :=
  if 0 <=? n then firstn (Z.to_nat n) l
  else firstn (List.length l - Z.to_nat (- n)) l.

(** [tmp]: the table that [detect_timers] groups, [segments] or, under a
    [limit] that is neither [None] nor 0, [segments.head(limit)]. *)
Definition tmp_of (segments : list row) (limit : option Z) : list row :=
  if py_not limit then segments
  else match limit with
       | Some n => head n segments
       | None => segments
       end.

(** The columns of a group that [agg] hands to the aggregating functions. *)
Definition digits_of (rows : list row) : list string := map inner_digits rows.

Definition node_ids_of (rows : list row) : list Z :=
  map (fun r => node_id (raw r)) rows.

Definition time_stamps_of (rows : list row) : list timestamp :=
  map (fun r => time_stamp (raw r)) rows.

Definition site_urls_of (rows : list row) : list (option string) :=
  map (fun r => site_url (raw r)) rows.

(** The mask of [timers]. *)
Definition timer_mask (g : group_row) : bool :=
  inner_digits_is_decreasing g && inner_digits_is_decreasing_mode g
  && time_stamp_ts_check g.

Section Detection.

Context {order : DictOrder}.

(** One column of [agg]: the aggregating function is applied to the column
    of every group, in the order of the groups. *)
Definition agg_column {A B : Type} (col : list row -> list A)
  (f : list A -> result B) (groups : list (key * list row))
  : result (list B) :=
  comprehension (fun group => f (col (snd group))) groups.

(** [reset_index()] and [columns.map('_'.join)]: the keys and the columns of
    [agg], side by side. *)
Fixpoint reset_index (groups : list (key * list row))
  (node_id_ : list Z) (time_stamp_ is_dec is_dec_mode : list bool)
  (site_url_ : list (option string)) : list group_row :=
  match groups, node_id_, time_stamp_, is_dec, is_dec_mode, site_url_ with
  | ((v, t, l, p), _) :: groups', n :: node_id', gate :: time_stamp',
    dec :: is_dec', dec_mode :: is_dec_mode', url :: site_url' =>
      {| visit_id_ := v;
         top_ := t;
         left_ := l;
         inner_processed_ := p;
         node_id_num_unique := n;
         time_stamp_ts_check := gate;
         inner_digits_is_decreasing := dec;
         inner_digits_is_decreasing_mode := dec_mode;
         site_url_first := url |}
      :: reset_index groups' node_id' time_stamp' is_dec' is_dec_mode' site_url'
  | _, _, _, _, _, _ => []
  end.

(** [detect_timers]; [limit] is [None] or an int.  [agg] with
    [{'node_id': num_unique, 'time_stamp': ts_check,
      'inner_digits': [is_decreasing, is_decreasing_mode],
      'site_url': 'first'}]
    computes one column after the other, each over all the groups, the
    [time_stamp] column before the two [inner_digits] columns; an exception
    raised by an aggregating function leaves [detect_timers]. *)
Definition detect_timers (segments : list row) (limit : option Z)
  : result (list group_row * list group_row) :=
  let tmp := tmp_of segments limit in
  let groups := groupby tmp in
  node_id_ <- agg_column node_ids_of (fun ids => Ok (num_unique ids)) groups ;;
  time_stamp_ <- agg_column time_stamps_of ts_check groups ;;
  is_dec <- agg_column digits_of is_decreasing groups ;;
  is_dec_mode <- agg_column digits_of is_decreasing_mode groups ;;
  site_url_ <- agg_column site_urls_of (fun urls => Ok (first_valid urls))
                 groups ;;
  let segments_grouped :=
    reset_index groups node_id_ time_stamp_ is_dec is_dec_mode site_url_ in
  let timers := filter timer_mask segments_grouped in
  Ok (timers, segments_grouped).

(** The row of [segments_grouped] for one group, computed group by group:
    the row that [detect_timers] holds for the group when the aggregating
    functions return on its columns (lemma [detect_timers_rows]). *)
Definition agg_row (group : key * list row) : result group_row :=
  let '((v, t, l, p), rows) := group in
  gate <- ts_check (time_stamps_of rows) ;;
  dec <- is_decreasing (digits_of rows) ;;
  dec_mode <- is_decreasing_mode (digits_of rows) ;;
  Ok {| visit_id_ := v;
        top_ := t;
        left_ := l;
        inner_processed_ := p;
        node_id_num_unique := num_unique (node_ids_of rows);
        time_stamp_ts_check := gate;
        inner_digits_is_decreasing := dec;
        inner_digits_is_decreasing_mode := dec_mode;
        site_url_first := first_valid (site_urls_of rows) |}.

End Detection.

(** The dictionary order of Python 3.7 and later is an instance. *)
#[export] Instance insertion_order : DictOrder.
Proof.
  refine {| iterkeys := first_occurrences [] |}.
  assert (Hin : forall l seen x,
             In x (first_occurrences seen l) <-> In x l /\ ~ In x seen).
  { induction l as [|y l IH]; intros seen x; simpl.
    - tauto.
    - destruct (existsb (Z.eqb y) seen) eqn:E.
      + apply existsb_exists in E. destruct E as (z & Hz & Hyz).
        apply Z.eqb_eq in Hyz. subst z. rewrite IH.
        split; [tauto|]. intros [[->|Hx] Hn]; tauto.
      + assert (Hy : ~ In y seen).
        { intro Hy.
          assert (existsb (Z.eqb y) seen = true) as E'
              by (apply existsb_exists; exists y; split; [exact Hy|apply Z.eqb_refl]).
          congruence. }
        simpl. rewrite IH. simpl.
        destruct (Z.eq_dec y x) as [->|Hne]; [tauto|].
        split; [tauto|]. intros [[?|?] ?]; [tauto|]. right. tauto. }
  assert (Hnd : forall l seen, NoDup (first_occurrences seen l)).
  { induction l as [|y l IH]; intros seen; simpl.
    - constructor.
    - destruct (existsb (Z.eqb y) seen); [apply IH|].
      constructor; [|apply IH].
      rewrite Hin. simpl. tauto. }
  intros l. apply NoDup_Permutation.
  - apply Hnd.
  - apply NoDup_nodup.
  - intros x. unfold set_Z. rewrite Hin, nodup_In. simpl. tauto.
Defined.

(** Another order, the keys in reverse order of first occurrence, to see
    what depends on the order. *)
Definition reverse_insertion_order : DictOrder :=
  {| iterkeys := fun l => rev (first_occurrences [] l);
     iterkeys_Permutation := fun l =>
       Permutation_trans
         (Permutation_sym (Permutation_rev (first_occurrences [] l)))
         (@iterkeys_Permutation insertion_order l) |}.

(** ** The heuristics as the specification words them *)

Module Spec.

(** The decimal value of a digit string. *)
Definition value (x : string) : Z :=
  fold_left (fun acc c => 10 * acc + digit_value c) (list_ascii_of_string x) 0.

(** [diffs[i] = value(s[i+1]) - value(s[i])], one shorter than the input. *)
Fixpoint diffs (vs : list Z) : list Z :=
  match vs with
  | a :: (b :: _) as t => (b - a) :: diffs t
  | _ => []
  end.

Definition diffs_of (s : list string) : list Z := diffs (map value s).

(** Number of occurrences of [x] in [l]. *)
Definition occurrences (x : Z) (l : list Z) : Z :=
  Z.of_nat (count_occ Z.eq_dec l x).

(** [nNeg]: diffs strictly negative whose raw value is none of 59, 5, 9. *)
Fixpoint nNeg (ds : list Z) : Z :=
  match ds with
  | [] => 0
  | d :: ds' =>
      if Z_lt_dec d 0
      then (if in_dec Z.eq_dec d [59; 5; 9] then nNeg ds' else 1 + nNeg ds')
      else nNeg ds'
  end.

(** The same count with the exclusion set left out. *)
Fixpoint nNeg_plain (ds : list Z) : Z :=
  match ds with
  | [] => 0
  | d :: ds' => if Z_lt_dec d 0 then 1 + nNeg_plain ds' else nNeg_plain ds'
  end.

(** [nPos]: diffs strictly positive. *)
Fixpoint nPos (ds : list Z) : Z :=
  match ds with
  | [] => 0
  | d :: ds' => if Z_lt_dec 0 d then 1 + nPos ds' else nPos ds'
  end.

(** Number of distinct values of a sequence of digit strings. *)
Definition distinct (s : list string) : Z :=
  Z.of_nat (List.length (nodup string_dec s)).

(** [m] is a most frequent value of [ds]. *)
Definition is_mode (m : Z) (ds : list Z) : Prop :=
  In m ds /\ forall x, occurrences x ds <= occurrences m ds.

(** [modeNegCount]: occurrences of the most frequent negative diff, the
    largest number of occurrences that a negative value has. *)
Definition modeNegCount (ds : list Z) : Z :=
  fold_right Z.max 0
    (map (fun x => occurrences x ds) (filter (fun x => x <? 0) ds)).

(** Heuristic A, steps 3 to 5. *)
Definition isDecreasing (s : list string) : Prop :=
  let ds := diffs_of s in
  5 <= nNeg ds /\
  (nPos ds = 0 \/ (inject_Z 5 < inject_Z (nNeg ds) / inject_Z (nPos ds))%Q).

End Spec.

Section SpecByMode.

Context {order : DictOrder}.

(** Heuristic B, steps 1 to 9; the mode of step 5 is the value that
    [most_common] selects among the most frequent ones. *)
Definition isDecreasingByMode (s : list string) : Prop :=
  let ds := Spec.diffs_of s in
  5 <= Spec.distinct s /\
  5 <= Spec.nNeg ds /\
  (Spec.nPos ds = 0 \/
   ((exists m, most_common ds = Ok (Some m) /\ Spec.is_mode m ds /\ m <= 0) /\
    5 <= Spec.modeNegCount ds /\
    Spec.nPos ds < Spec.nNeg ds)).

(** The two heuristics without the clause [diff not in [59, 5, 9]]. *)
Definition n_negs_plain (diffs : list Z) : Z :=
  len (filter (fun diff => diff <? 0) diffs).

Definition is_decreasing_plain (series : list string) : result bool :=
  diffs <- differences series ;;
  if is_empty diffs then Ok false else
  let n_negs := n_negs_plain diffs in
  let n_pos := n_pos_of diffs in
  if n_negs <? TIMER_MIN_NO_OF_NEG_UPDATES then Ok false else
  if n_pos =? 0 then Ok true else
  Ok (float_div_gt n_negs n_pos TIMER_MIN_NEG_POS_UPDATE_RATIO).

Definition is_decreasing_mode_plain (series : list string) : result bool :=
  diffs <- differences series ;;
  if is_empty diffs then Ok false else
  if len (set_str series) <? 5 then Ok false else
  let n_negs := n_negs_plain diffs in
  let n_pos := n_pos_of diffs in
  if n_negs <? TIMER_MIN_NO_OF_NEG_UPDATES then Ok false else
  if n_pos =? 0 then Ok true else
  mode <- most_common diffs ;;
  if py_gt mode 0 then Ok false else
  neg_mode_cnt <- num_most_common_neg diffs ;;
  if neg_mode_cnt <? 5 then Ok false else
  Ok (n_pos <? n_negs).

End SpecByMode.

(** ** Sample inputs *)

(** The countdown of the specification. *)
Definition countdown : list string := ["10"; "09"; "08"; "07"; "06"; "05"].

(** Five times: five steps down, one step up.  25 negative diffs, 5 positive
    ones, a ratio of exactly 5. *)
Definition ratio_exactly_5 : list string :=
  ["40"; "39"; "38"; "37"; "36"; "35"; "36";
   "35"; "34"; "33"; "32"; "31"; "32";
   "31"; "30"; "29"; "28"; "27"; "28";
   "27"; "26"; "25"; "24"; "23"; "24";
   "23"; "22"; "21"; "20"; "19"; "20"].

(** Six steps down, then two steps up: the mode is -1, the ratio is 3. *)
Definition down_6_up_2 : list string :=
  ["10"; "9"; "8"; "7"; "6"; "5"; "4"; "5"; "6"].

(** Five steps of -1, one of -2, five of +1: the values -1 and +1 are both
    the most frequent diff. *)
Definition two_modes : list string :=
  ["20"; "19"; "18"; "17"; "16"; "15"; "13"; "14"; "15"; "16"; "17"; "18"].

Definition seg_at (y : Z) (node : Z) (text : string) (ts : timestamp)
  : segment :=
  {| site_url := Some "https://shop.example/item";
     visit_id := 41;
     node_id := node;
     top := y;
     left := 290;
     width := 200;
     height := 20;
     inner_text := text;
     time_stamp := ts |}.

Definition seg : Z -> string -> timestamp -> segment := seg_at 145.

(** One element counting down once a second, in time order. *)
Definition table_in_time_order : list segment :=
  [seg 7 "Ends in 10 s" (Int 1000000000); seg 7 "Ends in 9 s" (Int 2000000000);
   seg 7 "Ends in 8 s" (Int 3000000000); seg 7 "Ends in 7 s" (Int 4000000000);
   seg 7 "Ends in 6 s" (Int 5000000000); seg 7 "Ends in 5 s" (Int 6000000000)].

(** The same rows, the latest first. *)
Definition table_latest_first : list segment := rev table_in_time_order.

(** A countdown whose six updates, all at different instants, fall in three
    whole seconds. *)
Definition table_three_seconds : list segment :=
  [seg 7 "Ends in 10 s" (Int 1100000000); seg 7 "Ends in 9 s" (Int 1600000000);
   seg 7 "Ends in 8 s" (Int 2100000000); seg 7 "Ends in 7 s" (Int 2600000000);
   seg 7 "Ends in 6 s" (Int 3100000000); seg 7 "Ends in 5 s" (Int 3600000000)].

(** Two observations of one place and template, by two DOM nodes. *)
Definition table_two_nodes : list segment :=
  [seg 7 "Ends in 10 s" (Int 1000000000); seg 8 "Ends in 9 s" (Int 2000000000)].

(** Two elements, at two places; the two tables differ in how the rows of
    the two places interleave, not in the order of the rows of a place. *)
Definition table_two_places : list segment :=
  [seg_at 145 7 "Ends in 10 s" (Int 1000000000);
   seg_at 621 9 "12 left" (Int 1200000000);
   seg_at 145 7 "Ends in 9 s" (Int 2000000000);
   seg_at 621 9 "11 left" (Int 2200000000)].

Definition table_two_places_apart : list segment :=
  [seg_at 621 9 "12 left" (Int 1200000000);
   seg_at 621 9 "11 left" (Int 2200000000);
   seg_at 145 7 "Ends in 10 s" (Int 1000000000);
   seg_at 145 7 "Ends in 9 s" (Int 2000000000)].

(** The row of [segments_grouped] for the one group of the tables above,
    with the results [dec], [dec_mode] of the heuristics and [gate] of
    [ts_check]. *)
Definition group_of_results (dec dec_mode gate : bool) : group_row :=
  {| visit_id_ := 41;
     top_ := 145;
     left_ := 290;
     inner_processed_ := "Ends in DPNUM s";
     node_id_num_unique := 1;
     time_stamp_ts_check := gate;
     inner_digits_is_decreasing := dec;
     inner_digits_is_decreasing_mode := dec_mode;
     site_url_first := Some "https://shop.example/item" |}.

(** The two rows of [table_two_nodes] with their text columns. *)
Definition row_of_node (node : Z) (text digits : string) (ts : timestamp)
  : row :=
  {| raw := seg node text ts;
     inner_processed := "Ends in DPNUM s";
     inner_digits := digits |}.

(** Two observations at one place whose text has no digit. *)
Definition table_no_digit : list segment :=
  [seg 7 "Sale" (Int 1000000000); seg 7 "Sale" (Int 2000000000)].

(** ** IEEE binary64 arithmetic, to check [float_div_gt] against *)

Module Float64.

Definition prec : Z := 53.
Definition emax : Z := 1024.

(** [float(n)] *)
Definition of_int (n : Z) : spec_float := binary_normalize prec emax n 0 false.

(** [x / y] *)
Definition div (x y : spec_float) : spec_float := SFdiv prec emax x y.

(** [x > y] *)
Definition gt (x y : spec_float) : bool := SFltb y x.

End Float64.

(** [float(n) / d > k] in binary64. *)
Definition float64_div_gt (n d k : Z) : bool :=
  Float64.gt (Float64.div (Float64.of_int n) (Float64.of_int d))
             (Float64.of_int k).

(** The pairs [(n, d)] with [0 <= n < bn] and [1 <= d <= bd]. *)
Definition count_pairs (bn bd : nat) : list (Z * Z) :=
  list_prod (map Z.of_nat (seq 0 bn)) (map Z.of_nat (seq 1 bd)).

(** The counts on either side of the threshold, [n = 5 d - 1], [5 d] and
    [5 d + 1], for [d] next to the powers of two up to [2 ^ kmax]. *)
Definition boundary_pairs (kmax : nat) : list (Z * Z) :=
  flat_map
    (fun k =>
       let p := 2 ^ Z.of_nat k in
       flat_map (fun d => [(5 * d - 1, d); (5 * d, d); (5 * d + 1, d)])
                [p - 1; p; p + 1])
    (seq 1 kmax).

(** ** Notions used to state the properties of [groupby] *)

Definition key_lt (a b : key) : Prop := key_compare a b = Lt.

(** The groups come in ascending order of their keys. *)
Definition keys_sorted (groups : list (key * list row)) : Prop :=
  StronglySorted key_lt (map fst groups).

(** The rows of the group of key [k], if there is one. *)
Fixpoint assoc (k : key) (groups : list (key * list row))
  : option (list row) :=
  match groups with
  | [] => None
  | (k', rs) :: rest => if key_eqb k k' then Some rs else assoc k rest
  end.

(** The rows of a table that carry the key [k], in table order. *)
Definition rows_with (k : key) (tmp : list row) : list row :=
  filter (fun r => key_eqb (key_of r) k) tmp.

(** [None] for no row at all. *)
Definition nonempty (rs : list row) : option (list row) :=
  match rs with
  | [] => None
  | _ => Some rs
  end.

(** The instant of a time stamp, in nanoseconds since the epoch, an int
    being read as [pd.to_datetime] reads it. *)
Definition instant (ts : timestamp) : Z :=
  match ts with
  | Timestamp ns => ns
  | Int n => n
  end.

(** [timestampsDistinctSecondsCount], as the specification words it: the
    number of distinct whole seconds among the time stamps. *)
Definition distinct_seconds (series : list timestamp) : Z :=
  Z.of_nat (List.length
              (nodup Z.eq_dec
                 (map (fun ts => Z.quot (instant ts) 1000000000) series))).

(** The time stamps that are [Timestamp]s. *)
Definition is_Timestamp (ts : timestamp) : bool :=
  match ts with
  | Timestamp _ => true
  | Int _ => false
  end.

(** The ints of a column of int time stamps. *)
Definition ints_of (series : list timestamp) : list Z := map instant series.

(** [nodeIdCount]: the number of distinct values. *)
Definition distinct_ids (ids : list Z) : Z :=
  Z.of_nat (List.length (nodup Z.eq_dec ids)).

(** ** Notions used to state further properties *)

(** The sum of a list of ints. *)
Definition sum_Z (l : list Z) : Z := fold_right Z.add 0 l.

(** Four values counted down twice, spelled plainly and, the second time,
    with a leading zero. *)
Definition plain_cycle : list string :=
  ["3"; "2"; "1"; "0"; "3"; "2"; "1"; "0"].

Definition padded_cycle : list string :=
  ["3"; "2"; "1"; "0"; "03"; "02"; "01"; "00"].

(** The number of rows of the groups of the keys [ks] in the table. *)
Definition rows_in_groups (ks : list key) (tmp : list row) : Z :=
  sum_Z (map (fun k => len (rows_with k tmp)) ks).

(** ** The crawl databases, the pickles and the exports *)

Module Files.

(** A row of the table [SEGMENTS], with the columns that [SEGMENTS_QUERY]
    reads.  [node_name] and [inner_text] may be null. *)
Record db_segment : Type := {
  se_visit_id : Z;
  se_node_id : Z;
  se_node_name : option string;
  se_top : Z;
  se_left : Z;
  se_width : Z;
  se_height : Z;
  se_inner_text : option string;
  se_time_stamp : timestamp
}.

(** A row of the table [site_visits]. *)
Record site_visit : Type := {
  sv_visit_id : Z;
  sv_site_url : option string
}.

Record database : Type := {
  SEGMENTS : list db_segment;
  site_visits : list site_visit
}.

(** A row of the result of [SEGMENTS_QUERY]: [sv.site_url] and
    [sv.visit_id] are null where the [LEFT JOIN] finds no visit. *)
Record query_row : Type := {
  q_site_url : option string;
  q_visit_id : option Z;
  q_node_id : Z;
  q_top : Z;
  q_left : Z;
  q_width : Z;
  q_height : Z;
  q_inner_text : string;
  q_time_stamp : timestamp
}.

(** [WHERE se.node_name != 'BODY' and se.inner_text GLOB '*[0-9]*']: the
    text of the rows that pass; a null makes the condition null and the row
    is left out. *)
Definition where_text (se : db_segment) : option string :=
  match se_node_name se, se_inner_text se with
  | Some name, Some text =>
      if negb (String.eqb name "BODY") && glob_has_digit text
      then Some text else None
  | _, _ => None
  end.

Definition select (se : db_segment) (text : string)
  (url : option string) (visit : option Z) : query_row :=
  {| q_site_url := url;
     q_visit_id := visit;
     q_node_id := se_node_id se;
     q_top := se_top se;
     q_left := se_left se;
     q_width := se_width se;
     q_height := se_height se;
     q_inner_text := text;
     q_time_stamp := se_time_stamp se |}.

(** [SEGMENTS as se LEFT JOIN site_visits as sv ON se.visit_id = sv.visit_id]
    for one row [se]: a row for every visit that matches, or one row of
    nulls. *)
Definition left_join (db : database) (se : db_segment) (text : string)
  : list query_row :=
  match filter (fun sv => sv_visit_id sv =? se_visit_id se) (site_visits db) with
  | [] => [select se text None None]
  | svs => map (fun sv => select se text (sv_site_url sv) (Some (sv_visit_id sv)))
               svs
  end.

(** [pd.read_sql_query(SEGMENTS_QUERY, con)], the rows in the order of
    [SEGMENTS]. *)
Definition SEGMENTS_QUERY (db : database) : list query_row :=
  flat_map (fun se => match where_text se with
                      | Some text => left_join db se text
                      | None => []
                      end)
           (SEGMENTS db).

(** The rows of a loaded table that [groupby] keeps, those whose key has no
    null, as [segment]s. *)
Definition groupable (table : list query_row) : list segment :=
  flat_map (fun q => match q_visit_id q with
                     | Some v => [{| site_url := q_site_url q;
                                     visit_id := v;
                                     node_id := q_node_id q;
                                     top := q_top q;
                                     left := q_left q;
                                     width := q_width q;
                                     height := q_height q;
                                     inner_text := q_inner_text q;
                                     time_stamp := q_time_stamp q |}]
                     | None => []
                     end)
           table.

(** The files, by crawler name: the crawl database ["%s.sqlite"], taken to
    exist, the pickles ["%s_segments.pickle"] and
    ["%s_grouped_segments.pickle"], and the export ["%s_timer_urls.csv"],
    one value a line. *)
Record files : Type := {
  sqlite : string -> database;
  segments_pickle : string -> option (list query_row);
  grouped_pickle : string -> option (list group_row);
  timer_urls_csv : string -> option (list (option string))
}.

(** The state of a run: the files and what was printed. *)
Record state : Type := {
  disk : files;
  stdout : list string
}.

Inductive error : Type :=
| AssertionError
| Exn (e : exn).

Inductive outcome (A : Type) : Type :=
| Done (a : A)
| Fail (e : error).

Arguments Done {A} a.
Arguments Fail {A} e.

(** Writing a file. *)
Definition put {A : Type} (name : string) (content : A)
  (m : string -> option A) : string -> option A :=
  fun n => if String.eqb n name then Some content else m n.

Definition print (line : string) (st : state) : state :=
  {| disk := disk st; stdout := stdout st ++ [line] |}.

Definition write_segments_pickle (name : string) (t : list query_row)
  (st : state) : state :=
  {| disk := {| sqlite := sqlite (disk st);
                segments_pickle := put name t (segments_pickle (disk st));
                grouped_pickle := grouped_pickle (disk st);
                timer_urls_csv := timer_urls_csv (disk st) |};
     stdout := stdout st |}.

Definition write_grouped_pickle (name : string) (t : list group_row)
  (st : state) : state :=
  {| disk := {| sqlite := sqlite (disk st);
                segments_pickle := segments_pickle (disk st);
                grouped_pickle := put name t (grouped_pickle (disk st));
                timer_urls_csv := timer_urls_csv (disk st) |};
     stdout := stdout st |}.

Definition write_timer_urls_csv (name : string) (urls : list (option string))
  (st : state) : state :=
  {| disk := {| sqlite := sqlite (disk st);
                segments_pickle := segments_pickle (disk st);
                grouped_pickle := grouped_pickle (disk st);
                timer_urls_csv := put name urls (timer_urls_csv (disk st)) |};
     stdout := stdout st |}.

(** The same state over other databases. *)
Definition with_sqlite (dbs : string -> database) (st : state) : state :=
  {| disk := {| sqlite := dbs;
                segments_pickle := segments_pickle (disk st);
                grouped_pickle := grouped_pickle (disk st);
                timer_urls_csv := timer_urls_csv (disk st) |};
     stdout := stdout st |}.

(** [load_segments] *)
Definition load_segments (crawler_name : string)
  (check_cache dump_pickle : bool) (st : state)
  : outcome (list query_row) * state :=
  if negb (existsb (String.eqb crawler_name) ["odin"; "webtap"])
  then (Fail AssertionError, st)
  else
    let pickle_file := String.append crawler_name "_segments.pickle" in
    match (if check_cache then segments_pickle (disk st) crawler_name
           else None) with
    | Some t =>
        (Done t,
         print (String.append "Will load segments from pickle " pickle_file) st)
    | None =>
        let segments := SEGMENTS_QUERY (sqlite (disk st) crawler_name) in
        (Done segments,
         if dump_pickle then write_segments_pickle crawler_name segments st
         else st)
    end.

Definition eqb_url (a b : option string) : bool :=
  match a, b with
  | None, None => true
  | Some x, Some y => String.eqb x y
  | _, _ => false
  end.

(** [Series.unique()]: the values in the order in which they first
    appear. *)
Fixpoint unique_from (seen l : list (option string)) : list (option string) :=
  match l with
  | [] => []
  | x :: l' =>
      if existsb (eqb_url x) seen then unique_from seen l'
      else x :: unique_from (x :: seen) l'
  end.

Definition unique (l : list (option string)) : list (option string) :=
  unique_from [] l.

(** [dump_timer_urls] *)
Definition dump_timer_urls (timers : list group_row) (crawler_name : string)
  (st : state) : state :=
  write_timer_urls_csv crawler_name (unique (map site_url_first timers)) st.

Section GetTimers.

Context {order : DictOrder}.

(** [get_timers] *)
Definition get_timers (crawler_name : string) (disable_cache : bool)
  (st : state) : outcome (list group_row * list group_row) * state :=
  let pickle_path := String.append crawler_name "_grouped_segments.pickle" in
  match (if disable_cache then None
         else grouped_pickle (disk st) crawler_name) with
  | Some grouped_segments =>
      let st1 := print (String.append
                          "Will load grouped segments from pickle "
                          pickle_path) st in
      let timers := filter timer_mask grouped_segments in
      (Done (timers, grouped_segments), st1)
  | None =>
      match load_segments crawler_name true true st with
      | (Fail e, st1) => (Fail e, st1)
      | (Done segments, st1) =>
          let segments := preprocess_segments (groupable segments) in
          match detect_timers segments None with
          | Raise e => (Fail (Exn e), st1)
          | Ok (timers, grouped_segments) =>
              let st2 := dump_timer_urls timers crawler_name st1 in
              let st3 := write_grouped_pickle crawler_name grouped_segments st2 in
              (Done (timers, grouped_segments), st3)
          end
      end
  end.

End GetTimers.

(** [np.array_split(l, n)]: [len(l) % n] sections of [len(l) // n + 1]
    elements, then sections of [len(l) // n] elements. *)
Definition section_sizes (total n : nat) : list nat :=
  repeat (S (Nat.div total n)) (Nat.modulo total n)
  ++ repeat (Nat.div total n) (Nat.sub n (Nat.modulo total n)).

Fixpoint sections {A : Type} (sizes : list nat) (l : list A) : list (list A) :=
  match sizes with
  | [] => []
  | k :: sizes' => firstn k l :: sections sizes' (skipn k l)
  end.

Definition array_split {A : Type} (l : list A) (n : nat) : list (list A) :=
  sections (section_sizes (List.length l) n) l.

(** The order of [list.sort] on URLs: a null comes before every text, and
    texts compare character by character. *)
Definition url_leb (a b : option string) : bool :=
  match a, b with
  | None, _ => true
  | Some _, None => false
  | Some x, Some y => String.leb x y
  end.

Fixpoint insert_url (x : option string) (l : list (option string))
  : list (option string) :=
  match l with
  | [] => [x]
  | y :: l' => if url_leb x y then x :: l else y :: insert_url x l'
  end.

(** [l.sort()] *)
Definition sort_urls (l : list (option string)) : list (option string) :=
  fold_right insert_url [] l.

Definition URL_CSV_CNT : nat := 8.

(** [all_timers = pd.concat([webtap_timers, odin_timers])] and
    [all_urls = list(all_timers.site_url_first.unique()); all_urls.sort()] *)
Definition all_urls (webtap_timers odin_timers : list group_row)
  : list (option string) :=
  let all_timers := webtap_timers ++ odin_timers in
  sort_urls (unique (map site_url_first all_timers)).

(** [np.array_split(all_urls, URL_CSV_CNT)], the contents of
    [timer_urls_1.csv] to [timer_urls_8.csv]. *)
Definition url_files (urls : list (option string))
  : list (list (option string)) :=
  array_split urls URL_CSV_CNT.

End Files.

(** [join_with_comma]: [reduce(lambda x, y: x + "," + y, series)]; [None]
    stands for the [TypeError] that [reduce] raises on an empty sequence. *)
Definition join_with_comma (series : list string) : option string :=
  match series with
  | [] => None
  | x :: rest =>
      Some (fold_left (fun x y => String.append (String.append x ",") y) rest x)
  end.

(** ** A sample crawl *)

Definition db_seg (visit node : Z) (name text : option string)
  (ts : timestamp) : Files.db_segment :=
  {| Files.se_visit_id := visit;
     Files.se_node_id := node;
     Files.se_node_name := name;
     Files.se_top := 145;
     Files.se_left := 290;
     Files.se_width := 200;
     Files.se_height := 20;
     Files.se_inner_text := text;
     Files.se_time_stamp := ts |}.

(** A countdown in a [DIV] of visit 41, the page body, a text without digit,
    a row without text and a row of a visit that [site_visits] does not
    know. *)
Definition sample_database : Files.database :=
  {| Files.SEGMENTS :=
       [db_seg 41 7 (Some "DIV") (Some "Ends in 10 s") (Int 1000000000);
        db_seg 41 1 (Some "BODY") (Some "Ends in 10 s") (Int 1000000000);
        db_seg 41 7 (Some "DIV") (Some "Ends in 9 s") (Int 2000000000);
        db_seg 41 9 (Some "SPAN") (Some "Sale") (Int 2100000000);
        db_seg 41 7 (Some "DIV") (Some "Ends in 8 s") (Int 3000000000);
        db_seg 41 9 (Some "SPAN") None (Int 3100000000);
        db_seg 41 7 (Some "DIV") (Some "Ends in 7 s") (Int 4000000000);
        db_seg 99 7 (Some "DIV") (Some "3 left") (Int 4100000000);
        db_seg 41 7 (Some "DIV") (Some "Ends in 6 s") (Int 5000000000);
        db_seg 41 7 (Some "DIV") (Some "Ends in 5 s") (Int 6000000000)];
     Files.site_visits :=
       [{| Files.sv_visit_id := 41;
           Files.sv_site_url := Some "https://shop.example/item" |}] |}.

(** The crawl databases and no other file. *)
Definition fresh_state : Files.state :=
  {| Files.disk :=
       {| Files.sqlite := fun _ => sample_database;
          Files.segments_pickle := fun _ => None;
          Files.grouped_pickle := fun _ => None;
          Files.timer_urls_csv := fun _ => None |};
     Files.stdout := [] |}.

(** A grouped pickle left under another name. *)
Definition state_with_pickle : Files.state :=
  Files.write_grouped_pickle "test" [group_of_results true true true]
    fresh_state.

(** A segments pickle, empty, left for "webtap". *)
Definition state_with_segments : Files.state :=
  Files.write_segments_pickle "webtap" [] fresh_state.

(** * Properties *)

(** ** Preprocessing *)

Lemma no_digit_sub_runs (in_run : bool) (x : string) :
  no_digit (sub_runs is_digit "DPNUM" in_run x) = true.
Proof.
  revert in_run. induction x as [|c r IH]; intros in_run; simpl.
  - reflexivity.
  - destruct (is_digit c) eqn:E.
    + destruct in_run; [apply IH|]. simpl. apply IH.
    + simpl. rewrite E. simpl. apply IH.
Qed.

Lemma sub_runs_no_digit (repl : string) (in_run : bool) (x : string) :
  no_digit x = true -> sub_runs is_digit repl in_run x = x.
Proof.
  revert in_run. induction x as [|c r IH]; intros in_run H; simpl in *.
  - reflexivity.
  - apply andb_true_iff in H. destruct H as [Hc Hr].
    apply negb_true_iff in Hc. rewrite Hc. f_equal. apply IH, Hr.
Qed.

(** C10.  Collapsing the digit runs of a text that already went through the
    collapsing changes nothing: [inner_processed_of] is idempotent. *)
Theorem inner_processed_idempotent (x : string) :
  inner_processed_of (inner_processed_of x) = inner_processed_of x.
Proof.
  unfold inner_processed_of, re_sub_runs.
  apply sub_runs_no_digit, no_digit_sub_runs.
Qed.

(** [re.sub(r'\D+', '', x)] keeps the digits of [x], in order. *)
Lemma sub_runs_nondigit (in_run : bool) (x : string) :
  sub_runs is_nondigit "" in_run x
  = string_of_list_ascii (filter is_digit (list_ascii_of_string x)).
Proof.
  revert in_run. induction x as [|c r IH]; intros in_run; simpl.
  - reflexivity.
  - unfold is_nondigit at 1. destruct (is_digit c); simpl.
    + f_equal. apply IH.
    + destruct in_run; apply IH.
Qed.

Lemma all_digits_sub_runs (in_run : bool) (x : string) :
  all_digits (sub_runs is_nondigit "" in_run x) = true.
Proof.
  revert in_run. induction x as [|c r IH]; intros in_run; simpl.
  - reflexivity.
  - unfold is_nondigit at 1. destruct (is_digit c) eqn:E; simpl.
    + rewrite E. apply IH.
    + destruct in_run; apply IH.
Qed.

Lemma all_digits_inner_digits (x : string) :
  all_digits (inner_digits_of x) = true.
Proof. apply all_digits_sub_runs. Qed.

Lemma sub_runs_nondigit_empty (in_run : bool) (x : string) :
  sub_runs is_nondigit "" in_run x = "" <-> glob_has_digit x = false.
Proof.
  revert in_run. induction x as [|c r IH]; intros in_run; simpl.
  - tauto.
  - unfold is_nondigit at 1. destruct (is_digit c); simpl.
    + split; discriminate.
    + destruct in_run; apply IH.
Qed.

(** A text with a digit, as [SEGMENTS_QUERY] selects them, has a numeral for
    [inner_digits]. *)
Lemma is_numeral_inner_digits (x : string) :
  glob_has_digit x = true -> is_numeral (inner_digits_of x) = true.
Proof.
  intros H. unfold is_numeral.
  destruct (inner_digits_of x) eqn:E.
  - apply sub_runs_nondigit_empty in E. congruence.
  - rewrite <- E. apply all_digits_inner_digits.
Qed.

(** A text without digit has the empty string for [inner_digits]. *)
Lemma inner_digits_empty (x : string) :
  glob_has_digit x = false -> inner_digits_of x = "".
Proof. intros H. apply sub_runs_nondigit_empty, H. Qed.

(** ** [int] and [differences] *)

Lemma int_digits_fold (x : string) (acc : Z) :
  all_digits x = true ->
  int_digits acc x
  = Ok (fold_left (fun a c => 10 * a + digit_value c)
                  (list_ascii_of_string x) acc).
Proof.
  revert acc. induction x as [|c r IH]; intros acc H; simpl in *.
  - reflexivity.
  - apply andb_true_iff in H. destruct H as [Hc Hr].
    rewrite Hc. apply IH, Hr.
Qed.

Lemma py_int_numeral (x : string) :
  is_numeral x = true -> py_int x = Ok (Spec.value x).
Proof.
  unfold is_numeral, py_int, Spec.value. destruct x as [|c r].
  - discriminate.
  - apply int_digits_fold.
Qed.

Lemma py_int_empty : py_int "" = Raise ValueError.
Proof. reflexivity. Qed.

(** [int] raises nothing but [ValueError]. *)
Lemma py_int_raises (x : string) (e : exn) :
  py_int x = Raise e -> e = ValueError.
Proof.
  unfold py_int. destruct x as [|c r]; [congruence|].
  generalize 0. generalize (String c r). clear.
  induction s as [|c r IH]; intros acc; simpl.
  - discriminate.
  - destruct (is_digit c); [apply IH|congruence].
Qed.

(** The consecutive pairs [zip(series[:-1], series[1:])]. *)
Lemma zip_consecutive (a b : string) (l : list string) :
  zip (removelast (a :: b :: l)) (tl (a :: b :: l))
  = (a, b) :: zip (removelast (b :: l)) (tl (b :: l)).
Proof. reflexivity. Qed.

Lemma zip_short (l : list string) :
  (List.length l < 2)%nat -> zip (removelast l) (tl l) = [].
Proof.
  destruct l as [|a [|b l]]; simpl; intros H; try reflexivity. lia.
Qed.

Lemma differences_short (series : list string) :
  (List.length series < 2)%nat -> differences series = Ok [].
Proof.
  intros H. unfold differences. rewrite zip_short by exact H. reflexivity.
Qed.

Lemma differences_cons (a b : string) (l : list string) :
  differences (a :: b :: l)
  = (vj <- py_int b ;; vi <- py_int a ;;
     ds <- differences (b :: l) ;; Ok ((vj - vi) :: ds)).
Proof.
  unfold differences. rewrite zip_consecutive. simpl.
  destruct (py_int b); simpl; [|reflexivity].
  destruct (py_int a); reflexivity.
Qed.

(** On numerals [differences] returns the differences of the values. *)
Lemma differences_numerals (series : list string) :
  Forall (fun x => is_numeral x = true) series ->
  differences series = Ok (Spec.diffs_of series).
Proof.
  unfold Spec.diffs_of.
  induction series as [|a l IH]; intros H.
  - reflexivity.
  - destruct l as [|b l].
    + reflexivity.
    + rewrite differences_cons.
      inversion H as [|? ? Ha Hl]; subst.
      inversion Hl as [|? ? Hb _]; subst.
      rewrite (py_int_numeral b Hb), (py_int_numeral a Ha). cbn [Py.bind].
      rewrite (IH Hl). reflexivity.
Qed.

(** With two elements or more, every element goes through [int]: one empty
    string makes [differences] raise. *)
Lemma differences_empty_string (series : list string) :
  (2 <= List.length series)%nat -> In "" series ->
  differences series = Raise ValueError.
Proof.
  induction series as [|a l IH]; intros Hlen Hin.
  - simpl in Hlen. lia.
  - destruct l as [|b l]; [simpl in Hlen; lia|].
    rewrite differences_cons.
    destruct (string_dec b "") as [->|Hb].
    + reflexivity.
    + destruct (string_dec a "") as [->|Ha].
      * destruct (py_int b) eqn:Eb; simpl.
        -- reflexivity.
        -- f_equal. eapply py_int_raises, Eb.
      * assert (Htl : differences (b :: l) = Raise ValueError).
        { destruct l as [|c l].
          - simpl in Hin. intuition congruence.
          - apply IH; [simpl; lia|]. simpl in Hin. simpl. intuition congruence. }
        rewrite Htl.
        destruct (py_int b) eqn:Eb; simpl.
        -- destruct (py_int a) eqn:Ea; simpl; [reflexivity|].
           f_equal. eapply py_int_raises, Ea.
        -- f_equal. eapply py_int_raises, Eb.
Qed.

Lemma diffs_length (vs : list Z) :
  List.length (Spec.diffs vs) = Nat.pred (List.length vs).
Proof.
  induction vs as [|a l IH]; [reflexivity|].
  destruct l as [|b l]; [reflexivity|].
  change (S (List.length (Spec.diffs (b :: l))) = S (List.length l)).
  rewrite IH. reflexivity.
Qed.

(** ** The counts *)

Lemma len_cons {A : Type} (x : A) (l : list A) : len (x :: l) = 1 + len l.
Proof. unfold len. simpl List.length. lia. Qed.

Lemma len_nonneg {A : Type} (l : list A) : 0 <= len l.
Proof. unfold len. lia. Qed.

(** A strictly negative diff is none of 59, 5, 9. *)
Lemma counts_as_neg_ltb (diff : Z) : counts_as_neg diff = (diff <? 0).
Proof.
  unfold counts_as_neg. destruct (Z.ltb_spec diff 0) as [H|H]; [|reflexivity].
  simpl. replace (diff =? 59) with false by (symmetry; apply Z.eqb_neq; lia).
  replace (diff =? 5) with false by (symmetry; apply Z.eqb_neq; lia).
  replace (diff =? 9) with false by (symmetry; apply Z.eqb_neq; lia).
  reflexivity.
Qed.

Lemma n_negs_of_plain (diffs : list Z) : n_negs_of diffs = n_negs_plain diffs.
Proof.
  unfold n_negs_of, n_negs_plain. f_equal.
  apply filter_ext. intros d. apply counts_as_neg_ltb.
Qed.

Lemma n_negs_plain_spec (ds : list Z) : n_negs_plain ds = Spec.nNeg_plain ds.
Proof.
  unfold n_negs_plain. induction ds as [|d ds IH]; [reflexivity|].
  simpl. destruct (Z.ltb_spec d 0), (Z_lt_dec d 0); try lia.
  rewrite len_cons, IH. reflexivity.
Qed.

Lemma nNeg_plain (ds : list Z) : Spec.nNeg ds = Spec.nNeg_plain ds.
Proof.
  induction ds as [|d ds IH]; [reflexivity|].
  cbn [Spec.nNeg Spec.nNeg_plain].
  destruct (Z_lt_dec d 0) as [H|H]; [|exact IH].
  destruct (in_dec Z.eq_dec d [59; 5; 9]) as [Hin|_].
  - simpl in Hin. lia.
  - rewrite IH. reflexivity.
Qed.

Lemma n_negs_of_spec (ds : list Z) : n_negs_of ds = Spec.nNeg ds.
Proof. rewrite n_negs_of_plain, n_negs_plain_spec, nNeg_plain. reflexivity. Qed.

Lemma n_pos_of_spec (ds : list Z) : n_pos_of ds = Spec.nPos ds.
Proof.
  unfold n_pos_of. induction ds as [|d ds IH]; [reflexivity|].
  simpl. destruct (Z.ltb_spec 0 d), (Z_lt_dec 0 d); try lia.
  rewrite len_cons, IH. reflexivity.
Qed.

Lemma n_pos_of_nonneg (ds : list Z) : 0 <= n_pos_of ds.
Proof. apply len_nonneg. Qed.

Lemma n_negs_of_nonneg (ds : list Z) : 0 <= n_negs_of ds.
Proof. apply len_nonneg. Qed.

(** The ratio test is a comparison of integers. *)
Lemma float_div_gt_spec (n d k : Z) :
  0 < d -> float_div_gt n d k = (k * d <? n).
Proof.
  intros Hd. unfold float_div_gt, Qcompare. simpl.
  rewrite Z2Pos.id by exact Hd. rewrite Z.mul_1_r.
  destruct (Z.compare_spec n (k * d)), (Z.ltb_spec (k * d) n); try reflexivity; lia.
Qed.

Lemma Qdiv_gt_spec (n d k : Z) :
  0 < d -> (inject_Z k < inject_Z n / inject_Z d)%Q <-> k * d < n.
Proof.
  intros Hd. destruct d as [|p|p]; try lia.
  unfold Qlt, Qdiv, Qmult, Qinv, inject_Z. simpl. lia.
Qed.

(** On the counts of a group of a few hundred updates the rational quotient
    and the binary64 quotient pass and fail the ratio test together. *)
Lemma float64_div_gt_agrees :
  forallb (fun nd => Bool.eqb (float64_div_gt (fst nd) (snd nd) 5)
                              (float_div_gt (fst nd) (snd nd) 5))
          (count_pairs 400 60) = true.
Proof. vm_compute. reflexivity. Qed.

Lemma float64_div_gt_agrees_boundary :
  forallb (fun nd => Bool.eqb (float64_div_gt (fst nd) (snd nd) 5)
                              (float_div_gt (fst nd) (snd nd) 5))
          (boundary_pairs 50) = true.
Proof. vm_compute. reflexivity. Qed.

(** Past 2^51 positive diffs the two part: the binary64 quotient of
    [5 d + 1] by [d] rounds to 5. *)
Lemma float64_div_gt_differs_beyond :
  let d := 2 ^ 51 + 1 in
  float_div_gt (5 * d + 1) d 5 = true /\ float64_div_gt (5 * d + 1) d 5 = false.
Proof. split; vm_compute; reflexivity. Qed.

(** ** Heuristic A *)

Lemma is_decreasing_of_diffs (series : list string) (ds : list Z) :
  differences series = Ok ds ->
  exists b, is_decreasing series = Ok b /\
    (b = true <->
     5 <= Spec.nNeg ds /\ (Spec.nPos ds = 0 \/ 5 * Spec.nPos ds < Spec.nNeg ds)).
Proof.
  intros Hd. unfold is_decreasing. rewrite Hd. cbn [Py.bind].
  destruct ds as [|d ds].
  - exists false. split; [reflexivity|]. simpl. split; [discriminate|lia].
  - cbn [is_empty].
    rewrite n_negs_of_spec, n_pos_of_spec.
    pose proof (n_pos_of_nonneg (d :: ds)) as Hpos. rewrite n_pos_of_spec in Hpos.
    unfold TIMER_MIN_NO_OF_NEG_UPDATES, TIMER_MIN_NEG_POS_UPDATE_RATIO.
    destruct (Z.ltb_spec (Spec.nNeg (d :: ds)) 5) as [Hn|Hn].
    + exists false. split; [reflexivity|]. split; [discriminate|lia].
    + destruct (Z.eqb_spec (Spec.nPos (d :: ds)) 0) as [Hp|Hp].
      * exists true. split; [reflexivity|]. split; [intros _|reflexivity].
        split; [exact Hn|left; exact Hp].
      * eexists. split; [reflexivity|].
        rewrite float_div_gt_spec by lia. rewrite Z.ltb_lt. lia.
Qed.

Lemma isDecreasing_spec (s : list string) :
  Spec.isDecreasing s <->
  5 <= Spec.nNeg (Spec.diffs_of s) /\
  (Spec.nPos (Spec.diffs_of s) = 0 \/
   5 * Spec.nPos (Spec.diffs_of s) < Spec.nNeg (Spec.diffs_of s)).
Proof.
  unfold Spec.isDecreasing. cbv zeta.
  pose proof (n_pos_of_nonneg (Spec.diffs_of s)) as Hpos.
  rewrite n_pos_of_spec in Hpos.
  destruct (Z.eq_dec (Spec.nPos (Spec.diffs_of s)) 0) as [E|E].
  - split; intros [H1 _]; (split; [exact H1|left; exact E]).
  - rewrite Qdiv_gt_spec by lia. tauto.
Qed.

(** C2.  On every sequence of numerals with two elements or more,
    [is_decreasing] returns, and returns true exactly when [nNeg >= 5] and
    ([nPos = 0] or [nNeg / nPos > 5], the quotient taken exactly and the
    comparison strict); [ratio_exactly_5] has [nNeg = 25], [nPos = 5], a
    ratio of exactly 5, and is rejected. *)
Theorem is_decreasing_iff :
  (forall s : list string,
      Forall (fun x => is_numeral x = true) s ->
      (2 <= List.length s)%nat ->
      exists b, is_decreasing s = Ok b /\ (b = true <-> Spec.isDecreasing s))
  /\ (Spec.nNeg (Spec.diffs_of ratio_exactly_5) = 25
      /\ Spec.nPos (Spec.diffs_of ratio_exactly_5) = 5
      /\ is_decreasing ratio_exactly_5 = Ok false).
Proof.
  split.
  - intros s Hs _.
    destruct (is_decreasing_of_diffs s _ (differences_numerals s Hs))
      as (b & Hb & Hiff).
    exists b. split; [exact Hb|]. rewrite isDecreasing_spec. exact Hiff.
  - repeat split; vm_compute; reflexivity.
Qed.

Lemma is_decreasing_iff_witness :
  Forall (fun x => is_numeral x = true) countdown
  /\ (2 <= List.length countdown)%nat
  /\ exists b, is_decreasing countdown = Ok b
               /\ (b = true <-> Spec.isDecreasing countdown).
Proof.
  assert (Hs : Forall (fun x => is_numeral x = true) countdown)
    by (repeat constructor).
  assert (Hl : (2 <= List.length countdown)%nat) by (simpl; lia).
  split; [exact Hs|]. split; [exact Hl|].
  exact (proj1 is_decreasing_iff countdown Hs Hl).
Defined.

(** ** The exclusion set *)

Section ExclusionSet.

Context {order : DictOrder}.

(** C8.  The clause [diff not in [59, 5, 9]] excludes nothing: a diff that
    reaches it is strictly negative, so [n_negs] is the number of strictly
    negative diffs and each heuristic equals its variant without the
    clause, on every input, raised exceptions included. *)
Theorem exclusion_set_vacuous :
  (forall diff : Z, counts_as_neg diff = (diff <? 0))
  /\ (forall diffs : list Z, n_negs_of diffs = Spec.nNeg_plain diffs)
  /\ (forall series : list string,
         is_decreasing series = is_decreasing_plain series)
  /\ (forall series : list string,
         is_decreasing_mode series = is_decreasing_mode_plain series).
Proof.
  split; [exact counts_as_neg_ltb|].
  split; [intros ds; rewrite n_negs_of_plain; apply n_negs_plain_spec|].
  split; intros series.
  - unfold is_decreasing, is_decreasing_plain.
    destruct (differences series) as [ds|e]; [|reflexivity].
    cbn [Py.bind]. rewrite n_negs_of_plain. reflexivity.
  - unfold is_decreasing_mode, is_decreasing_mode_plain.
    destruct (differences series) as [ds|e]; [|reflexivity].
    cbn [Py.bind]. rewrite n_negs_of_plain. reflexivity.
Qed.

End ExclusionSet.

(** ** [Counter] and the modes *)

Lemma count_occurrences (x : Z) (l : list Z) : count x l = Spec.occurrences x l.
Proof.
  unfold count, Spec.occurrences.
  induction l as [|y l IH]; [reflexivity|].
  cbn [filter count_occ].
  destruct (Z.eqb_spec x y) as [E|E], (Z.eq_dec y x) as [E'|E']; try congruence.
  rewrite len_cons, IH. lia.
Qed.

Lemma occurrences_nonneg (x : Z) (l : list Z) : 0 <= Spec.occurrences x l.
Proof. unfold Spec.occurrences. lia. Qed.

Lemma occurrences_pos (x : Z) (l : list Z) : In x l <-> 0 < Spec.occurrences x l.
Proof.
  unfold Spec.occurrences. rewrite (count_occ_In Z.eq_dec). lia.
Qed.

(** Filtering keeps the occurrences of the values that pass. *)
Lemma occurrences_filter (p : Z -> bool) (x : Z) (l : list Z) :
  p x = true -> Spec.occurrences x (filter p l) = Spec.occurrences x l.
Proof.
  intros Hp. unfold Spec.occurrences. f_equal.
  induction l as [|y l IH]; [reflexivity|].
  cbn [filter]. destruct (p y) eqn:E.
  - cbn [count_occ]. destruct (Z.eq_dec y x); rewrite IH; reflexivity.
  - rewrite IH. cbn [count_occ].
    destruct (Z.eq_dec y x) as [->|_]; [congruence|reflexivity].
Qed.

Lemma max_by_count_In (best : Z * Z) (items : list (Z * Z)) :
  In (max_by_count best items) (best :: items).
Proof.
  revert best. induction items as [|it rest IH]; intros best.
  - left. reflexivity.
  - cbn [max_by_count]. destruct (snd best <? snd it).
    + right. apply IH.
    + destruct (IH best) as [H|H]; [left; exact H|right; right; exact H].
Qed.

Lemma max_by_count_ge (best : Z * Z) (items : list (Z * Z)) (it : Z * Z) :
  In it (best :: items) -> snd it <= snd (max_by_count best items).
Proof.
  revert best it. induction items as [|it' rest IH]; intros best it Hin.
  - destruct Hin as [<-|[]]. simpl. lia.
  - cbn [max_by_count].
    destruct (Z.ltb_spec (snd best) (snd it')) as [Hlt|Hge].
    + destruct Hin as [<-|[<-|Hin]].
      * pose proof (IH it' it' (or_introl eq_refl)). lia.
      * apply IH. left. reflexivity.
      * apply IH. right. exact Hin.
    + destruct Hin as [<-|[<-|Hin]].
      * apply IH. left. reflexivity.
      * pose proof (IH best best (or_introl eq_refl)). lia.
      * apply IH. right. exact Hin.
Qed.

Section Modes.

Context {order : DictOrder}.

Lemma iterkeys_In (l : list Z) (x : Z) : In x (iterkeys l) <-> In x l.
Proof.
  split; intros H.
  - apply (Permutation_in _ (iterkeys_Permutation l)) in H.
    unfold set_Z in H. apply nodup_In in H. exact H.
  - apply (Permutation_in _ (Permutation_sym (iterkeys_Permutation l))).
    unfold set_Z. apply nodup_In. exact H.
Qed.

Lemma Counter_items_In (l : list Z) (it : Z * Z) :
  In it (Counter_items l) <-> In (fst it) l /\ snd it = count (fst it) l.
Proof.
  unfold Counter_items. rewrite in_map_iff. split.
  - intros (k & <- & Hk). simpl. rewrite <- iterkeys_In. tauto.
  - intros [Hin Hc]. exists (fst it). rewrite iterkeys_In.
    split; [|exact Hin]. destruct it as [k c]. simpl in *. congruence.
Qed.

(** The key that [most_common(1)] returns is a mode; there is one as soon as
    the list has an element, so [[0][0]] raises no [IndexError]. *)
Lemma most_common_key_mode (l : list Z) :
  l <> [] ->
  exists m, most_common_key l = Ok m /\ Spec.is_mode m l.
Proof.
  intros Hne. unfold most_common_key, Counter_most_common_1.
  destruct (Counter_items l) as [|hd items] eqn:E.
  - exfalso. destruct l as [|x l]; [congruence|].
    assert (H : In (x, count x (x :: l)) (Counter_items (x :: l)))
      by (apply Counter_items_In; simpl; tauto).
    rewrite E in H. exact H.
  - exists (fst (max_by_count hd items)). split; [reflexivity|].
    pose proof (max_by_count_In hd items) as Hin. rewrite <- E in Hin.
    apply Counter_items_In in Hin. destruct Hin as [Hin Hc].
    split; [exact Hin|]. intros x.
    rewrite <- !count_occurrences, <- Hc.
    destruct (in_dec Z.eq_dec x l) as [Hx|Hx].
    + apply (max_by_count_ge hd items (x, count x l)).
      rewrite <- E. apply Counter_items_In. simpl. tauto.
    + assert (Hz : count x l = 0).
      { rewrite count_occurrences. pose proof (occurrences_nonneg x l).
        pose proof (proj2 (occurrences_pos x l)). 
        destruct (Z.eq_dec (Spec.occurrences x l) 0); [assumption|].
        exfalso. apply Hx. apply H0. lia. }
      rewrite Hz, Hc, count_occurrences. apply occurrences_nonneg.
Qed.

Lemma most_common_mode (diffs : list Z) :
  diffs <> [] ->
  exists m, most_common diffs = Ok (Some m) /\ Spec.is_mode m diffs.
Proof.
  intros Hne. destruct (most_common_key_mode diffs Hne) as (m & Hm & Hmode).
  exists m. split; [|exact Hmode].
  unfold most_common. destruct diffs; [congruence|]. rewrite Hm. reflexivity.
Qed.

Lemma fold_max_attained (f : Z -> Z) (l : list Z) (m : Z) :
  In m l -> 0 <= f m -> (forall x, In x l -> f x <= f m) ->
  fold_right Z.max 0 (map f l) = f m.
Proof.
  intros Hin H0 Hmax.
  assert (Hle : forall l', (forall x, In x l' -> f x <= f m) ->
                           fold_right Z.max 0 (map f l') <= f m).
  { induction l' as [|y l' IH]; intros H; simpl; [exact H0|].
    pose proof (H y (or_introl eq_refl)).
    pose proof (IH (fun x Hx => H x (or_intror Hx))). lia. }
  assert (Hge : forall l', In m l' -> f m <= fold_right Z.max 0 (map f l')).
  { induction l' as [|y l' IH]; intros H; simpl; [destruct H|].
    destruct H as [->|H]; [lia|]. pose proof (IH H). lia. }
  pose proof (Hle l Hmax). pose proof (Hge l Hin). lia.
Qed.

(** [num_most_common_neg] returns the largest number of occurrences of a
    negative diff, whichever of the most frequent negative values
    [most_common_neg] selects. *)
Lemma num_most_common_neg_spec (diffs : list Z) :
  num_most_common_neg diffs = Ok (Spec.modeNegCount diffs).
Proof.
  unfold num_most_common_neg, most_common_neg, Spec.modeNegCount.
  destruct diffs as [|d ds]; [reflexivity|].
  set (l := d :: ds).
  destruct (filter (fun x => x <? 0) l) as [|n negs] eqn:E; [reflexivity|].
  rewrite <- E.
  destruct (most_common_key_mode (filter (fun x => x <? 0) l)) as (m & Hm & Hin & Hmax).
  { rewrite E. discriminate. }
  rewrite Hm. cbn [Py.bind].
  pose proof Hin as Hin'. apply filter_In in Hin'. destruct Hin' as [Hml Hneg].
  apply Z.ltb_lt in Hneg.
  cbn [py_not]. replace (m =? 0) with false by (symmetry; apply Z.eqb_neq; lia).
  f_equal. rewrite count_occurrences. symmetry.
  apply (fold_max_attained (fun x => Spec.occurrences x l)); [exact Hin| |].
  - apply occurrences_nonneg.
  - intros x Hx. apply filter_In in Hx. destruct Hx as [_ Hx].
    rewrite <- (occurrences_filter (fun x => x <? 0) x l Hx).
    rewrite <- (occurrences_filter (fun x => x <? 0) m l)
      by (apply Z.ltb_lt; exact Hneg).
    apply Hmax.
Qed.

(** ** Heuristic B *)

Lemma is_decreasing_mode_of_diffs (series : list string) (ds : list Z) :
  differences series = Ok ds ->
  exists b, is_decreasing_mode series = Ok b /\
    (b = true <->
     5 <= Spec.distinct series /\
     5 <= Spec.nNeg ds /\
     (Spec.nPos ds = 0 \/
      ((exists m, most_common ds = Ok (Some m) /\ Spec.is_mode m ds /\ m <= 0) /\
       5 <= Spec.modeNegCount ds /\
       Spec.nPos ds < Spec.nNeg ds))).
Proof.
  intros Hd. unfold is_decreasing_mode. rewrite Hd. cbn [Py.bind].
  destruct ds as [|d ds].
  - exists false. split; [reflexivity|]. simpl. split; [discriminate|lia].
  - cbn [is_empty]. set (l := d :: ds).
    change (len (set_str series)) with (Spec.distinct series).
    rewrite n_negs_of_spec, n_pos_of_spec.
    pose proof (n_pos_of_nonneg l) as Hpos. rewrite n_pos_of_spec in Hpos.
    unfold TIMER_MIN_NO_OF_NEG_UPDATES.
    destruct (Z.ltb_spec (Spec.distinct series) 5) as [Hu|Hu].
    { exists false. split; [reflexivity|]. split; [discriminate|lia]. }
    destruct (Z.ltb_spec (Spec.nNeg l) 5) as [Hn|Hn].
    { exists false. split; [reflexivity|]. split; [discriminate|lia]. }
    destruct (Z.eqb_spec (Spec.nPos l) 0) as [Hp|Hp].
    { exists true. split; [reflexivity|]. split; [intros _|reflexivity].
      split; [exact Hu|]. split; [exact Hn|]. left. exact Hp. }
    destruct (most_common_mode l) as (m & Hm & Hmode); [discriminate|].
    rewrite Hm. cbn [Py.bind]. cbn [py_gt].
    destruct (Z.ltb_spec 0 m) as [Hgt|Hle].
    { exists false. split; [reflexivity|]. split; [discriminate|].
      intros (_ & _ & [?|((m' & Hm' & _ & Hle') & _)]); [lia|].
      assert (m' = m) by congruence. lia. }
    rewrite num_most_common_neg_spec. cbn [Py.bind].
    destruct (Z.ltb_spec (Spec.modeNegCount l) 5) as [Hc|Hc].
    { exists false. split; [reflexivity|]. split; [discriminate|].
      intros (_ & _ & [?|(_ & ? & _)]); lia. }
    eexists. split; [reflexivity|]. rewrite Z.ltb_lt. split.
    + intros Hlt. split; [exact Hu|]. split; [exact Hn|]. right.
      split; [exists m; tauto|]. split; [exact Hc|exact Hlt].
    + intros (_ & _ & [?|(_ & _ & ?)]); [contradiction|assumption].
Qed.

(** C3.  On every sequence of numerals with two elements or more,
    [is_decreasing_mode] returns, and returns true exactly when the sequence
    has 5 distinct values or more, [nNeg >= 5] (counted as in heuristic A)
    and either [nPos = 0], or the mode of all the diffs is [<= 0], the most
    frequent negative diff occurs 5 times or more, and [nNeg > nPos]. *)
Theorem is_decreasing_mode_iff (s : list string) :
  Forall (fun x => is_numeral x = true) s ->
  (2 <= List.length s)%nat ->
  exists b, is_decreasing_mode s = Ok b /\ (b = true <-> isDecreasingByMode s).
Proof.
  intros Hs _.
  exact (is_decreasing_mode_of_diffs s _ (differences_numerals s Hs)).
Qed.

End Modes.

Lemma is_decreasing_mode_iff_witness :
  Forall (fun x => is_numeral x = true) down_6_up_2
  /\ (2 <= List.length down_6_up_2)%nat
  /\ exists b, @is_decreasing_mode insertion_order down_6_up_2 = Ok b
               /\ (b = true <-> @isDecreasingByMode insertion_order down_6_up_2).
Proof.
  assert (Hs : Forall (fun x => is_numeral x = true) down_6_up_2)
    by (repeat constructor).
  assert (Hl : (2 <= List.length down_6_up_2)%nat) by (simpl; lia).
  split; [exact Hs|]. split; [exact Hl|].
  exact (@is_decreasing_mode_iff insertion_order down_6_up_2 Hs Hl).
Defined.

(** ** The order of the keys *)

Lemma lex_Eq (c d : comparison) : lex c d = Eq <-> c = Eq /\ d = Eq.
Proof. destruct c; simpl; intuition congruence. Qed.

Lemma lex_Lt (c d : comparison) :
  lex c d = Lt <-> c = Lt \/ (c = Eq /\ d = Lt).
Proof. destruct c; simpl; intuition congruence. Qed.

Lemma lex_CompOpp (c d : comparison) :
  CompOpp (lex c d) = lex (CompOpp c) (CompOpp d).
Proof. destruct c; reflexivity. Qed.

Lemma key_compare_eq (a b : key) : key_compare a b = Eq <-> a = b.
Proof.
  destruct a as [[[v1 t1] l1] p1], b as [[[v2 t2] l2] p2].
  unfold key_compare. rewrite !lex_Eq, !Z.compare_eq_iff.
  change (String.compare p1 p2) with (OrderedTypeEx.String_as_OT.cmp p1 p2).
  rewrite OrderedTypeEx.String_as_OT.cmp_eq.
  split; [intros (-> & -> & -> & ->); reflexivity|].
  intros H. inversion H. tauto.
Qed.

Lemma key_compare_refl (a : key) : key_compare a a = Eq.
Proof. apply key_compare_eq. reflexivity. Qed.

Lemma key_compare_antisym (a b : key) :
  key_compare b a = CompOpp (key_compare a b).
Proof.
  destruct a as [[[v1 t1] l1] p1], b as [[[v2 t2] l2] p2].
  unfold key_compare. rewrite !lex_CompOpp.
  rewrite <- !Z.compare_antisym.
  rewrite <- String.compare_antisym. reflexivity.
Qed.

Lemma key_lt_spec (a b : key) :
  key_lt a b <->
  let '(v1, t1, l1, p1) := a in
  let '(v2, t2, l2, p2) := b in
  v1 < v2 \/ (v1 = v2 /\ (t1 < t2 \/ (t1 = t2 /\ (l1 < l2 \/
    (l1 = l2 /\ OrderedTypeEx.String_as_OT.lt p1 p2))))).
Proof.
  destruct a as [[[v1 t1] l1] p1], b as [[[v2 t2] l2] p2].
  unfold key_lt, key_compare.
  rewrite !lex_Lt, !Z.compare_eq_iff, !Z.compare_lt_iff.
  change (String.compare p1 p2) with (OrderedTypeEx.String_as_OT.cmp p1 p2).
  rewrite OrderedTypeEx.String_as_OT.cmp_lt. reflexivity.
Qed.

Lemma key_lt_trans (a b c : key) : key_lt a b -> key_lt b c -> key_lt a c.
Proof.
  rewrite !key_lt_spec.
  destruct a as [[[v1 t1] l1] p1], b as [[[v2 t2] l2] p2],
           c as [[[v3 t3] l3] p3].
  pose proof (OrderedTypeEx.String_as_OT.lt_trans p1 p2 p3) as Htr.
  intros H1 H2.
  destruct H1 as [H1|[-> [H1|[-> [H1|[-> H1]]]]]];
  destruct H2 as [H2|[<- [H2|[<- [H2|[<- H2]]]]]];
    try (left; lia);
    try (right; split; [reflexivity|]; left; lia);
    try (right; split; [reflexivity|]; right; split; [reflexivity|]; left; lia).
  right. split; [reflexivity|]. right. split; [reflexivity|].
  right. split; [reflexivity|]. apply Htr; assumption.
Qed.

Lemma key_lt_irrefl (a : key) : ~ key_lt a a.
Proof. unfold key_lt. rewrite key_compare_refl. discriminate. Qed.

Lemma key_eqb_eq (a b : key) : key_eqb a b = true <-> a = b.
Proof.
  unfold key_eqb. rewrite <- key_compare_eq.
  destruct (key_compare a b); intuition congruence.
Qed.

Lemma key_eqb_refl (a : key) : key_eqb a a = true.
Proof. apply key_eqb_eq. reflexivity. Qed.

Lemma key_eqb_neq (a b : key) : key_eqb a b = false <-> a <> b.
Proof.
  rewrite <- key_eqb_eq. destruct (key_eqb a b); intuition congruence.
Qed.

Lemma key_compare_Gt (a b : key) : key_compare a b = Gt -> key_lt b a.
Proof.
  intros H. unfold key_lt. rewrite key_compare_antisym, H. reflexivity.
Qed.

(** ** [groupby] *)

Lemma add_row_keys (k : key) (r : row) (groups : list (key * list row))
  (k' : key) :
  In k' (map fst (add_row k r groups)) <-> k' = k \/ In k' (map fst groups).
Proof.
  induction groups as [|[k0 rs] rest IH]; cbn [add_row].
  - simpl. intuition congruence.
  - destruct (key_compare k k0) eqn:E; cbn [map fst In] in *.
    + apply key_compare_eq in E. subst k0. intuition congruence.
    + intuition congruence.
    + rewrite IH. intuition congruence.
Qed.

Lemma add_row_sorted (k : key) (r : row) (groups : list (key * list row)) :
  keys_sorted groups -> keys_sorted (add_row k r groups).
Proof.
  unfold keys_sorted.
  induction groups as [|[k0 rs] rest IH]; intros Hs; cbn [add_row].
  - simpl. constructor; constructor.
  - cbn [map fst] in Hs. apply StronglySorted_inv in Hs. destruct Hs as [Hs Hall].
    destruct (key_compare k k0) eqn:E; cbn [map fst].
    + constructor; assumption.
    + constructor.
      * constructor; assumption.
      * constructor; [exact E|].
        eapply Forall_impl; [|exact Hall].
        intros a Ha. eapply key_lt_trans; [exact E|exact Ha].
    + constructor; [apply IH, Hs|].
      apply Forall_forall. intros k' Hk'. apply add_row_keys in Hk'.
      destruct Hk' as [->|Hk'].
      * apply key_compare_Gt, E.
      * rewrite Forall_forall in Hall. apply Hall, Hk'.
Qed.

Lemma assoc_not_In (k : key) (groups : list (key * list row)) :
  ~ In k (map fst groups) -> assoc k groups = None.
Proof.
  induction groups as [|[k0 rs] rest IH]; intros Hn; cbn [assoc].
  - reflexivity.
  - cbn [map fst In] in Hn.
    destruct (key_eqb k k0) eqn:E.
    + apply key_eqb_eq in E. subst. tauto.
    + apply IH. tauto.
Qed.

Lemma sorted_head_not_In (k : key) (ks : list key) :
  Forall (key_lt k) ks -> ~ In k ks.
Proof.
  intros Hall Hin. rewrite Forall_forall in Hall.
  exact (key_lt_irrefl k (Hall k Hin)).
Qed.

Lemma assoc_In (k : key) (rs : list row) (groups : list (key * list row)) :
  keys_sorted groups -> In (k, rs) groups <-> assoc k groups = Some rs.
Proof.
  unfold keys_sorted.
  induction groups as [|[k0 rs0] rest IH]; intros Hs; cbn [assoc].
  - simpl. split; [tauto|discriminate].
  - cbn [map fst] in Hs. apply StronglySorted_inv in Hs. destruct Hs as [Hs Hall].
    cbn [In]. destruct (key_eqb k k0) eqn:E.
    + apply key_eqb_eq in E. subst k0. split.
      * intros [H|H]; [congruence|].
        exfalso. apply (sorted_head_not_In k _ Hall).
        apply in_map_iff. exists (k, rs). split; [reflexivity|exact H].
      * intros H. left. congruence.
    + apply key_eqb_neq in E. rewrite <- (IH Hs).
      split; [intros [H|H]; [congruence|exact H]|tauto].
Qed.

Lemma assoc_add_row (k : key) (r : row) (groups : list (key * list row))
  (k' : key) :
  keys_sorted groups ->
  assoc k' (add_row k r groups)
  = if key_eqb k' k
    then Some (match assoc k groups with
               | Some rs => rs ++ [r]
               | None => [r]
               end)
    else assoc k' groups.
Proof.
  unfold keys_sorted.
  induction groups as [|[k0 rs] rest IH]; intros Hs; cbn [add_row].
  - cbn [assoc]. reflexivity.
  - cbn [map fst] in Hs. apply StronglySorted_inv in Hs. destruct Hs as [Hs Hall].
    destruct (key_compare k k0) eqn:E.
    + apply key_compare_eq in E. subst k0.
      cbn [assoc]. rewrite key_eqb_refl.
      destruct (key_eqb k' k); reflexivity.
    + assert (Hnone : assoc k ((k0, rs) :: rest) = None).
      { apply assoc_not_In. cbn [map fst]. apply sorted_head_not_In.
        constructor; [exact E|].
        eapply Forall_impl; [|exact Hall].
        intros a Ha. eapply key_lt_trans; [exact E|exact Ha]. }
      rewrite Hnone. cbn [assoc]. destruct (key_eqb k' k); reflexivity.
    + assert (Hne : key_eqb k k0 = false).
      { unfold key_eqb. rewrite E. reflexivity. }
      cbn [assoc]. rewrite Hne, (IH Hs).
      destruct (key_eqb k' k0) eqn:E0; [|reflexivity].
      apply key_eqb_eq in E0. subst k0.
      destruct (key_eqb k' k) eqn:E1; [|reflexivity].
      apply key_eqb_eq in E1. subst k'. rewrite key_eqb_refl in Hne. discriminate.
Qed.

Lemma rows_with_app (k : key) (p q : list row) :
  rows_with k (p ++ q) = rows_with k p ++ rows_with k q.
Proof. apply filter_app. Qed.

Lemma nonempty_snoc (rs : list row) (r : row) :
  Some (match nonempty rs with
        | Some rs' => rs' ++ [r]
        | None => [r]
        end) = nonempty (rs ++ [r]).
Proof. destruct rs as [|a rs]; reflexivity. Qed.

(** The invariant of the loop of [groupby]: the groups are sorted by key and
    the group of a key holds the rows seen so far that carry it. *)
Lemma groupby_fold (tmp seen : list row) (groups : list (key * list row)) :
  keys_sorted groups ->
  (forall k, assoc k groups = nonempty (rows_with k seen)) ->
  let groups' := fold_left (fun g r => add_row (key_of r) r g) tmp groups in
  keys_sorted groups' /\
  (forall k, assoc k groups' = nonempty (rows_with k (seen ++ tmp))).
Proof.
  revert seen groups. induction tmp as [|r tmp IH]; intros seen groups Hs Ha.
  - cbn [fold_left]. rewrite app_nil_r. split; assumption.
  - cbn [fold_left].
    replace (seen ++ r :: tmp) with ((seen ++ [r]) ++ tmp)
      by (rewrite <- app_assoc; reflexivity).
    apply IH.
    + apply add_row_sorted, Hs.
    + intros k. rewrite (assoc_add_row _ _ _ _ Hs), rows_with_app, Ha.
      unfold rows_with at 3. cbn [filter].
      destruct (key_eqb k (key_of r)) eqn:E.
      * apply key_eqb_eq in E. subst k. rewrite key_eqb_refl.
        apply nonempty_snoc.
      * assert (E' : key_eqb (key_of r) k = false).
        { apply key_eqb_neq. apply key_eqb_neq in E. congruence. }
        rewrite E', app_nil_r. apply Ha.
Qed.

Lemma groupby_sorted (tmp : list row) : keys_sorted (groupby tmp).
Proof.
  apply (groupby_fold tmp [] []); [constructor|reflexivity].
Qed.

(** The groups of [groupby]: one for every key that a row carries, holding
    the rows of that key in table order. *)
Lemma groupby_spec (tmp : list row) (k : key) (rs : list row) :
  In (k, rs) (groupby tmp) <-> rs = rows_with k tmp /\ rs <> [].
Proof.
  rewrite (assoc_In k rs _ (groupby_sorted tmp)).
  destruct (groupby_fold tmp [] []) as [_ Ha]; [constructor|reflexivity|].
  unfold groupby. rewrite Ha. cbn [app].
  destruct (rows_with k tmp) as [|a l]; cbn [nonempty].
  - split; [discriminate|]. intros [-> H]. congruence.
  - split; [intros H; inversion H; split; [reflexivity|discriminate]|].
    intros [-> _]. reflexivity.
Qed.

Lemma groupby_NoDup (tmp : list row) : NoDup (map fst (groupby tmp)).
Proof.
  pose proof (groupby_sorted tmp) as Hs. unfold keys_sorted in Hs.
  induction Hs as [|k ks Hs IH Hall]; constructor.
  - apply sorted_head_not_In, Hall.
  - exact IH.
Qed.

Lemma rows_with_In (k : key) (tmp : list row) (r : row) :
  In r (rows_with k tmp) <-> In r tmp /\ key_of r = k.
Proof. unfold rows_with. rewrite filter_In, key_eqb_eq. reflexivity. Qed.

(** Every row is in the group of its key. *)
Lemma groupby_row (tmp : list row) (r : row) :
  In r tmp -> In (key_of r, rows_with (key_of r) tmp) (groupby tmp).
Proof.
  intros Hin. apply groupby_spec. split; [reflexivity|].
  intros E. assert (H : In r (rows_with (key_of r) tmp))
    by (apply rows_with_In; tauto).
  rewrite E in H. exact H.
Qed.

(** ** [detect_timers] *)

Lemma comprehension_Ok {A B : Type} (f : A -> result B) (l : list A)
  (ys : list B) :
  comprehension f l = Ok ys -> Forall2 (fun x y => f x = Ok y) l ys.
Proof.
  revert ys. induction l as [|x l IH]; intros ys H; cbn [comprehension] in H.
  - inversion H. constructor.
  - destruct (f x) as [y|e] eqn:E; cbn [Py.bind] in H; [|discriminate].
    destruct (comprehension f l) as [ys'|e]; cbn [Py.bind] in H; [|discriminate].
    inversion H. subst. constructor; [exact E|]. apply IH. reflexivity.
Qed.


Lemma Forall2_In_r {A B : Type} (R : A -> B -> Prop) (l : list A)
  (l' : list B) (y : B) :
  Forall2 R l l' -> In y l' -> exists x, In x l /\ R x y.
Proof.
  induction 1 as [|a b l l' Hab _ IH]; intros Hin; [destruct Hin|].
  destruct Hin as [<-|Hin].
  - exists a. split; [left; reflexivity|exact Hab].
  - destruct (IH Hin) as (x & Hx & HR). exists x. split; [right|]; assumption.
Qed.

Lemma Forall2_In_l {A B : Type} (R : A -> B -> Prop) (l : list A)
  (l' : list B) (x : A) :
  Forall2 R l l' -> In x l -> exists y, In y l' /\ R x y.
Proof.
  induction 1 as [|a b l l' Hab _ IH]; intros Hin; [destruct Hin|].
  destruct Hin as [<-|Hin].
  - exists b. split; [left; reflexivity|exact Hab].
  - destruct (IH Hin) as (y & Hy & HR). exists y. split; [right|]; assumption.
Qed.

Lemma firstn_incl {A : Type} (n : nat) (l : list A) (x : A) :
  In x (firstn n l) -> In x l.
Proof.
  revert l. induction n as [|n IH]; intros [|a l] H; simpl in *; try tauto.
  destruct H as [H|H]; [left; exact H|right; apply IH, H].
Qed.

Lemma tmp_of_incl (segments : list row) (limit : option Z) (r : row) :
  In r (tmp_of segments limit) -> In r segments.
Proof.
  unfold tmp_of, head. destruct (py_not limit); [tauto|].
  destruct limit as [n|]; [|tauto].
  destruct (0 <=? n); apply firstn_incl.
Qed.

Lemma len_set_Z (l : list Z) : len (set_Z l) = distinct_ids l.
Proof. reflexivity. Qed.

(** [ts_check] raises on a [Timestamp], and on ints counts the distinct
    ones. *)
Lemma comprehension_int_ts (series : list timestamp) :
  comprehension int_ts series
  = if existsb is_Timestamp series then Raise TypeError
    else Ok (ints_of series).
Proof.
  induction series as [|ts series IH]; [reflexivity|].
  cbn [comprehension existsb ints_of map]. destruct ts as [ns|n]; cbn.
  - reflexivity.
  - rewrite IH. destruct (existsb is_Timestamp series); reflexivity.
Qed.

Lemma ts_check_spec (series : list timestamp) :
  ts_check series
  = if existsb is_Timestamp series then Raise TypeError
    else Ok (5 <=? distinct_ids (ints_of series)).
Proof.
  unfold ts_check. rewrite comprehension_int_ts.
  destruct (existsb is_Timestamp series); reflexivity.
Qed.

Lemma ts_check_Ok (series : list timestamp) (b : bool) :
  ts_check series = Ok b <->
  existsb is_Timestamp series = false
  /\ b = (5 <=? distinct_ids (ints_of series)).
Proof.
  rewrite ts_check_spec. destruct (existsb is_Timestamp series).
  - split; [discriminate|intros [H _]; discriminate].
  - split; [intros H; inversion H; tauto|intros [_ ->]; reflexivity].
Qed.

Lemma ts_check_Raise (series : list timestamp) (e : exn) :
  ts_check series = Raise e <->
  e = TypeError /\ existsb is_Timestamp series = true.
Proof.
  rewrite ts_check_spec. destruct (existsb is_Timestamp series).
  - split; [intros H; inversion H; tauto|intros [-> _]; reflexivity].
  - split; [discriminate|intros [_ H]; discriminate].
Qed.

Lemma existsb_is_Timestamp_false (series : list timestamp) :
  existsb is_Timestamp series = false <-> series = map Int (ints_of series).
Proof.
  induction series as [|ts series IH]; cbn [existsb ints_of map].
  - tauto.
  - destruct ts as [ns|n]; cbn [is_Timestamp orb instant].
    + split; discriminate.
    + rewrite IH. unfold ints_of.
      split; [intros <-; reflexivity|intros H; inversion H; congruence].
Qed.

Lemma ints_of_Int (ints : list Z) : ints_of (map Int ints) = ints.
Proof.
  unfold ints_of. rewrite map_map. cbn [instant]. apply map_id.
Qed.

Lemma existsb_is_Timestamp_Int (ints : list Z) :
  existsb is_Timestamp (map Int ints) = false.
Proof. apply existsb_is_Timestamp_false. rewrite ints_of_Int. reflexivity. Qed.

Section DetectTimers.

Context {order : DictOrder}.

(** The heuristics return on numerals. *)
Lemma is_decreasing_total (series : list string) :
  Forall (fun x => is_numeral x = true) series ->
  exists b, is_decreasing series = Ok b.
Proof.
  intros H.
  destruct (is_decreasing_of_diffs _ _ (differences_numerals _ H)) as (b & Hb & _).
  exists b. exact Hb.
Qed.

Lemma is_decreasing_mode_total (series : list string) :
  Forall (fun x => is_numeral x = true) series ->
  exists b, is_decreasing_mode series = Ok b.
Proof.
  intros H.
  destruct (is_decreasing_mode_of_diffs _ _ (differences_numerals _ H))
    as (b & Hb & _).
  exists b. exact Hb.
Qed.

(** What the row of a group holds. *)
Lemma agg_row_Ok (k : key) (rows : list row) (g : group_row) :
  agg_row (k, rows) = Ok g ->
  key_of_group g = k
  /\ is_decreasing (digits_of rows) = Ok (inner_digits_is_decreasing g)
  /\ is_decreasing_mode (digits_of rows) = Ok (inner_digits_is_decreasing_mode g)
  /\ ts_check (time_stamps_of rows) = Ok (time_stamp_ts_check g)
  /\ node_id_num_unique g = num_unique (node_ids_of rows)
  /\ site_url_first g = first_valid (site_urls_of rows).
Proof.
  destruct k as [[[v t] l] p]. unfold agg_row.
  destruct (ts_check (time_stamps_of rows)) as [c|e];
    cbn [Py.bind]; [|discriminate].
  destruct (is_decreasing (digits_of rows)) as [b|e];
    cbn [Py.bind]; [|discriminate].
  destruct (is_decreasing_mode (digits_of rows)) as [b'|e];
    cbn [Py.bind]; [|discriminate].
  intros H. inversion H. subst g. cbn. repeat split; reflexivity.
Qed.


(** A column whose aggregating function does not raise. *)
Lemma agg_column_pure {A B : Type} (col : list row -> list A)
  (h : list A -> B) (groups : list (key * list row)) :
  agg_column col (fun x => Ok (h x)) groups
  = Ok (map (fun group => h (col (snd group))) groups).
Proof.
  unfold agg_column. induction groups as [|group groups IH];
    cbn [comprehension map Py.bind]; [reflexivity|].
  rewrite IH. reflexivity.
Qed.

(** The columns of [agg] and the rows of the groups: the table is returned
    when every group has its row, and holds these rows. *)
Lemma columns_rows (groups : list (key * list row)) :
  match agg_column time_stamps_of ts_check groups,
        agg_column digits_of is_decreasing groups,
        agg_column digits_of is_decreasing_mode groups with
  | Ok time_stamp_, Ok is_dec, Ok is_dec_mode =>
      comprehension agg_row groups
      = Ok (reset_index groups
              (map (fun group => num_unique (node_ids_of (snd group))) groups)
              time_stamp_ is_dec is_dec_mode
              (map (fun group => first_valid (site_urls_of (snd group)))
                   groups))
  | _, _, _ => exists e, comprehension agg_row groups = Raise e
  end.
Proof.
  unfold agg_column.
  induction groups as [|[[[[v t] l] p] rows] groups IH];
    cbn [comprehension map snd]; [reflexivity|].
  cbn [agg_row].
  destruct (comprehension (fun group => ts_check (time_stamps_of (snd group)))
              groups) as [ts|e1];
    destruct (comprehension (fun group => is_decreasing (digits_of (snd group)))
                groups) as [ds|e2];
    destruct (comprehension
                (fun group => is_decreasing_mode (digits_of (snd group)))
                groups) as [ms|e3];
    destruct (ts_check (time_stamps_of rows)) as [c|e4];
    destruct (is_decreasing (digits_of rows)) as [b|e5];
    destruct (is_decreasing_mode (digits_of rows)) as [b'|e6];
    cbn [Py.bind reset_index];
    try (eexists; reflexivity);
    try (rewrite IH; reflexivity);
    try (destruct IH as [e ->]; cbn [Py.bind]; eexists; reflexivity).
Qed.

(** The two tables that [detect_timers] returns. *)
Lemma detect_timers_rows (segments : list row) (limit : option Z)
  (timers grouped : list group_row) :
  detect_timers segments limit = Ok (timers, grouped) <->
  timers = filter timer_mask grouped
  /\ comprehension agg_row (groupby (tmp_of segments limit)) = Ok grouped.
Proof.
  unfold detect_timers. cbv zeta. rewrite !agg_column_pure. cbn [Py.bind].
  pose proof (columns_rows (groupby (tmp_of segments limit))) as H.
  destruct (agg_column time_stamps_of ts_check
              (groupby (tmp_of segments limit))) as [ts|e1];
    cbn [Py.bind].
  2: { destruct H as [e H]. rewrite H.
       split; [discriminate|intros [_ H']; discriminate]. }
  destruct (agg_column digits_of is_decreasing
              (groupby (tmp_of segments limit))) as [ds|e2];
    cbn [Py.bind].
  2: { destruct H as [e H]. rewrite H.
       split; [discriminate|intros [_ H']; discriminate]. }
  destruct (agg_column digits_of is_decreasing_mode
              (groupby (tmp_of segments limit))) as [ms|e3];
    cbn [Py.bind].
  2: { destruct H as [e H]. rewrite H.
       split; [discriminate|intros [_ H']; discriminate]. }
  rewrite H. split.
  - intros E. inversion E. split; reflexivity.
  - intros [-> E]. inversion E. reflexivity.
Qed.

Lemma detect_timers_Ok (segments : list row) (limit : option Z)
  (timers grouped : list group_row) :
  detect_timers segments limit = Ok (timers, grouped) ->
  timers = filter timer_mask grouped
  /\ Forall2 (fun grp g => agg_row grp = Ok g)
             (groupby (tmp_of segments limit)) grouped.
Proof.
  intros H. apply detect_timers_rows in H. destruct H as [-> E].
  split; [reflexivity|]. apply comprehension_Ok, E.
Qed.


(** A row of [segments_grouped] is the aggregate of the rows of its key, in
    table order. *)
Lemma grouped_row_agg (segments : list row) (limit : option Z)
  (timers grouped : list group_row) (g : group_row) :
  detect_timers segments limit = Ok (timers, grouped) ->
  In g grouped ->
  let rows := rows_with (key_of_group g) (tmp_of segments limit) in
  rows <> [] /\ agg_row (key_of_group g, rows) = Ok g.
Proof.
  intros H Hin. apply detect_timers_Ok in H. destruct H as [_ HF].
  destruct (Forall2_In_r _ _ _ _ HF Hin) as ([k rows] & Hgrp & Hagg).
  pose proof (agg_row_Ok _ _ _ Hagg) as (Hk & _).
  apply groupby_spec in Hgrp. destruct Hgrp as [-> Hne].
  rewrite Hk. split; [exact Hne|exact Hagg].
Qed.

(** Every key that a row carries has its row in [segments_grouped], and
    only one. *)
Lemma grouped_row_of_key (segments : list row) (limit : option Z)
  (timers grouped : list group_row) (r : row) :
  detect_timers segments limit = Ok (timers, grouped) ->
  In r (tmp_of segments limit) ->
  exists g, In g grouped /\ key_of_group g = key_of r
            /\ forall g', In g' grouped -> key_of_group g' = key_of r -> g' = g.
Proof.
  intros H Hin. pose proof (detect_timers_Ok _ _ _ _ H) as [_ HF].
  destruct (Forall2_In_l _ _ _ _ HF (groupby_row _ _ Hin)) as (g & Hg & Hagg).
  pose proof (agg_row_Ok _ _ _ Hagg) as (Hk & _).
  exists g. split; [exact Hg|]. split; [exact Hk|].
  intros g' Hg' Hk'.
  destruct (grouped_row_agg _ _ _ _ _ H Hg') as [_ Hagg'].
  rewrite Hk' in Hagg'. congruence.
Qed.

Lemma timers_In (segments : list row) (limit : option Z)
  (timers grouped : list group_row) (g : group_row) :
  detect_timers segments limit = Ok (timers, grouped) ->
  In g timers <->
  In g grouped /\ inner_digits_is_decreasing g = true
  /\ inner_digits_is_decreasing_mode g = true
  /\ time_stamp_ts_check g = true.
Proof.
  intros H. apply detect_timers_Ok in H. destruct H as [-> _].
  rewrite filter_In. unfold timer_mask. rewrite !andb_true_iff. tauto.
Qed.

End DetectTimers.

Lemma preprocess_numerals (segments : list segment) :
  Forall (fun s => glob_has_digit (inner_text s) = true) segments ->
  Forall (fun r => is_numeral (inner_digits r) = true)
         (preprocess_segments segments).
Proof.
  intros H. unfold preprocess_segments. apply Forall_forall.
  intros r Hr. apply in_map_iff in Hr. destruct Hr as (s & <- & Hs).
  cbn. apply is_numeral_inner_digits.
  rewrite Forall_forall in H. apply H, Hs.
Qed.

Lemma with_text_columns_numerals (segments : list segment) :
  Forall (fun s => glob_has_digit (inner_text s) = true) segments ->
  Forall (fun r => is_numeral (inner_digits r) = true)
         (with_text_columns segments).
Proof.
  intros H. unfold with_text_columns. apply Forall_forall.
  intros r Hr. apply in_map_iff in Hr. destruct Hr as (s & <- & Hs).
  cbn. apply is_numeral_inner_digits.
  rewrite Forall_forall in H. apply H, Hs.
Qed.

(** After [pd.to_datetime] every time stamp is a [Timestamp]. *)
Lemma preprocess_Timestamps (segments : list segment) :
  Forall (fun r => is_Timestamp (time_stamp (raw r)) = true)
         (preprocess_segments segments).
Proof.
  unfold preprocess_segments. apply Forall_forall.
  intros r Hr. apply in_map_iff in Hr. destruct Hr as (s & <- & Hs).
  cbn. destruct (time_stamp s); reflexivity.
Qed.

Lemma distinct_ids_two (l : list Z) (a b : Z) :
  In a l -> In b l -> a <> b -> 2 <= distinct_ids l.
Proof.
  intros Ha Hb Hab. unfold distinct_ids.
  assert (H : (List.length [a; b] <= List.length (nodup Z.eq_dec l))%nat).
  { apply NoDup_incl_length.
    - constructor; [simpl; intuition congruence|].
      constructor; [simpl; tauto|constructor].
    - intros x [<-|[<-|[]]]; apply nodup_In; assumption. }
  simpl in H. lia.
Qed.

Lemma distinct_ids_at_most_two (l : list Z) (a b : Z) :
  (forall x, In x l -> x = a \/ x = b) -> distinct_ids l <= 2.
Proof.
  intros Hl. unfold distinct_ids.
  assert (H : (List.length (nodup Z.eq_dec l) <= List.length [a; b])%nat).
  { apply NoDup_incl_length; [apply NoDup_nodup|].
    intros x Hx. apply nodup_In in Hx. destruct (Hl x Hx) as [->| ->]; simpl; tauto. }
  simpl in H. lia.
Qed.

Section Claims.

Context {order : DictOrder}.


(** C9.  The groups are those of the four columns [visit_id], [top], [left]
    and [inner_processed], and of nothing else: two rows that agree on the
    four are in one group, whose row in [segments_grouped] carries the four
    values and is the only one to carry them; the group holds, in table
    order, the rows that agree with them on the four columns, and no row
    that differs in one of them; its [node_id] count is the number of
    distinct [node_id] values in it, 2 when the two rows differ in [node_id]
    and the group has no third one. *)
Theorem grouping_by_key (segments : list row) (limit : option Z)
  (timers grouped : list group_row) (r1 r2 : row) :
  detect_timers segments limit = Ok (timers, grouped) ->
  In r1 (tmp_of segments limit) ->
  In r2 (tmp_of segments limit) ->
  visit_id (raw r1) = visit_id (raw r2) ->
  top (raw r1) = top (raw r2) ->
  left (raw r1) = left (raw r2) ->
  inner_processed r1 = inner_processed r2 ->
  exists g,
    In g grouped
    /\ visit_id_ g = visit_id (raw r1)
    /\ top_ g = top (raw r1)
    /\ left_ g = left (raw r1)
    /\ inner_processed_ g = inner_processed r1
    /\ (forall g', In g' grouped ->
                   visit_id_ g' = visit_id (raw r1) ->
                   top_ g' = top (raw r1) ->
                   left_ g' = left (raw r1) ->
                   inner_processed_ g' = inner_processed r1 ->
                   g' = g)
    /\ (let rows :=
          filter (fun r => (visit_id (raw r) =? visit_id (raw r1))
                           && (top (raw r) =? top (raw r1))
                           && (left (raw r) =? left (raw r1))
                           && String.eqb (inner_processed r)
                                         (inner_processed r1))
                 (tmp_of segments limit) in
        In ((visit_id (raw r1), top (raw r1), left (raw r1),
             inner_processed r1), rows)
           (groupby (tmp_of segments limit))
        /\ In r1 rows /\ In r2 rows
        /\ (forall r, In r rows <->
                      In r (tmp_of segments limit)
                      /\ visit_id (raw r) = visit_id (raw r1)
                      /\ top (raw r) = top (raw r1)
                      /\ left (raw r) = left (raw r1)
                      /\ inner_processed r = inner_processed r1)
        /\ node_id_num_unique g = distinct_ids (node_ids_of rows)
        /\ (node_id (raw r1) <> node_id (raw r2) ->
            2 <= node_id_num_unique g)
        /\ (node_id (raw r1) <> node_id (raw r2) ->
            (forall r, In r rows ->
                       node_id (raw r) = node_id (raw r1)
                       \/ node_id (raw r) = node_id (raw r2)) ->
            node_id_num_unique g = 2)).
Proof.
  intros Hd H1 H2 Ev Et El Ep.
  assert (Hk : key_of r1 = key_of r2) by (unfold key_of; congruence).
  destruct (grouped_row_of_key _ _ _ _ _ Hd H1) as (g & Hg & Hkg & Huniq).
  exists g. split; [exact Hg|].
  assert (Hfields : forall g' : group_row,
             key_of_group g' = key_of r1 <->
             visit_id_ g' = visit_id (raw r1) /\ top_ g' = top (raw r1)
             /\ left_ g' = left (raw r1)
             /\ inner_processed_ g' = inner_processed r1).
  { intros g'. unfold key_of_group, key_of. split.
    - intros E. inversion E. tauto.
    - intros (-> & -> & -> & ->). reflexivity. }
  destruct (proj1 (Hfields g) Hkg) as (F1 & F2 & F3 & F4).
  split; [exact F1|]. split; [exact F2|]. split; [exact F3|].
  split; [exact F4|]. split.
  { intros g' Hg' G1 G2 G3 G4. apply Huniq; [exact Hg'|].
    apply Hfields. tauto. }
  assert (Hrows : filter (fun r => (visit_id (raw r) =? visit_id (raw r1))
                                   && (top (raw r) =? top (raw r1))
                                   && (left (raw r) =? left (raw r1))
                                   && String.eqb (inner_processed r)
                                                 (inner_processed r1))
                         (tmp_of segments limit)
                  = rows_with (key_of r1) (tmp_of segments limit)).
  { unfold rows_with. apply filter_ext. intros r.
    destruct (key_eqb (key_of r) (key_of r1)) eqn:E.
    - apply key_eqb_eq in E. unfold key_of in E. inversion E.
      rewrite !Z.eqb_refl, String.eqb_refl. reflexivity.
    - apply key_eqb_neq in E. rewrite !andb_false_iff.
      destruct (visit_id (raw r) =? visit_id (raw r1)) eqn:E1; [|tauto].
      destruct (top (raw r) =? top (raw r1)) eqn:E2; [|tauto].
      destruct (left (raw r) =? left (raw r1)) eqn:E3; [|tauto].
      destruct (String.eqb (inner_processed r) (inner_processed r1)) eqn:E4;
        [|tauto].
      exfalso. apply E. unfold key_of.
      apply Z.eqb_eq in E1, E2, E3. apply String.eqb_eq in E4. congruence. }
  rewrite Hrows. intros rows.
  assert (Hr1 : In r1 rows) by (apply rows_with_In; tauto).
  assert (Hr2 : In r2 rows) by (apply rows_with_In; split; [exact H2|congruence]).
  destruct (grouped_row_agg _ _ _ _ _ Hd Hg) as [_ Hagg].
  rewrite Hkg in Hagg. fold rows in Hagg.
  apply agg_row_Ok in Hagg. destruct Hagg as (_ & _ & _ & _ & Hn & _).
  unfold num_unique in Hn. rewrite len_set_Z in Hn.
  assert (Hi1 : In (node_id (raw r1)) (node_ids_of rows))
    by (apply in_map_iff; exists r1; tauto).
  assert (Hi2 : In (node_id (raw r2)) (node_ids_of rows))
    by (apply in_map_iff; exists r2; tauto).
  split; [apply (groupby_row _ _ H1)|].
  split; [exact Hr1|]. split; [exact Hr2|].
  split.
  { intros r. subst rows. rewrite rows_with_In. unfold key_of. split.
    - intros [Hin E]. inversion E. tauto.
    - intros (Hin & -> & -> & -> & ->). tauto. }
  split; [exact Hn|]. split.
  - intros Hne. rewrite Hn. exact (distinct_ids_two _ _ _ Hi1 Hi2 Hne).
  - intros Hne Hall. rewrite Hn.
    pose proof (distinct_ids_two _ _ _ Hi1 Hi2 Hne).
    assert (distinct_ids (node_ids_of rows) <= 2).
    { apply (distinct_ids_at_most_two _ (node_id (raw r1)) (node_id (raw r2))).
      intros x Hx. apply in_map_iff in Hx. destruct Hx as (r & <- & Hr).
      apply Hall, Hr. }
    lia.
Qed.

End Claims.

(** ** The time stamp gate *)

(** C7.  The gate applies [int] to the time stamps and counts the distinct
    results: no whole second is taken, although the docstring of [ts_check]
    speaks of 5 distinct seconds.  The six int time stamps of
    [table_three_seconds], six instants in three whole seconds, pass the
    gate, and their group is a confirmed timer; on the [Timestamp]s that
    [preprocess_segments] makes of them, [int] raises [TypeError], and
    [detect_timers] with it. *)
Theorem ts_check_counts_instants :
  let series := map time_stamp table_three_seconds in
  let g := group_of_results true true true in
  distinct_seconds series = 3
  /\ ts_check series = Ok true
  /\ @detect_timers insertion_order (with_text_columns table_three_seconds) None
     = Ok ([g], [g])
  /\ distinct_seconds (map to_datetime series) = 3
  /\ ts_check (map to_datetime series) = Raise TypeError
  /\ @detect_timers insertion_order (preprocess_segments table_three_seconds)
       None
     = Raise TypeError
  /\ (forall ints : list Z,
         ts_check (map Int ints) = Ok (5 <=? distinct_ids ints)).
Proof.
  intros series g.
  split; [vm_compute; reflexivity|]. split; [vm_compute; reflexivity|].
  split; [vm_compute; reflexivity|]. split; [vm_compute; reflexivity|].
  split; [vm_compute; reflexivity|]. split; [vm_compute; reflexivity|].
  intros ints.
  rewrite ts_check_spec, existsb_is_Timestamp_Int, ints_of_Int. reflexivity.
Qed.

(** ** The two heuristics compared *)

Section Comparison.

Context {order : DictOrder}.

(** C4, amended.  [is_decreasing_mode] accepts with [nNeg >= 5] and either
    no positive diff or more negative diffs than positive ones; under it,
    [is_decreasing] accepts exactly when there is no positive diff or
    [nNeg / nPos > 5], and so it does whenever there is no positive diff. *)
Theorem is_decreasing_mode_implies (s : list string) :
  is_decreasing_mode s = Ok true ->
  exists ds,
    differences s = Ok ds
    /\ 5 <= Spec.nNeg ds
    /\ (Spec.nPos ds = 0 \/ Spec.nPos ds < Spec.nNeg ds)
    /\ (is_decreasing s = Ok true
        <-> Spec.nPos ds = 0 \/ 5 * Spec.nPos ds < Spec.nNeg ds)
    /\ (Spec.nPos ds = 0 -> is_decreasing s = Ok true).
Proof.
  intros H. destruct (differences s) as [ds|e] eqn:Hd.
  - exists ds. split; [reflexivity|].
    destruct (is_decreasing_mode_of_diffs s ds Hd) as (b & Hb & Hiff).
    assert (b = true) by congruence. subst b.
    destruct (proj1 Hiff eq_refl) as (_ & Hn & Hcase).
    destruct (is_decreasing_of_diffs s ds Hd) as (b & Hb' & Hiff').
    split; [exact Hn|]. split; [tauto|]. split.
    + rewrite Hb'. split.
      * intros E. assert (b = true) by congruence. tauto.
      * intros E. f_equal. tauto.
    + intros E. rewrite Hb'. f_equal. tauto.
  - unfold is_decreasing_mode in H. rewrite Hd in H. discriminate.
Qed.

(** Six steps down and two up pass the mode test in every dictionary order:
    the mode, -1, is the only one. *)
Lemma down_6_up_2_mode : is_decreasing_mode down_6_up_2 = Ok true.
Proof.
  assert (Hd : differences down_6_up_2 = Ok [-1; -1; -1; -1; -1; -1; 1; 1])
    by reflexivity.
  destruct (is_decreasing_mode_of_diffs _ _ Hd) as (b & Hb & Hiff).
  rewrite Hb. f_equal. apply Hiff.
  split; [vm_compute; discriminate|]. split; [vm_compute; discriminate|].
  right. split; [|split; vm_compute; [discriminate|reflexivity]].
  destruct (most_common_mode [-1; -1; -1; -1; -1; -1; 1; 1]) as (m & Hm & Hmode);
    [discriminate|].
  exists m. split; [exact Hm|]. split; [exact Hmode|].
  destruct Hmode as [Hin Hmax]. simpl in Hin.
  destruct Hin as [<-|[<-|[<-|[<-|[<-|[<-|[<-|[<-|[]]]]]]]]]; try lia;
    specialize (Hmax (-1)); vm_compute in Hmax; exfalso; apply Hmax; reflexivity.
Qed.

(** Where two values tie for the mode, one positive and one negative, the
    answer of the mode test follows the dictionary order. *)
Lemma mode_tie_follows_dict_order :
  differences two_modes = Ok [-1; -1; -1; -1; -1; -2; 1; 1; 1; 1; 1]
  /\ @is_decreasing_mode insertion_order two_modes = Ok true
  /\ @is_decreasing_mode reverse_insertion_order two_modes = Ok false.
Proof. repeat split; vm_compute; reflexivity. Qed.

(** A sequence of two elements or more with an empty string makes both
    heuristics raise. *)
Lemma classification_empty_string_raises (s : list string) :
  (2 <= List.length s)%nat -> In "" s ->
  is_decreasing s = Raise ValueError
  /\ is_decreasing_mode s = Raise ValueError.
Proof.
  intros Hl Hin. unfold is_decreasing, is_decreasing_mode.
  rewrite (differences_empty_string s Hl Hin). split; reflexivity.
Qed.

(** C5, amended.  The segment query keeps the texts with a digit, whose
    [inner_digits] is a numeral, never the empty string; on numerals the
    two heuristics return without raising; and a sequence of fewer than two
    elements is answered [False] before any string is read, empty or
    not. *)
Theorem classification_returns :
  (forall text : string,
      glob_has_digit text = true -> is_numeral (inner_digits_of text) = true)
  /\ (forall s : list string,
         Forall (fun x => is_numeral x = true) s ->
         exists b b', is_decreasing s = Ok b /\ is_decreasing_mode s = Ok b')
  /\ (forall s : list string,
         (List.length s < 2)%nat ->
         is_decreasing s = Ok false /\ is_decreasing_mode s = Ok false).
Proof.
  split; [exact is_numeral_inner_digits|]. split.
  - intros s Hs.
    destruct (is_decreasing_total s Hs) as [b Hb].
    destruct (is_decreasing_mode_total s Hs) as [b' Hb'].
    exists b, b'. tauto.
  - intros s Hl. unfold is_decreasing, is_decreasing_mode.
    rewrite (differences_short s Hl). split; reflexivity.
Qed.

End Comparison.

(** ** The order of the rows *)

Lemma sorted_groups_ext (g1 g2 : list (key * list row)) :
  keys_sorted g1 -> keys_sorted g2 ->
  (forall x, In x g1 <-> In x g2) -> g1 = g2.
Proof.
  unfold keys_sorted. revert g2.
  induction g1 as [|[k1 rs1] t1 IH]; intros [|[k2 rs2] t2] H1 H2 Hext.
  - reflexivity.
  - exfalso. apply (proj2 (Hext (k2, rs2))). left. reflexivity.
  - exfalso. apply (proj1 (Hext (k1, rs1))). left. reflexivity.
  - cbn [map fst] in H1, H2.
    apply StronglySorted_inv in H1. destruct H1 as [H1 Hall1].
    apply StronglySorted_inv in H2. destruct H2 as [H2 Hall2].
    rewrite Forall_forall in Hall1, Hall2.
    assert (Hlt1 : forall x, In x t1 -> key_lt k1 (fst x))
      by (intros x Hx; apply Hall1, in_map, Hx).
    assert (Hlt2 : forall x, In x t2 -> key_lt k2 (fst x))
      by (intros x Hx; apply Hall2, in_map, Hx).
    assert (Hhd : (k1, rs1) = (k2, rs2)).
    { destruct (proj1 (Hext (k1, rs1)) (or_introl eq_refl)) as [E|Hin1];
        [symmetry; exact E|].
      destruct (proj2 (Hext (k2, rs2)) (or_introl eq_refl)) as [E|Hin2];
        [exact E|].
      exfalso. apply (key_lt_irrefl k1).
      eapply key_lt_trans; [apply (Hlt1 _ Hin2)|apply (Hlt2 _ Hin1)]. }
    inversion Hhd. subst k2 rs2. f_equal.
    apply IH; [exact H1|exact H2|].
    intros x. split; intros Hx.
    + destruct (proj1 (Hext x) (or_intror Hx)) as [E|Hin]; [|exact Hin].
      subst x. exfalso. exact (key_lt_irrefl k1 (Hlt1 _ Hx)).
    + destruct (proj2 (Hext x) (or_intror Hx)) as [E|Hin]; [|exact Hin].
      subst x. exfalso. exact (key_lt_irrefl k1 (Hlt2 _ Hx)).
Qed.

(** Two tables with the same rows for every key, in the same order, have the
    same groups. *)
Lemma groupby_ext (tmp tmp' : list row) :
  (forall k, rows_with k tmp = rows_with k tmp') -> groupby tmp = groupby tmp'.
Proof.
  intros H. apply sorted_groups_ext; try apply groupby_sorted.
  intros [k rs]. rewrite !groupby_spec, H. reflexivity.
Qed.

Section RowOrder.

Context {order : DictOrder}.

(** C6, amended.  No sort by [time_stamp] takes place: the digit sequence of
    a group is made of the rows of its key in the order of the table, and
    the two heuristics are computed on it.  The result of [detect_timers]
    therefore depends on the order of the rows inside each group, and on
    nothing else of the order of the table: two tables that hold, for
    every key, the same rows in the same order give the same result. *)
Theorem classification_in_table_order :
  (forall (segments : list row) (limit : option Z)
          (timers grouped : list group_row) (g : group_row),
      detect_timers segments limit = Ok (timers, grouped) ->
      In g grouped ->
      let rows := rows_with (key_of_group g) (tmp_of segments limit) in
      is_decreasing (digits_of rows) = Ok (inner_digits_is_decreasing g)
      /\ is_decreasing_mode (digits_of rows)
         = Ok (inner_digits_is_decreasing_mode g))
  /\ (forall (segments segments' : list row) (limit limit' : option Z),
         (forall k, rows_with k (tmp_of segments limit)
                    = rows_with k (tmp_of segments' limit')) ->
         detect_timers segments limit = detect_timers segments' limit').
Proof.
  split.
  - intros segments limit timers grouped g Hd Hg rows.
    destruct (grouped_row_agg _ _ _ _ _ Hd Hg) as [_ Hagg].
    apply agg_row_Ok in Hagg. tauto.
  - intros segments segments' limit limit' H.
    unfold detect_timers. cbv zeta.
    rewrite (groupby_ext _ _ H). reflexivity.
Qed.

End RowOrder.

(** ** The theorems at work on the sample inputs *)


Lemma grouping_by_key_witness :
  let segments := with_text_columns table_two_nodes in
  let r1 := row_of_node 7 "Ends in 10 s" "10" (Int 1000000000) in
  let r2 := row_of_node 8 "Ends in 9 s" "9" (Int 2000000000) in
  exists timers grouped,
    @detect_timers insertion_order segments None = Ok (timers, grouped)
    /\ In r1 (tmp_of segments None) /\ In r2 (tmp_of segments None)
    /\ visit_id (raw r1) = visit_id (raw r2)
    /\ top (raw r1) = top (raw r2)
    /\ left (raw r1) = left (raw r2)
    /\ inner_processed r1 = inner_processed r2
    /\ node_id (raw r1) <> node_id (raw r2)
    /\ exists g, In g grouped
                 /\ visit_id_ g = 41 /\ top_ g = 145 /\ left_ g = 290
                 /\ inner_processed_ g = "Ends in DPNUM s"
                 /\ node_id_num_unique g = 2.
Proof.
  intros segments r1 r2.
  destruct (@detect_timers insertion_order segments None)
    as [[timers grouped]|e] eqn:Hd; [|vm_compute in Hd; discriminate].
  exists timers, grouped.
  assert (H1 : In r1 (tmp_of segments None)) by (left; reflexivity).
  assert (H2 : In r2 (tmp_of segments None)) by (right; left; reflexivity).
  assert (Ev : visit_id (raw r1) = visit_id (raw r2)) by reflexivity.
  assert (Et : top (raw r1) = top (raw r2)) by reflexivity.
  assert (El : left (raw r1) = left (raw r2)) by reflexivity.
  assert (Ep : inner_processed r1 = inner_processed r2) by reflexivity.
  assert (Hne : node_id (raw r1) <> node_id (raw r2)) by (vm_compute; discriminate).
  split; [reflexivity|]. split; [exact H1|]. split; [exact H2|].
  split; [exact Ev|]. split; [exact Et|]. split; [exact El|].
  split; [exact Ep|]. split; [exact Hne|].
  destruct (@grouping_by_key insertion_order segments None timers grouped
              r1 r2 Hd H1 H2 Ev Et El Ep)
    as (g & Hg & F1 & F2 & F3 & F4 & _ & _ & _ & _ & _ & _ & _ & Htwo).
  exists g. split; [exact Hg|]. split; [exact F1|]. split; [exact F2|].
  split; [exact F3|]. split; [exact F4|].
  apply Htwo; [exact Hne|].
  intros r Hr. vm_compute in Hr.
  destruct Hr as [<-|[<-|[]]]; [left|right]; reflexivity.
Defined.

(** C4 fails: six steps down and two up pass the mode test, with 6 negative
    diffs against 2, and fail the ratio test, 6 / 2 being no more than 5. *)
Lemma mode_accepts_ratio_rejects :
  @is_decreasing_mode insertion_order down_6_up_2 = Ok true
  /\ is_decreasing down_6_up_2 = Ok false.
Proof. split; vm_compute; reflexivity. Qed.

Lemma is_decreasing_mode_implies_witness :
  @is_decreasing_mode insertion_order countdown = Ok true
  /\ exists ds,
       differences countdown = Ok ds
       /\ 5 <= Spec.nNeg ds
       /\ (Spec.nPos ds = 0 \/ Spec.nPos ds < Spec.nNeg ds)
       /\ (is_decreasing countdown = Ok true
           <-> Spec.nPos ds = 0 \/ 5 * Spec.nPos ds < Spec.nNeg ds)
       /\ (Spec.nPos ds = 0 -> is_decreasing countdown = Ok true).
Proof.
  assert (H : @is_decreasing_mode insertion_order countdown = Ok true)
    by (vm_compute; reflexivity).
  split; [exact H|].
  exact (@is_decreasing_mode_implies insertion_order countdown H).
Defined.

(** C5 fails: a text without digit has the empty string for
    [inner_digits], and a group of two such observations makes both
    heuristics, and [detect_timers] with them on a table of int time
    stamps, raise [ValueError]. *)
Lemma empty_digits_raise :
  map inner_digits (preprocess_segments table_no_digit) = [""; ""]
  /\ is_decreasing [""; ""] = Raise ValueError
  /\ @is_decreasing_mode insertion_order [""; ""] = Raise ValueError
  /\ digits_of (with_text_columns table_no_digit) = [""; ""]
  /\ @detect_timers insertion_order (with_text_columns table_no_digit) None
     = Raise ValueError.
Proof. repeat split; vm_compute; reflexivity. Qed.

Lemma classification_returns_witness :
  (glob_has_digit "Ends in 10 s" = true
   /\ is_numeral (inner_digits_of "Ends in 10 s") = true)
  /\ (Forall (fun x => is_numeral x = true) countdown
      /\ exists b b', is_decreasing countdown = Ok b
                      /\ @is_decreasing_mode insertion_order countdown = Ok b')
  /\ ((List.length [""] < 2)%nat
      /\ is_decreasing [""] = Ok false
      /\ @is_decreasing_mode insertion_order [""] = Ok false).
Proof.
  pose proof (@classification_returns insertion_order) as (T1 & T2 & T4).
  assert (H1 : glob_has_digit "Ends in 10 s" = true) by reflexivity.
  assert (H2 : Forall (fun x => is_numeral x = true) countdown)
    by (repeat constructor).
  assert (H4 : (List.length [""] < 2)%nat) by (simpl; lia).
  split; [split; [exact H1|exact (T1 _ H1)]|].
  split; [split; [exact H2|exact (T2 _ H2)]|].
  split; [exact H4|exact (T4 _ H4)].
Defined.

(** C6 fails: [table_in_time_order] is in ascending order of time stamp and
    its group is a confirmed timer; the same rows, arriving the latest
    first, make a group that neither heuristic accepts. *)
Lemma arrival_order_matters :
  Permutation table_in_time_order table_latest_first
  /\ StronglySorted Z.lt
       (map (fun s => instant (time_stamp s)) table_in_time_order)
  /\ @detect_timers insertion_order
       (with_text_columns table_in_time_order) None
     = Ok ([group_of_results true true true], [group_of_results true true true])
  /\ @detect_timers insertion_order
       (with_text_columns table_latest_first) None
     = Ok ([], [group_of_results false false true]).
Proof.
  split; [apply Permutation_rev|].
  split; [vm_compute; repeat constructor|].
  split; vm_compute; reflexivity.
Qed.

Lemma classification_in_table_order_witness :
  let segments := with_text_columns table_latest_first in
  let g := group_of_results false false true in
  (@detect_timers insertion_order segments None = Ok ([], [g])
   /\ In g [g]
   /\ is_decreasing
        (digits_of (rows_with (key_of_group g) (tmp_of segments None)))
      = Ok false)
  /\ ((forall k, rows_with k (tmp_of (with_text_columns table_two_places) None)
                 = rows_with k (tmp_of (with_text_columns
                                          table_two_places_apart) None))
      /\ @detect_timers insertion_order
           (with_text_columns table_two_places) None
         = @detect_timers insertion_order
             (with_text_columns table_two_places_apart) None).
Proof.
  intros segments g.
  pose proof (@classification_in_table_order insertion_order) as [T1 T2].
  assert (Hd : @detect_timers insertion_order segments None = Ok ([], [g]))
    by (vm_compute; reflexivity).
  assert (Hg : In g [g]) by (left; reflexivity).
  assert (Hk : forall k,
             rows_with k (tmp_of (with_text_columns table_two_places) None)
             = rows_with k (tmp_of (with_text_columns
                                      table_two_places_apart) None)).
  { intros k. unfold rows_with. cbn [tmp_of py_not].
    unfold table_two_places, table_two_places_apart.
    cbn [with_text_columns map filter].
    repeat match goal with
           | |- context [key_eqb ?a k] =>
               let E := fresh "E" in
               destruct (key_eqb a k) eqn:E;
               try (apply key_eqb_eq in E; subst k)
           end;
    try reflexivity; try discriminate. }
  split.
  - split; [exact Hd|]. split; [exact Hg|].
    exact (proj1 (T1 segments None [] [g] g Hd Hg)).
  - split; [exact Hk|]. exact (T2 _ _ None None Hk).
Defined.

(** * Further properties of the notebook *)

(** ** Preprocessing *)

Lemma string_of_list_ascii_app (l1 l2 : list ascii) :
  string_of_list_ascii (l1 ++ l2)
  = String.append (string_of_list_ascii l1) (string_of_list_ascii l2).
Proof.
  induction l1 as [|c l1 IH]; [reflexivity|]. simpl. rewrite IH. reflexivity.
Qed.

Lemma list_ascii_of_string_app (x y : string) :
  list_ascii_of_string (String.append x y)
  = list_ascii_of_string x ++ list_ascii_of_string y.
Proof.
  induction x as [|c x IH]; [reflexivity|]. simpl. rewrite IH. reflexivity.
Qed.

Lemma inner_digits_filter (x : string) :
  inner_digits_of x
  = string_of_list_ascii (filter is_digit (list_ascii_of_string x)).
Proof. apply sub_runs_nondigit. Qed.

Lemma filter_all_digits (x : string) :
  all_digits x = true ->
  filter is_digit (list_ascii_of_string x) = list_ascii_of_string x.
Proof.
  induction x as [|c x IH]; intros H; simpl in *; [reflexivity|].
  apply andb_true_iff in H. destruct H as [Hc Hx]. rewrite Hc, (IH Hx).
  reflexivity.
Qed.

(** [inner_digits] is made of the digits of the text, in their order: it
    distributes over concatenation, leaves a string of digits as it is, and
    applying it twice is applying it once. *)
Theorem inner_digits_of_app :
  (forall x y : string,
      inner_digits_of (String.append x y)
      = String.append (inner_digits_of x) (inner_digits_of y))
  /\ (forall x : string, all_digits x = true <-> inner_digits_of x = x)
  /\ (forall x : string,
         inner_digits_of (inner_digits_of x) = inner_digits_of x).
Proof.
  assert (Hfix : forall x, all_digits x = true -> inner_digits_of x = x).
  { intros x H. rewrite inner_digits_filter, (filter_all_digits x H).
    apply string_of_list_ascii_of_string. }
  split; [|split].
  - intros x y. rewrite !inner_digits_filter, list_ascii_of_string_app,
      filter_app. apply string_of_list_ascii_app.
  - intros x. split; [apply Hfix|].
    intros E. rewrite <- E. apply all_digits_inner_digits.
  - intros x. apply Hfix, all_digits_inner_digits.
Qed.

Lemma no_digit_glob (x : string) : no_digit x = negb (glob_has_digit x).
Proof.
  induction x as [|c x IH]; [reflexivity|]. simpl. rewrite IH.
  destruct (is_digit c); reflexivity.
Qed.

(** The template holds no digit, so its own [inner_digits] is empty; and the
    templating leaves a text as it is exactly when the text has no digit. *)
Theorem inner_processed_no_digit (x : string) :
  glob_has_digit (inner_processed_of x) = false
  /\ inner_digits_of (inner_processed_of x) = ""
  /\ (inner_processed_of x = x <-> glob_has_digit x = false).
Proof.
  assert (H : glob_has_digit (inner_processed_of x) = false).
  { pose proof (no_digit_sub_runs false x) as Hn.
    rewrite no_digit_glob in Hn. apply negb_true_iff in Hn. exact Hn. }
  split; [exact H|]. split; [apply inner_digits_empty, H|].
  split.
  - intros E. rewrite <- E. exact H.
  - intros Hx. apply sub_runs_no_digit. rewrite no_digit_glob, Hx. reflexivity.
Qed.

Lemma sub_runs_digit_run (repl : string) (in_run : bool) (d rest : string) :
  is_numeral d = true ->
  sub_runs is_digit repl in_run (String.append d rest)
  = String.append (if in_run then "" else repl) (sub_runs is_digit repl true rest).
Proof.
  unfold is_numeral. destruct d as [|c d]; [discriminate|].
  revert c in_run. induction d as [|c' d IH]; intros c in_run H.
  - simpl in H. rewrite andb_true_r in H. simpl. rewrite H.
    destruct in_run; reflexivity.
  - cbn [all_digits] in H. apply andb_true_iff in H. destruct H as [Hc Hd].
    change (String.append (String c (String c' d)) rest)
      with (String c (String.append (String c' d) rest)).
    cbn [sub_runs]. rewrite Hc.
    rewrite (IH c' true Hd). destruct in_run; reflexivity.
Qed.

Lemma sub_runs_digit_run_inside (repl : string) (in_run : bool)
  (a d d' b : string) :
  is_numeral d = true -> is_numeral d' = true ->
  sub_runs is_digit repl in_run (String.append a (String.append d b))
  = sub_runs is_digit repl in_run (String.append a (String.append d' b)).
Proof.
  intros Hd Hd'. revert in_run. induction a as [|c a IH]; intros in_run.
  - cbn [String.append]. rewrite !sub_runs_digit_run by assumption. reflexivity.
  - cbn [String.append sub_runs]. destruct (is_digit c).
    + destruct in_run; rewrite IH; reflexivity.
    + rewrite IH. reflexivity.
Qed.

(** The template does not see the digits: a text in which a run of digits is
    replaced by another run of digits keeps its template.  A counter that
    goes from 10 to 9 stays in its group. *)
Theorem inner_processed_digit_run (a d d' b : string) :
  is_numeral d = true -> is_numeral d' = true ->
  inner_processed_of (String.append a (String.append d b))
  = inner_processed_of (String.append a (String.append d' b)).
Proof.
  intros Hd Hd'. unfold inner_processed_of, re_sub_runs.
  apply sub_runs_digit_run_inside; assumption.
Qed.

Lemma inner_processed_digit_run_witness :
  is_numeral "10" = true /\ is_numeral "9" = true
  /\ inner_processed_of (String.append "Ends in " (String.append "10" " s"))
     = inner_processed_of (String.append "Ends in " (String.append "9" " s")).
Proof.
  assert (H1 : is_numeral "10" = true) by reflexivity.
  assert (H2 : is_numeral "9" = true) by reflexivity.
  split; [exact H1|]. split; [exact H2|].
  exact (inner_processed_digit_run "Ends in " "10" "9" " s" H1 H2).
Defined.

(** ** [differences] *)

Lemma diffs_sum (vs : list Z) :
  vs <> [] -> sum_Z (Spec.diffs vs) = last vs 0 - hd 0 vs.
Proof.
  induction vs as [|a l IH]; intros Hne; [congruence|].
  destruct l as [|b l].
  - simpl. lia.
  - change (Spec.diffs (a :: b :: l)) with ((b - a) :: Spec.diffs (b :: l)).
    change (last (a :: b :: l) 0) with (last (b :: l) 0).
    cbn [sum_Z fold_right hd]. fold (sum_Z (Spec.diffs (b :: l))).
    rewrite IH by discriminate. cbn [hd]. lia.
Qed.

Lemma last_map_value (s : list string) :
  last (map Spec.value s) 0 = Spec.value (last s "").
Proof.
  induction s as [|a l IH]; [reflexivity|].
  destruct l as [|b l]; [reflexivity|].
  change (last (map Spec.value (a :: b :: l)) 0)
    with (last (map Spec.value (b :: l)) 0).
  rewrite IH. reflexivity.
Qed.

(** The differences of a sequence of numerals are one fewer than its
    elements and add up to the last value minus the first. *)
Theorem differences_telescope (series : list string) :
  Forall (fun x => is_numeral x = true) series ->
  series <> [] ->
  exists diffs,
    differences series = Ok diffs
    /\ S (List.length diffs) = List.length series
    /\ sum_Z diffs = Spec.value (last series "") - Spec.value (hd "" series).
Proof.
  intros Hs Hne. exists (Spec.diffs_of series).
  split; [apply differences_numerals, Hs|]. unfold Spec.diffs_of. split.
  - rewrite diffs_length, length_map.
    destruct series; [congruence|reflexivity].
  - rewrite diffs_sum by (destruct series; [congruence|discriminate]).
    rewrite last_map_value. destruct series; [congruence|reflexivity].
Qed.

Lemma differences_telescope_witness :
  Forall (fun x => is_numeral x = true) down_6_up_2
  /\ down_6_up_2 <> []
  /\ exists diffs,
       differences down_6_up_2 = Ok diffs
       /\ S (List.length diffs) = List.length down_6_up_2
       /\ sum_Z diffs
          = Spec.value (last down_6_up_2 "") - Spec.value (hd "" down_6_up_2).
Proof.
  assert (Hs : Forall (fun x => is_numeral x = true) down_6_up_2)
    by (repeat constructor).
  assert (Hne : down_6_up_2 <> []) by discriminate.
  split; [exact Hs|]. split; [exact Hne|].
  exact (differences_telescope down_6_up_2 Hs Hne).
Defined.

(** [differences] raises nothing but [ValueError]. *)
Lemma differences_raises_ValueError (series : list string) (e : exn) :
  differences series = Raise e -> e = ValueError.
Proof.
  induction series as [|a l IH]; [discriminate|].
  destruct l as [|b l]; [discriminate|].
  rewrite differences_cons.
  destruct (py_int b) as [vj|e1] eqn:Eb; cbn [Py.bind].
  - destruct (py_int a) as [vi|e2] eqn:Ea; cbn [Py.bind].
    + destruct (differences (b :: l)) as [ds|e3]; cbn [Py.bind].
      * discriminate.
      * intros H. apply IH. congruence.
    + intros H. inversion H. subst. eapply py_int_raises, Ea.
  - intros H. inversion H. subst. eapply py_int_raises, Eb.
Qed.

Lemma numerals_of_all_digits (series : list string) :
  Forall (fun x => all_digits x = true) series ->
  ~ In "" series ->
  Forall (fun x => is_numeral x = true) series.
Proof.
  intros Hs Hn. apply Forall_forall. intros x Hx.
  rewrite Forall_forall in Hs. unfold is_numeral.
  destruct x as [|c x]; [tauto|]. apply Hs, Hx.
Qed.

(** On strings of digits, the values of [inner_digits], [differences]
    raises exactly when the sequence has two elements or more and one of
    them is empty, and what it raises is [ValueError]. *)
Theorem differences_raises_iff (series : list string) (e : exn) :
  Forall (fun x => all_digits x = true) series ->
  differences series = Raise e
  <-> e = ValueError /\ (2 <= List.length series)%nat /\ In "" series.
Proof.
  intros Hs. split.
  - intros H. split; [eapply differences_raises_ValueError, H|].
    destruct (le_lt_dec 2 (List.length series)) as [Hl|Hl].
    + split; [exact Hl|].
      destruct (in_dec string_dec "" series) as [Hin|Hn]; [exact Hin|].
      rewrite (differences_numerals _ (numerals_of_all_digits _ Hs Hn)) in H.
      discriminate.
    + rewrite (differences_short _ Hl) in H. discriminate.
  - intros (-> & Hl & Hin). apply differences_empty_string; assumption.
Qed.

Lemma differences_raises_iff_witness :
  Forall (fun x => all_digits x = true) ["12"; ""; "10"]
  /\ (differences ["12"; ""; "10"] = Raise ValueError
      <-> ValueError = ValueError
          /\ (2 <= List.length ["12"; ""; "10"])%nat
          /\ In "" ["12"; ""; "10"]).
Proof.
  assert (Hs : Forall (fun x => all_digits x = true) ["12"; ""; "10"])
    by (repeat constructor).
  split; [exact Hs|].
  exact (differences_raises_iff ["12"; ""; "10"] ValueError Hs).
Defined.

Lemma differences_length (series : list string) (diffs : list Z) :
  differences series = Ok diffs ->
  List.length diffs = Nat.pred (List.length series).
Proof.
  revert diffs. induction series as [|a l IH]; intros diffs H.
  - inversion H. reflexivity.
  - destruct l as [|b l].
    + inversion H. reflexivity.
    + rewrite differences_cons in H.
      destruct (py_int b); cbn [Py.bind] in H; [|discriminate].
      destruct (py_int a); cbn [Py.bind] in H; [|discriminate].
      destruct (differences (b :: l)) as [ds|]; cbn [Py.bind] in H;
        [|discriminate].
      inversion H. subst. cbn [List.length]. rewrite (IH ds eq_refl).
      reflexivity.
Qed.

(** ** [most_common], [most_common_neg], [num_most_common_neg] *)

Lemma count_nonneg (x : Z) (l : list Z) : 0 <= count x l.
Proof. apply len_nonneg. Qed.

Lemma count_le_len (x : Z) (l : list Z) : count x l <= len l.
Proof.
  rewrite count_occurrences. unfold Spec.occurrences, len.
  pose proof (count_occ_bound Z.eq_dec x l). lia.
Qed.

Lemma count_pos_In (x : Z) (l : list Z) : In x l <-> 0 < count x l.
Proof. rewrite count_occurrences. apply occurrences_pos. Qed.

Section ModeFunctions.

Context {order : DictOrder}.

(** [most_common] answers [None] on the empty list and nowhere else; on
    any other list it returns, without raising, an element that no value
    outnumbers; and where one value outnumbers every other, that value is
    the answer in every dictionary order. *)
Theorem most_common_spec (diffs : list Z) :
  (most_common diffs = Ok None <-> diffs = [])
  /\ (diffs <> [] ->
      exists m, most_common diffs = Ok (Some m)
                /\ In m diffs
                /\ forall x, count x diffs <= count m diffs)
  /\ (forall m, In m diffs ->
                (forall x, x <> m -> count x diffs < count m diffs) ->
                most_common diffs = Ok (Some m)).
Proof.
  assert (Hmode : diffs <> [] ->
                  exists m, most_common diffs = Ok (Some m)
                            /\ In m diffs
                            /\ forall x, count x diffs <= count m diffs).
  { intros Hne. destruct (most_common_mode diffs Hne) as (m & Hm & Hin & Hmax).
    exists m. split; [exact Hm|]. split; [exact Hin|].
    intros x. rewrite !count_occurrences. apply Hmax. }
  split; [|split; [exact Hmode|]].
  - split.
    + intros H. destruct diffs as [|d ds]; [reflexivity|].
      destruct Hmode as (m & Hm & _); [discriminate|]. congruence.
    + intros ->. reflexivity.
  - intros m Hin Hstrict.
    destruct Hmode as (m' & Hm' & _ & Hmax); [intros ->; destruct Hin|].
    destruct (Z.eq_dec m' m) as [->|Hne]; [exact Hm'|].
    pose proof (Hstrict m' Hne). pose proof (Hmax m). lia.
Qed.

(** [most_common_neg] answers [None] exactly when no element is negative;
    otherwise it returns, without raising, a negative element that no
    negative value outnumbers. *)
Theorem most_common_neg_spec (diffs : list Z) :
  (most_common_neg diffs = Ok None <-> forall x, In x diffs -> 0 <= x)
  /\ ((exists x, In x diffs /\ x < 0) ->
      exists m, most_common_neg diffs = Ok (Some m)
                /\ m < 0 /\ In m diffs
                /\ forall x, x < 0 -> count x diffs <= count m diffs).
Proof.
  assert (Hneg : (exists x, In x diffs /\ x < 0) ->
                 exists m, most_common_neg diffs = Ok (Some m)
                           /\ m < 0 /\ In m diffs
                           /\ forall x, x < 0 -> count x diffs <= count m diffs).
  { intros (x0 & Hx0 & Hlt0).
    unfold most_common_neg. destruct diffs as [|d ds]; [destruct Hx0|].
    set (l := d :: ds) in *.
    assert (Hin0 : In x0 (filter (fun x => x <? 0) l))
      by (apply filter_In; split; [exact Hx0|apply Z.ltb_lt; exact Hlt0]).
    destruct (filter (fun x => x <? 0) l) as [|n negs] eqn:E; [destruct Hin0|].
    rewrite <- E in *.
    destruct (most_common_key_mode (filter (fun x => x <? 0) l))
      as (m & Hm & Hin & Hmax); [rewrite E; discriminate|].
    rewrite Hm. cbn [Py.bind]. exists m. split; [reflexivity|].
    apply filter_In in Hin. destruct Hin as [Hml Hmneg].
    split; [apply Z.ltb_lt; exact Hmneg|]. split; [exact Hml|].
    intros x Hx. rewrite !count_occurrences.
    rewrite <- (occurrences_filter (fun x => x <? 0) x l)
      by (apply Z.ltb_lt; exact Hx).
    rewrite <- (occurrences_filter (fun x => x <? 0) m l) by exact Hmneg.
    apply Hmax. }
  split; [|exact Hneg]. split.
  - intros H x Hx. destruct (Z_lt_dec x 0) as [Hlt|]; [|lia].
    destruct Hneg as (m & Hm & _); [exists x; tauto|]. congruence.
  - intros Hall. unfold most_common_neg.
    destruct diffs as [|d ds]; [reflexivity|].
    destruct (filter (fun x => x <? 0) (d :: ds)) as [|n negs] eqn:E;
      [reflexivity|].
    assert (Hn : In n (filter (fun x => x <? 0) (d :: ds)))
      by (rewrite E; left; reflexivity).
    apply filter_In in Hn. destruct Hn as [Hn Hlt]. apply Z.ltb_lt in Hlt.
    pose proof (Hall n Hn). lia.
Qed.

Lemma modeNegCount_bounds (diffs : list Z) :
  0 <= Spec.modeNegCount diffs <= n_negs_of diffs
  /\ (Spec.modeNegCount diffs = 0 <-> forall x, In x diffs -> 0 <= x).
Proof.
  unfold Spec.modeNegCount. rewrite n_negs_of_plain. unfold n_negs_plain.
  set (negs := filter (fun x => x <? 0) diffs).
  assert (Hle : forall l,
             (forall x, In x l -> x < 0) ->
             0 <= fold_right Z.max 0 (map (fun x => Spec.occurrences x diffs) l)
             <= len negs).
  { induction l as [|y l IH]; intros Hl; cbn [map fold_right].
    - pose proof (len_nonneg negs). lia.
    - pose proof (IH (fun x Hx => Hl x (or_intror Hx))).
      assert (Spec.occurrences y diffs <= len negs).
      { rewrite <- (occurrences_filter (fun x => x <? 0) y diffs)
          by (apply Z.ltb_lt, Hl; left; reflexivity).
        rewrite <- count_occurrences. apply count_le_len. }
      lia. }
  assert (Hnegs : forall x, In x negs -> x < 0).
  { intros x Hx. apply filter_In in Hx. apply Z.ltb_lt. tauto. }
  split; [apply Hle, Hnegs|]. split.
  - intros H0 x Hx. destruct (Z_lt_dec x 0) as [Hlt|]; [|lia]. exfalso.
    assert (Hin : In x negs)
      by (apply filter_In; split; [exact Hx|apply Z.ltb_lt; exact Hlt]).
    assert (Hge : forall l, In x l ->
               Spec.occurrences x diffs
               <= fold_right Z.max 0 (map (fun x => Spec.occurrences x diffs) l)).
    { induction l as [|y l IH]; intros Hl; [destruct Hl|].
      cbn [map fold_right]. destruct Hl as [->|Hl]; [lia|].
      pose proof (IH Hl). lia. }
    pose proof (Hge negs Hin). pose proof (proj1 (occurrences_pos x diffs) Hx).
    lia.
  - intros Hall. destruct negs as [|y l] eqn:E; [reflexivity|].
    assert (Hy : In y (y :: l)) by (left; reflexivity).
    pose proof (Hnegs y Hy) as Hlt. rewrite <- E in Hy.
    apply filter_In in Hy. pose proof (Hall y (proj1 Hy)). lia.
Qed.

(** [num_most_common_neg] returns without raising; its answer lies between
    0 and the number of negative diffs, is 0 exactly when no diff is
    negative, is the count of every negative value that no negative value
    outnumbers, and is the same in every other dictionary order. *)
Theorem num_most_common_neg_bounds (diffs : list Z) :
  exists n,
    num_most_common_neg diffs = Ok n
    /\ 0 <= n <= n_negs_of diffs
    /\ (n = 0 <-> forall x, In x diffs -> 0 <= x)
    /\ (forall other : DictOrder, @num_most_common_neg other diffs = Ok n)
    /\ (forall m, In m diffs -> m < 0 ->
                  (forall x, x < 0 -> count x diffs <= count m diffs) ->
                  n = count m diffs).
Proof.
  exists (Spec.modeNegCount diffs).
  split; [apply num_most_common_neg_spec|].
  destruct (modeNegCount_bounds diffs) as [Hb Hz].
  split; [exact Hb|]. split; [exact Hz|].
  split; [intros other; apply num_most_common_neg_spec|].
  intros m Hin Hneg Hmax. unfold Spec.modeNegCount.
  rewrite count_occurrences.
  apply (fold_max_attained (fun x => Spec.occurrences x diffs)).
  - apply filter_In. split; [exact Hin|apply Z.ltb_lt; exact Hneg].
  - apply occurrences_nonneg.
  - intros x Hx. apply filter_In in Hx. destruct Hx as [_ Hx].
    apply Z.ltb_lt in Hx. rewrite <- !count_occurrences. apply Hmax, Hx.
Qed.

End ModeFunctions.

Lemma most_common_spec_witness :
  let diffs := [-1; -1; 2; -1; 2] in
  diffs <> [] /\ In (-1) diffs
  /\ (forall x, x <> -1 -> count x diffs < count (-1) diffs)
  /\ (exists m, @most_common insertion_order diffs = Ok (Some m)
                /\ In m diffs /\ forall x, count x diffs <= count m diffs)
  /\ @most_common reverse_insertion_order diffs = Ok (Some (-1)).
Proof.
  intros diffs.
  assert (Hne : diffs <> []) by discriminate.
  assert (Hin : In (-1) diffs) by (left; reflexivity).
  assert (Hst : forall x, x <> -1 -> count x diffs < count (-1) diffs).
  { intros x Hx. unfold diffs, count. cbn [filter].
    destruct (Z.eqb_spec x (-1)) as [|_]; [contradiction|].
    destruct (Z.eqb_spec x 2); vm_compute; reflexivity. }
  split; [exact Hne|]. split; [exact Hin|]. split; [exact Hst|]. split.
  - exact (proj1 (proj2 (@most_common_spec insertion_order diffs)) Hne).
  - exact (proj2 (proj2 (@most_common_spec reverse_insertion_order diffs))
             (-1) Hin Hst).
Defined.

Lemma most_common_neg_spec_witness :
  let diffs := [3; -1; -2; -1; 3; 3] in
  (exists x, In x diffs /\ x < 0)
  /\ exists m, @most_common_neg insertion_order diffs = Ok (Some m)
               /\ m < 0 /\ In m diffs
               /\ forall x, x < 0 -> count x diffs <= count m diffs.
Proof.
  intros diffs.
  assert (H : exists x, In x diffs /\ x < 0)
    by (exists (-1); split; [right; left; reflexivity|lia]).
  split; [exact H|].
  exact (proj2 (@most_common_neg_spec insertion_order diffs) H).
Defined.

Lemma num_most_common_neg_bounds_witness :
  let diffs := [3; -1; -2; -1; 3; 3] in
  In (-1) diffs /\ -1 < 0
  /\ (forall x, x < 0 -> count x diffs <= count (-1) diffs)
  /\ @num_most_common_neg insertion_order diffs = Ok (count (-1) diffs)
  /\ @num_most_common_neg reverse_insertion_order diffs
     = Ok (count (-1) diffs).
Proof.
  intros diffs.
  assert (Hin : In (-1) diffs) by (right; left; reflexivity).
  assert (Hlt : -1 < 0) by lia.
  assert (Hmax : forall x, x < 0 -> count x diffs <= count (-1) diffs).
  { intros x Hx. change (count (-1) diffs) with 2.
    unfold diffs, count. cbn [filter].
    destruct (Z.eqb_spec x 3) as [->|_]; [lia|].
    destruct (Z.eqb_spec x (-1)); destruct (Z.eqb_spec x (-2));
      unfold len; cbn [List.length]; lia. }
  split; [exact Hin|]. split; [exact Hlt|]. split; [exact Hmax|].
  destruct (@num_most_common_neg_bounds insertion_order diffs)
    as (n & Hn & _ & _ & Hother & Heq).
  rewrite Hn, (Hother reverse_insertion_order).
  rewrite (Heq (-1) Hin Hlt Hmax). split; reflexivity.
Defined.

(** ** What the heuristics accept *)

Lemma nNeg_le_length (ds : list Z) :
  0 <= Spec.nNeg ds <= Z.of_nat (List.length ds).
Proof.
  rewrite <- n_negs_of_spec. unfold n_negs_of, len.
  pose proof (filter_length_le counts_as_neg ds). lia.
Qed.

Section Acceptance.

Context {order : DictOrder}.

(** A sequence with 5 counted decreases has 6 elements or more. *)
Lemma six_of_diffs (series : list string) (ds : list Z) :
  differences series = Ok ds -> 5 <= Spec.nNeg ds ->
  (6 <= List.length series)%nat.
Proof.
  intros Hd Hn. pose proof (differences_length _ _ Hd).
  pose proof (nNeg_le_length ds). lia.
Qed.

Lemma is_decreasing_mode_true (series : list string) :
  is_decreasing_mode series = Ok true ->
  exists ds, differences series = Ok ds
             /\ 5 <= Spec.nNeg ds /\ 5 <= Spec.distinct series.
Proof.
  intros H. destruct (differences series) as [ds|e] eqn:Hd.
  - destruct (is_decreasing_mode_of_diffs _ _ Hd) as (b & Hb & Hiff).
    assert (b = true) by congruence. subst b.
    destruct (proj1 Hiff eq_refl) as (Hu & Hn & _).
    exists ds. tauto.
  - unfold is_decreasing_mode in H. rewrite Hd in H. discriminate.
Qed.

(** Neither heuristic accepts a sequence of fewer than 6 elements, whatever
    its strings, and [is_decreasing_mode] accepts none with fewer than 5
    distinct strings. *)
Theorem accepted_length (series : list string) :
  (is_decreasing series = Ok true -> (6 <= List.length series)%nat)
  /\ (is_decreasing_mode series = Ok true ->
      (6 <= List.length series)%nat /\ 5 <= Spec.distinct series).
Proof.
  split; intros H.
  - destruct (differences series) as [ds|e] eqn:Hd.
    + destruct (is_decreasing_of_diffs _ _ Hd) as (b & Hb & Hiff).
      assert (b = true) by congruence. subst b.
      apply (six_of_diffs series ds Hd). tauto.
    + unfold is_decreasing in H. rewrite Hd in H. discriminate.
  - destruct (is_decreasing_mode_true series H) as (ds & Hd & Hn & Hu).
    split; [exact (six_of_diffs series ds Hd Hn)|exact Hu].
Qed.

Lemma diffs_Sorted_gt (vs : list Z) :
  Sorted Z.gt vs -> Forall (fun d => d < 0) (Spec.diffs vs).
Proof.
  induction vs as [|a l IH]; intros Hs; [constructor|].
  destruct l as [|b l]; [constructor|].
  change (Spec.diffs (a :: b :: l)) with ((b - a) :: Spec.diffs (b :: l)).
  apply Sorted_inv in Hs. destruct Hs as [Hs Hhd].
  constructor; [|apply IH, Hs].
  apply HdRel_inv in Hhd. lia.
Qed.

Lemma diffs_Sorted_le (vs : list Z) :
  Sorted Z.le vs -> Forall (fun d => 0 <= d) (Spec.diffs vs).
Proof.
  induction vs as [|a l IH]; intros Hs; [constructor|].
  destruct l as [|b l]; [constructor|].
  change (Spec.diffs (a :: b :: l)) with ((b - a) :: Spec.diffs (b :: l)).
  apply Sorted_inv in Hs. destruct Hs as [Hs Hhd].
  constructor; [|apply IH, Hs].
  apply HdRel_inv in Hhd. lia.
Qed.

Lemma counts_all_negative (ds : list Z) :
  Forall (fun d => d < 0) ds ->
  Spec.nNeg ds = Z.of_nat (List.length ds) /\ Spec.nPos ds = 0.
Proof.
  rewrite nNeg_plain.
  induction 1 as [|d ds Hd _ [IH1 IH2]]; [split; reflexivity|].
  cbn [Spec.nNeg_plain Spec.nPos List.length].
  destruct (Z_lt_dec d 0), (Z_lt_dec 0 d); lia.
Qed.

Lemma counts_none_negative (ds : list Z) :
  Forall (fun d => 0 <= d) ds -> Spec.nNeg ds = 0.
Proof.
  rewrite nNeg_plain.
  induction 1 as [|d ds Hd _ IH]; [reflexivity|].
  cbn [Spec.nNeg_plain]. destruct (Z_lt_dec d 0); [lia|exact IH].
Qed.

Lemma Sorted_gt_NoDup (vs : list Z) : Sorted Z.gt vs -> NoDup vs.
Proof.
  intros Hs. apply Sorted_StronglySorted in Hs; [|intros x y z; lia].
  induction Hs as [|a l _ IH Hall]; constructor; [|exact IH].
  intros Hin. rewrite Forall_forall in Hall. pose proof (Hall a Hin). lia.
Qed.

(** A countdown is accepted: on numerals whose values go strictly down,
    6 of them or more, both heuristics answer [True]. *)
Theorem countdown_accepted (series : list string) :
  Forall (fun x => is_numeral x = true) series ->
  Sorted Z.gt (map Spec.value series) ->
  (6 <= List.length series)%nat ->
  is_decreasing series = Ok true /\ is_decreasing_mode series = Ok true.
Proof.
  intros Hs Hsorted Hlen.
  pose proof (differences_numerals _ Hs) as Hd.
  destruct (counts_all_negative _ (diffs_Sorted_gt _ Hsorted)) as [Hn Hp].
  fold (Spec.diffs_of series) in Hn, Hp.
  assert (Hdl : List.length (Spec.diffs_of series)
                = Nat.pred (List.length series))
    by (unfold Spec.diffs_of; rewrite diffs_length, length_map; reflexivity).
  assert (Hu : Spec.distinct series = Z.of_nat (List.length series)).
  { unfold Spec.distinct. rewrite nodup_fixed_point; [reflexivity|].
    eapply NoDup_map_inv, Sorted_gt_NoDup, Hsorted. }
  split.
  - destruct (is_decreasing_of_diffs _ _ Hd) as (b & Hb & Hiff).
    rewrite Hb. f_equal. apply Hiff. split; [lia|left; exact Hp].
  - destruct (is_decreasing_mode_of_diffs _ _ Hd) as (b & Hb & Hiff).
    rewrite Hb. f_equal. apply Hiff.
    split; [lia|]. split; [lia|left; exact Hp].
Qed.

(** A counter that never goes down is rejected: on numerals whose values
    never decrease both heuristics answer [False]. *)
Theorem nondecreasing_rejected (series : list string) :
  Forall (fun x => is_numeral x = true) series ->
  Sorted Z.le (map Spec.value series) ->
  is_decreasing series = Ok false /\ is_decreasing_mode series = Ok false.
Proof.
  intros Hs Hsorted.
  pose proof (differences_numerals _ Hs) as Hd.
  pose proof (counts_none_negative _ (diffs_Sorted_le _ Hsorted)) as Hn.
  fold (Spec.diffs_of series) in Hn.
  split.
  - destruct (is_decreasing_of_diffs _ _ Hd) as ([|] & Hb & Hiff);
      [|exact Hb].
    destruct (proj1 Hiff eq_refl) as [H5 _]. lia.
  - destruct (is_decreasing_mode_of_diffs _ _ Hd) as ([|] & Hb & Hiff);
      [|exact Hb].
    destruct (proj1 Hiff eq_refl) as (_ & H5 & _). lia.
Qed.

End Acceptance.

Lemma accepted_length_witness :
  is_decreasing countdown = Ok true
  /\ @is_decreasing_mode insertion_order countdown = Ok true
  /\ (6 <= List.length countdown)%nat /\ 5 <= Spec.distinct countdown.
Proof.
  assert (H1 : is_decreasing countdown = Ok true) by (vm_compute; reflexivity).
  assert (H2 : @is_decreasing_mode insertion_order countdown = Ok true)
    by (vm_compute; reflexivity).
  split; [exact H1|]. split; [exact H2|].
  pose proof (proj1 (@accepted_length insertion_order countdown) H1) as _.
  exact (proj2 (@accepted_length insertion_order countdown) H2).
Defined.

Lemma countdown_accepted_witness :
  Forall (fun x => is_numeral x = true) countdown
  /\ Sorted Z.gt (map Spec.value countdown)
  /\ (6 <= List.length countdown)%nat
  /\ is_decreasing countdown = Ok true
  /\ @is_decreasing_mode insertion_order countdown = Ok true.
Proof.
  assert (Hs : Forall (fun x => is_numeral x = true) countdown)
    by (repeat constructor).
  assert (Hd : Sorted Z.gt (map Spec.value countdown)).
  { change (map Spec.value countdown) with [10; 9; 8; 7; 6; 5].
    repeat constructor. }
  assert (Hl : (6 <= List.length countdown)%nat) by (simpl; lia).
  split; [exact Hs|]. split; [exact Hd|]. split; [exact Hl|].
  exact (@countdown_accepted insertion_order countdown Hs Hd Hl).
Defined.

Lemma nondecreasing_rejected_witness :
  let series := ["1"; "2"; "2"; "5"; "7"; "7"; "9"] in
  Forall (fun x => is_numeral x = true) series
  /\ Sorted Z.le (map Spec.value series)
  /\ is_decreasing series = Ok false
  /\ @is_decreasing_mode insertion_order series = Ok false.
Proof.
  intros series.
  assert (Hs : Forall (fun x => is_numeral x = true) series)
    by (repeat constructor).
  assert (Hd : Sorted Z.le (map Spec.value series)).
  { change (map Spec.value series) with [1; 2; 2; 5; 7; 7; 9].
    repeat (constructor; try lia). }
  split; [exact Hs|]. split; [exact Hd|].
  exact (@nondecreasing_rejected insertion_order series Hs Hd).
Defined.

(** [is_decreasing] reads the values and not their spelling: two sequences
    of numerals with the same values, "09" for "9", get the same answer.
    [is_decreasing_mode] counts the distinct strings and does not have the
    property: [plain_cycle] and [padded_cycle] have the same values, four of
    them, and only the second is accepted. *)
Theorem is_decreasing_spelling :
  (forall s s' : list string,
      Forall (fun x => is_numeral x = true) s ->
      Forall (fun x => is_numeral x = true) s' ->
      map Spec.value s = map Spec.value s' ->
      is_decreasing s = is_decreasing s')
  /\ (map Spec.value plain_cycle = map Spec.value padded_cycle
      /\ @is_decreasing_mode insertion_order plain_cycle = Ok false
      /\ @is_decreasing_mode insertion_order padded_cycle = Ok true).
Proof.
  split.
  - intros s s' Hs Hs' Hv. unfold is_decreasing.
    rewrite (differences_numerals s Hs), (differences_numerals s' Hs').
    unfold Spec.diffs_of. rewrite Hv. reflexivity.
  - repeat split; vm_compute; reflexivity.
Qed.

Lemma is_decreasing_spelling_witness :
  Forall (fun x => is_numeral x = true) countdown
  /\ Forall (fun x => is_numeral x = true) ["10"; "9"; "8"; "7"; "6"; "5"]
  /\ map Spec.value countdown
     = map Spec.value ["10"; "9"; "8"; "7"; "6"; "5"]
  /\ is_decreasing countdown = is_decreasing ["10"; "9"; "8"; "7"; "6"; "5"].
Proof.
  assert (H1 : Forall (fun x => is_numeral x = true) countdown)
    by (repeat constructor).
  assert (H2 : Forall (fun x => is_numeral x = true)
                      ["10"; "9"; "8"; "7"; "6"; "5"]) by (repeat constructor).
  assert (H3 : map Spec.value countdown
               = map Spec.value ["10"; "9"; "8"; "7"; "6"; "5"]) by reflexivity.
  split; [exact H1|]. split; [exact H2|]. split; [exact H3|].
  exact (proj1 is_decreasing_spelling _ _ H1 H2 H3).
Defined.

Lemma diffs_repeat (a b : list Z) (x : Z) :
  Spec.nNeg (Spec.diffs (a ++ x :: x :: b)) = Spec.nNeg (Spec.diffs (a ++ x :: b))
  /\ Spec.nPos (Spec.diffs (a ++ x :: x :: b))
     = Spec.nPos (Spec.diffs (a ++ x :: b)).
Proof.
  rewrite !nNeg_plain.
  induction a as [|y a IH].
  - cbn [app].
    change (Spec.diffs (x :: x :: b)) with ((x - x) :: Spec.diffs (x :: b)).
    cbn [Spec.nNeg_plain Spec.nPos].
    destruct (Z_lt_dec (x - x) 0), (Z_lt_dec 0 (x - x)); lia.
  - destruct a as [|z a].
    + cbn [app] in *.
      change (Spec.diffs (y :: x :: x :: b))
        with ((x - y) :: Spec.diffs (x :: x :: b)).
      change (Spec.diffs (y :: x :: b)) with ((x - y) :: Spec.diffs (x :: b)).
      cbn [Spec.nNeg_plain Spec.nPos]. destruct IH as [-> ->].
      split; reflexivity.
    + change (Spec.diffs ((y :: z :: a) ++ x :: x :: b))
        with ((z - y) :: Spec.diffs ((z :: a) ++ x :: x :: b)).
      change (Spec.diffs ((y :: z :: a) ++ x :: b))
        with ((z - y) :: Spec.diffs ((z :: a) ++ x :: b)).
      cbn [Spec.nNeg_plain Spec.nPos]. destruct IH as [-> ->].
      split; reflexivity.
Qed.

(** An observation made twice in a row counts once for [is_decreasing]: on
    numerals, repeating an element right after itself, which adds a diff of
    0, leaves the answer as it is. *)
Theorem is_decreasing_repeat (a b : list string) (x : string) :
  Forall (fun y => is_numeral y = true) (a ++ x :: b) ->
  is_decreasing (a ++ x :: x :: b) = is_decreasing (a ++ x :: b).
Proof.
  intros Hs.
  assert (Hs' : Forall (fun y => is_numeral y = true) (a ++ x :: x :: b)).
  { apply Forall_app in Hs. destruct Hs as [Ha Hxb].
    apply Forall_app. split; [exact Ha|].
    constructor; [inversion Hxb; assumption|exact Hxb]. }
  destruct (is_decreasing_of_diffs _ _ (differences_numerals _ Hs))
    as (b1 & Hb1 & Hiff1).
  destruct (is_decreasing_of_diffs _ _ (differences_numerals _ Hs'))
    as (b2 & Hb2 & Hiff2).
  rewrite Hb1, Hb2. f_equal.
  unfold Spec.diffs_of in Hiff1, Hiff2.
  rewrite map_app in Hiff1, Hiff2. cbn [map] in Hiff1, Hiff2.
  destruct (diffs_repeat (map Spec.value a) (map Spec.value b) (Spec.value x))
    as [En Ep].
  rewrite En, Ep in Hiff2.
  destruct b1, b2; try reflexivity.
  - exfalso. assert (false = true) by (apply Hiff2, Hiff1; reflexivity).
    discriminate.
  - exfalso. assert (false = true) by (apply Hiff1, Hiff2; reflexivity).
    discriminate.
Qed.

Lemma is_decreasing_repeat_witness :
  Forall (fun y => is_numeral y = true) (["10"; "09"] ++ "08" :: ["07"; "06"; "05"])
  /\ is_decreasing (["10"; "09"] ++ "08" :: "08" :: ["07"; "06"; "05"])
     = is_decreasing (["10"; "09"] ++ "08" :: ["07"; "06"; "05"]).
Proof.
  assert (Hs : Forall (fun y => is_numeral y = true)
                      (["10"; "09"] ++ "08" :: ["07"; "06"; "05"]))
    by (repeat constructor).
  split; [exact Hs|].
  exact (is_decreasing_repeat ["10"; "09"] ["07"; "06"; "05"] "08" Hs).
Defined.

(** ** [num_unique] and [ts_check] *)

Lemma nodup_length_incl (l l' : list Z) :
  incl l l' ->
  (List.length (nodup Z.eq_dec l) <= List.length (nodup Z.eq_dec l'))%nat.
Proof.
  intros H. apply NoDup_incl_length; [apply NoDup_nodup|].
  intros x Hx. apply nodup_In. apply H. apply nodup_In in Hx. exact Hx.
Qed.

Lemma nodup_length_Permutation (l l' : list Z) :
  Permutation l l' ->
  List.length (nodup Z.eq_dec l) = List.length (nodup Z.eq_dec l').
Proof.
  intros H. apply Nat.le_antisymm; apply nodup_length_incl; intros x Hx.
  - eapply Permutation_in; eassumption.
  - eapply Permutation_in; [apply Permutation_sym|]; eassumption.
Qed.

Lemma nodup_length_le (l : list Z) :
  (List.length (nodup Z.eq_dec l) <= List.length l)%nat.
Proof.
  induction l as [|x l IH]; [reflexivity|]. cbn [nodup].
  destruct (in_dec Z.eq_dec x l); cbn [List.length]; lia.
Qed.

(** [num_unique] counts the values and not the rows: it is the same for two
    orders of the same rows, at most the number of rows, equal to it exactly
    when no value repeats, and 0 for no row only. *)
Theorem num_unique_spec (series : list Z) :
  (forall series', Permutation series series' ->
                   num_unique series = num_unique series')
  /\ 0 <= num_unique series <= len series
  /\ (num_unique series = len series <-> NoDup series)
  /\ (num_unique series = 0 <-> series = [])
  /\ (forall x, In x series -> num_unique (x :: series) = num_unique series).
Proof.
  unfold num_unique, set_Z, len. split; [|split; [|split; [|split]]].
  - intros series' H. rewrite (nodup_length_Permutation _ _ H). reflexivity.
  - pose proof (nodup_length_le series). lia.
  - split.
    + intros H. apply Nat2Z.inj in H.
      clear -H. induction series as [|x l IH]; [constructor|].
      cbn [nodup] in H. pose proof (nodup_length_le l).
      destruct (in_dec Z.eq_dec x l); cbn [List.length] in H; [lia|].
      constructor; [assumption|]. apply IH. lia.
    + intros H. rewrite nodup_fixed_point by exact H. reflexivity.
  - split.
    + intros H. destruct series as [|x l]; [reflexivity|]. exfalso.
      assert (Hin : In x (nodup Z.eq_dec (x :: l)))
        by (apply nodup_In; left; reflexivity).
      destruct (nodup Z.eq_dec (x :: l)); [destruct Hin|].
      cbn [List.length] in H. lia.
    + intros ->. reflexivity.
  - intros x Hx. cbn [nodup].
    destruct (in_dec Z.eq_dec x series); [reflexivity|contradiction].
Qed.

Lemma num_unique_spec_witness :
  Permutation [7; 8; 7] [7; 7; 8] /\ In 7 [8; 7]
  /\ num_unique [7; 8; 7] = num_unique [7; 7; 8]
  /\ num_unique (7 :: [8; 7]) = num_unique [8; 7].
Proof.
  assert (Hp : Permutation [7; 8; 7] [7; 7; 8])
    by (apply perm_skip, perm_swap).
  assert (Hin : In 7 [8; 7]) by (right; left; reflexivity).
  split; [exact Hp|]. split; [exact Hin|]. split.
  - exact (proj1 (num_unique_spec [7; 8; 7]) _ Hp).
  - exact (proj2 (proj2 (proj2 (proj2 (num_unique_spec [8; 7])))) 7 Hin).
Defined.

Lemma distinct_ids_incl (l l' : list Z) :
  incl l l' -> distinct_ids l <= distinct_ids l'.
Proof.
  intros H. unfold distinct_ids. pose proof (nodup_length_incl _ _ H). lia.
Qed.

Lemma distinct_ids_le_length (l : list Z) :
  distinct_ids l <= Z.of_nat (List.length l).
Proof.
  unfold distinct_ids. pose proof (nodup_length_le l). lia.
Qed.

Lemma existsb_is_Timestamp_incl (series series' : list timestamp) :
  incl series series' ->
  existsb is_Timestamp series' = false -> existsb is_Timestamp series = false.
Proof.
  intros H Hf. destruct (existsb is_Timestamp series) eqn:E; [|reflexivity].
  apply existsb_exists in E. destruct E as (ts & Hin & Hts).
  assert (existsb is_Timestamp series' = true)
    by (apply existsb_exists; exists ts; split; [apply H, Hin|exact Hts]).
  congruence.
Qed.

(** [ts_check] looks at the set of the values [int(ts)]: it does not depend
    on the order of the time stamps, more time stamps never make it fail,
    and it takes 5 time stamps or more to pass. *)
Theorem ts_check_spec_order (series : list timestamp) :
  (forall series', Permutation series series' ->
                   ts_check series = ts_check series')
  /\ (forall series', incl series series' -> ts_check series = Ok true ->
                      ts_check series' <> Ok false
                      /\ (existsb is_Timestamp series' = false ->
                          ts_check series' = Ok true))
  /\ (ts_check series = Ok true -> (5 <= List.length series)%nat).
Proof.
  split; [|split].
  - intros series' H. rewrite !ts_check_spec.
    assert (Hi : incl series series')
      by (intros x Hx; eapply Permutation_in; eassumption).
    assert (Hi' : incl series' series)
      by (intros x Hx; eapply Permutation_in;
          [apply Permutation_sym|]; eassumption).
    destruct (existsb is_Timestamp series) eqn:E;
      destruct (existsb is_Timestamp series') eqn:E'; try reflexivity.
    + rewrite (existsb_is_Timestamp_incl _ _ Hi E') in E. discriminate.
    + rewrite (existsb_is_Timestamp_incl _ _ Hi' E) in E'. discriminate.
    + do 2 f_equal. unfold ints_of.
      apply Z.le_antisymm; apply distinct_ids_incl, incl_map; assumption.
  - intros series' H Ht. apply ts_check_Ok in Ht. destruct Ht as [_ Ht].
    assert (Hok : existsb is_Timestamp series' = false ->
                  ts_check series' = Ok true).
    { intros Hf. apply ts_check_Ok. split; [exact Hf|].
      symmetry in Ht. apply Z.leb_le in Ht. symmetry. apply Z.leb_le.
      pose proof (distinct_ids_incl _ _ (incl_map instant H)).
      unfold ints_of in *. lia. }
    split; [|exact Hok].
    intros Hfalse. pose proof (proj1 (ts_check_Ok _ _) Hfalse) as [Hf _].
    rewrite (Hok Hf) in Hfalse. discriminate.
  - intros Ht. apply ts_check_Ok in Ht. destruct Ht as [_ Ht].
    symmetry in Ht. apply Z.leb_le in Ht.
    pose proof (distinct_ids_le_length (ints_of series)) as Hl.
    unfold ints_of in Hl. rewrite length_map in Hl. unfold ints_of in Ht. lia.
Qed.

Lemma ts_check_spec_order_witness :
  let series := map Int [1000000000; 2000000000; 3000000000; 4000000000;
                         5500000000] in
  Permutation series (rev series)
  /\ incl series (series ++ [Int 5600000000])
  /\ ts_check series = Ok true
  /\ existsb is_Timestamp (series ++ [Int 5600000000]) = false
  /\ ts_check (rev series) = Ok true
  /\ ts_check (series ++ [Int 5600000000]) = Ok true
  /\ (5 <= List.length series)%nat.
Proof.
  intros series.
  assert (Hp : Permutation series (rev series)) by apply Permutation_rev.
  assert (Hi : incl series (series ++ [Int 5600000000]))
    by apply incl_appl, incl_refl.
  assert (Ht : ts_check series = Ok true) by (vm_compute; reflexivity).
  assert (Hf : existsb is_Timestamp (series ++ [Int 5600000000]) = false)
    by reflexivity.
  destruct (ts_check_spec_order series) as (T1 & T2 & T3).
  split; [exact Hp|]. split; [exact Hi|]. split; [exact Ht|].
  split; [exact Hf|].
  split; [rewrite <- (T1 _ Hp); exact Ht|].
  split; [exact (proj2 (T2 _ Hi Ht) Hf)|exact (T3 Ht)].
Defined.

(** ** [detect_timers]: exceptions *)

Lemma comprehension_Raise {A B : Type} (f : A -> result B) (l : list A)
  (e : exn) :
  comprehension f l = Raise e -> exists x, In x l /\ f x = Raise e.
Proof.
  induction l as [|x l IH]; cbn [comprehension]; [discriminate|].
  destruct (f x) as [y|e'] eqn:E; cbn [Py.bind].
  - destruct (comprehension f l) as [ys|e'']; cbn [Py.bind]; [discriminate|].
    intros H. destruct IH as (z & Hz & Hfz); [exact H|].
    exists z. split; [right; exact Hz|exact Hfz].
  - intros H. exists x. split; [left; reflexivity|congruence].
Qed.

Lemma comprehension_Raise_of {A B : Type} (f : A -> result B) (l : list A)
  (x : A) (e : exn) :
  In x l -> f x = Raise e ->
  (forall y e', In y l -> f y = Raise e' -> e' = e) ->
  comprehension f l = Raise e.
Proof.
  intros Hin Hx Hall.
  destruct (comprehension f l) as [ys|e'] eqn:E.
  - apply comprehension_Ok in E.
    destruct (Forall2_In_l _ _ _ _ E Hin) as (y & _ & Hy). congruence.
  - apply comprehension_Raise in E. destruct E as (y & Hy & Hfy).
    f_equal. eapply Hall; eassumption.
Qed.

Section Exceptions.

Context {order : DictOrder}.

Lemma is_decreasing_Raise (series : list string) (e : exn) :
  is_decreasing series = Raise e <-> differences series = Raise e.
Proof.
  destruct (differences series) as [ds|e'] eqn:Hd.
  - destruct (is_decreasing_of_diffs _ _ Hd) as (b & Hb & _).
    rewrite Hb. split; discriminate.
  - unfold is_decreasing. rewrite Hd. cbn [Py.bind]. split; congruence.
Qed.

Lemma is_decreasing_mode_Raise (series : list string) (e : exn) :
  is_decreasing_mode series = Raise e <-> differences series = Raise e.
Proof.
  destruct (differences series) as [ds|e'] eqn:Hd.
  - destruct (is_decreasing_mode_of_diffs _ _ Hd) as (b & Hb & _).
    rewrite Hb. split; discriminate.
  - unfold is_decreasing_mode. rewrite Hd. cbn [Py.bind]. split; congruence.
Qed.

(** The exception of [detect_timers] is that of the first column of [agg]
    that raises. *)
Lemma detect_timers_Raise (segments : list row) (limit : option Z) (e : exn) :
  let groups := groupby (tmp_of segments limit) in
  detect_timers segments limit = Raise e <->
  agg_column time_stamps_of ts_check groups = Raise e
  \/ ((exists c, agg_column time_stamps_of ts_check groups = Ok c)
      /\ (agg_column digits_of is_decreasing groups = Raise e
          \/ ((exists c, agg_column digits_of is_decreasing groups = Ok c)
              /\ agg_column digits_of is_decreasing_mode groups = Raise e))).
Proof.
  intros groups. unfold detect_timers. cbv zeta. fold groups.
  rewrite !agg_column_pure. cbn [Py.bind].
  destruct (agg_column time_stamps_of ts_check groups) as [ts|e1];
    cbn [Py.bind].
  2: { split; [intros H; left; congruence|].
       intros [H|[[c H] _]]; congruence. }
  destruct (agg_column digits_of is_decreasing groups) as [ds|e2];
    cbn [Py.bind].
  2: { split.
       - intros H. right. split; [exists ts; reflexivity|left; congruence].
       - intros [H|[_ [H|[[c H] _]]]]; congruence. }
  destruct (agg_column digits_of is_decreasing_mode groups) as [ms|e3];
    cbn [Py.bind].
  - split; [discriminate|].
    intros [H|[_ [H|[_ H]]]]; discriminate.
  - split.
    + intros H. right. split; [exists ts; reflexivity|]. right.
      split; [exists ds; reflexivity|congruence].
    + intros [H|[_ [H|[_ H]]]]; congruence.
Qed.

(** The [time_stamp] column raises when the table has a [Timestamp]. *)
Lemma time_stamp_column_Raise (tmp : list row) (e : exn) :
  agg_column time_stamps_of ts_check (groupby tmp) = Raise e <->
  e = TypeError
  /\ exists r, In r tmp /\ is_Timestamp (time_stamp (raw r)) = true.
Proof.
  unfold agg_column. split.
  - intros H. apply comprehension_Raise in H.
    destruct H as ([k rows] & Hin & Hts). cbn [snd] in Hts.
    apply ts_check_Raise in Hts. destruct Hts as [-> Hex].
    split; [reflexivity|].
    apply existsb_exists in Hex. destruct Hex as (ts & Hts & Hb).
    apply in_map_iff in Hts. destruct Hts as (r & <- & Hr).
    apply groupby_spec in Hin. destruct Hin as [-> _].
    apply rows_with_In in Hr. exists r. tauto.
  - intros (-> & r & Hr & Hb).
    apply (comprehension_Raise_of _ _ (key_of r, rows_with (key_of r) tmp)).
    + apply groupby_row, Hr.
    + cbn [snd]. apply ts_check_Raise. split; [reflexivity|].
      apply existsb_exists. exists (time_stamp (raw r)).
      split; [|exact Hb]. unfold time_stamps_of.
      apply (in_map (fun r => time_stamp (raw r))).
      apply rows_with_In. tauto.
    + intros [k' rows'] e' _ H. cbn [snd] in H.
      apply ts_check_Raise in H. tauto.
Qed.

Lemma time_stamp_column_Ok (tmp : list row) :
  (exists c, agg_column time_stamps_of ts_check (groupby tmp) = Ok c) <->
  forall r, In r tmp -> is_Timestamp (time_stamp (raw r)) = false.
Proof.
  destruct (agg_column time_stamps_of ts_check (groupby tmp)) as [c|e] eqn:E.
  - split; [|intros _; exists c; reflexivity].
    intros _ r Hr.
    destruct (is_Timestamp (time_stamp (raw r))) eqn:Hb; [|reflexivity].
    assert (H : agg_column time_stamps_of ts_check (groupby tmp)
                = Raise TypeError).
    { apply time_stamp_column_Raise. split; [reflexivity|].
      exists r. tauto. }
    congruence.
  - apply time_stamp_column_Raise in E. destruct E as (_ & r & Hr & Hb).
    split; [intros [c H]; discriminate|].
    intros H. rewrite (H r Hr) in Hb. discriminate.
Qed.

(** The columns of [is_decreasing] and [is_decreasing_mode] raise together,
    as [differences] does. *)
Lemma digits_column_Raise (f : list string -> result bool)
  (tmp : list row) (e : exn) :
  (forall series e', f series = Raise e' <-> differences series = Raise e') ->
  Forall (fun r => all_digits (inner_digits r) = true) tmp ->
  agg_column digits_of f (groupby tmp) = Raise e <->
  e = ValueError
  /\ exists k r, (2 <= List.length (rows_with k tmp))%nat
                 /\ In r (rows_with k tmp)
                 /\ inner_digits r = "".
Proof.
  intros Hf Hs.
  assert (Hdigits : forall k,
             Forall (fun x => all_digits x = true)
                    (digits_of (rows_with k tmp))).
  { intros k. apply Forall_forall. intros x Hx. apply in_map_iff in Hx.
    destruct Hx as (r & <- & Hr). apply rows_with_In in Hr.
    rewrite Forall_forall in Hs. apply Hs. tauto. }
  unfold agg_column. split.
  - intros H. apply comprehension_Raise in H.
    destruct H as ([k rows] & Hin & Hagg). cbn [snd] in Hagg.
    apply groupby_spec in Hin. destruct Hin as [-> _].
    apply Hf in Hagg.
    apply (differences_raises_iff _ _ (Hdigits k)) in Hagg.
    destruct Hagg as (-> & Hlen & Hempty). split; [reflexivity|].
    unfold digits_of in Hlen, Hempty. rewrite length_map in Hlen.
    apply in_map_iff in Hempty. destruct Hempty as (r & Hr & Hin).
    exists k, r. tauto.
  - intros (-> & k & r & Hlen & Hin & Hempty).
    apply (comprehension_Raise_of _ _ (k, rows_with k tmp)).
    + apply groupby_spec. split; [reflexivity|].
      intros E. rewrite E in Hin. destruct Hin.
    + cbn [snd]. apply Hf. apply differences_empty_string.
      * unfold digits_of. rewrite length_map. exact Hlen.
      * apply in_map_iff. exists r. tauto.
    + intros [k' rows'] e' _ H. cbn [snd] in H. apply Hf in H.
      eapply differences_raises_ValueError, H.
Qed.

(** [detect_timers] raises the [TypeError] of [int] on a [Timestamp] and the
    [ValueError] of [int] on an empty string, and nothing else: the [[0][0]]
    of [most_common] never fails.  On a table whose [inner_digits] are
    strings of digits it raises [TypeError] exactly when the table has a
    [Timestamp], and [ValueError] exactly when it has none and some group of
    two rows or more has a row whose [inner_digits] is empty. *)
Theorem detect_timers_raises_iff (segments : list row) (limit : option Z)
  (e : exn) :
  Forall (fun r => all_digits (inner_digits r) = true) segments ->
  detect_timers segments limit = Raise e
  <-> (e = TypeError
       /\ exists r, In r (tmp_of segments limit)
                    /\ is_Timestamp (time_stamp (raw r)) = true)
      \/ (e = ValueError
          /\ (forall r, In r (tmp_of segments limit) ->
                        is_Timestamp (time_stamp (raw r)) = false)
          /\ exists k r,
               (2 <= List.length (rows_with k (tmp_of segments limit)))%nat
               /\ In r (rows_with k (tmp_of segments limit))
               /\ inner_digits r = "").
Proof.
  intros Hs.
  assert (Hs' : Forall (fun r => all_digits (inner_digits r) = true)
                       (tmp_of segments limit)).
  { apply Forall_forall. intros r Hr. rewrite Forall_forall in Hs.
    apply Hs. eapply tmp_of_incl, Hr. }
  pose proof (digits_column_Raise is_decreasing _ e is_decreasing_Raise Hs')
    as Hdec.
  pose proof (digits_column_Raise is_decreasing_mode _ e
                is_decreasing_mode_Raise Hs') as Hmode.
  pose proof (detect_timers_Raise segments limit e) as Hd. cbv zeta in Hd.
  rewrite Hd, time_stamp_column_Raise, time_stamp_column_Ok, Hdec.
  split.
  - intros [H|[Hno [H|[[c Hc] H]]]]; [left; exact H|right; tauto|].
    exfalso. apply Hmode in H. apply Hdec in H. congruence.
  - intros [H|(He & Hno & H)]; [left; exact H|]. right. tauto.
Qed.

(** Whatever the strings of the table, [detect_timers] raises nothing but
    [TypeError] and [ValueError]. *)
Lemma detect_timers_raises_only (segments : list row)
  (limit : option Z) (e : exn) :
  detect_timers segments limit = Raise e -> e = TypeError \/ e = ValueError.
Proof.
  intros H. apply detect_timers_Raise in H. cbv zeta in H.
  assert (Hdiff : forall (f : list string -> result bool),
             (forall series e', f series = Raise e'
                                <-> differences series = Raise e') ->
             agg_column digits_of f (groupby (tmp_of segments limit)) = Raise e ->
             e = ValueError).
  { intros f Hf Hc. unfold agg_column in Hc.
    apply comprehension_Raise in Hc. destruct Hc as ([k rows] & _ & Hr).
    cbn [snd] in Hr. apply Hf in Hr.
    eapply differences_raises_ValueError, Hr. }
  destruct H as [H|[_ [H|[_ H]]]].
  - apply time_stamp_column_Raise in H. tauto.
  - right. exact (Hdiff _ is_decreasing_Raise H).
  - right. exact (Hdiff _ is_decreasing_mode_Raise H).
Qed.

(** After [preprocess_segments], [detect_timers] raises [TypeError] on every
    table that has a row, whatever its texts. *)
Lemma detect_timers_preprocessed (segments : list segment) (s : segment) :
  In s segments ->
  detect_timers (preprocess_segments segments) None = Raise TypeError.
Proof.
  intros Hin. apply detect_timers_Raise. cbv zeta. left.
  apply time_stamp_column_Raise. split; [reflexivity|].
  exists (text_columns (set_time_stamp (to_datetime (time_stamp s)) s)).
  split.
  - cbn [tmp_of py_not]. unfold preprocess_segments.
    apply (in_map (fun s => text_columns
                              (set_time_stamp (to_datetime (time_stamp s)) s))).
    exact Hin.
  - cbn. destruct (time_stamp s); reflexivity.
Qed.

End Exceptions.

Lemma detect_timers_raises_iff_witness :
  let segments := preprocess_segments table_in_time_order in
  let digitless := with_text_columns table_no_digit in
  (Forall (fun r => all_digits (inner_digits r) = true) segments
   /\ @detect_timers insertion_order segments None = Raise TypeError)
  /\ (Forall (fun r => all_digits (inner_digits r) = true) digitless
      /\ @detect_timers insertion_order digitless None = Raise ValueError).
Proof.
  intros segments digitless.
  assert (Hs : Forall (fun r => all_digits (inner_digits r) = true) segments)
    by (vm_compute; repeat constructor).
  assert (Hs' : Forall (fun r => all_digits (inner_digits r) = true) digitless)
    by (vm_compute; repeat constructor).
  split; (split; [assumption|]).
  - apply (@detect_timers_raises_iff insertion_order segments None TypeError Hs).
    left. split; [reflexivity|].
    eexists. split; [left; reflexivity|reflexivity].
  - apply (@detect_timers_raises_iff insertion_order digitless None
             ValueError Hs').
    right. split; [reflexivity|]. split.
    + intros r [<-|[<-|[]]]; reflexivity.
    + exists (41, 145, 290, "Sale").
      eexists. split; [|split; [left; reflexivity|reflexivity]].
      vm_compute. apply le_n.
Defined.

(** ** [detect_timers]: the two tables *)

Lemma indicator_sum (a : key) (ks : list key) :
  NoDup ks ->
  sum_Z (map (fun k => if key_eqb a k then 1 else 0) ks)
  = if existsb (key_eqb a) ks then 1 else 0.
Proof.
  induction 1 as [|k ks Hk _ IH]; [reflexivity|].
  cbn [map sum_Z fold_right existsb].
  fold (sum_Z (map (fun k => if key_eqb a k then 1 else 0) ks)).
  rewrite IH. destruct (key_eqb a k) eqn:E; cbn [orb].
  - apply key_eqb_eq in E. subst k.
    destruct (existsb (key_eqb a) ks) eqn:Ex; [|reflexivity].
    apply existsb_exists in Ex. destruct Ex as (k & Hin & Hk').
    apply key_eqb_eq in Hk'. subst k. contradiction.
  - destruct (existsb (key_eqb a) ks); reflexivity.
Qed.

Lemma rows_in_groups_cons (ks : list key) (r : row) (tmp : list row) :
  rows_in_groups ks (r :: tmp)
  = sum_Z (map (fun k => if key_eqb (key_of r) k then 1 else 0) ks)
    + rows_in_groups ks tmp.
Proof.
  unfold rows_in_groups.
  induction ks as [|k ks IH]; [reflexivity|].
  cbn [map sum_Z fold_right].
  fold (sum_Z (map (fun k => len (rows_with k (r :: tmp))) ks)).
  fold (sum_Z (map (fun k => if key_eqb (key_of r) k then 1 else 0) ks)).
  fold (sum_Z (map (fun k => len (rows_with k tmp)) ks)).
  rewrite IH. unfold rows_with at 1. cbn [filter].
  destruct (key_eqb (key_of r) k); [rewrite len_cons|];
    fold (rows_with k tmp); lia.
Qed.

(** Over a list of distinct keys that has the key of every row, the groups
    hold as many rows as the table. *)
Lemma rows_in_groups_all (ks : list key) (tmp : list row) :
  NoDup ks -> (forall r, In r tmp -> In (key_of r) ks) ->
  rows_in_groups ks tmp = len tmp.
Proof.
  intros Hnd. induction tmp as [|r tmp IH]; intros Hall.
  - unfold rows_in_groups. clear. induction ks as [|k ks IH]; [reflexivity|].
    cbn [map sum_Z fold_right].
    fold (sum_Z (map (fun k => len (rows_with k [])) ks)).
    rewrite IH. reflexivity.
  - rewrite rows_in_groups_cons, (indicator_sum _ _ Hnd), len_cons.
    rewrite IH by (intros x Hx; apply Hall; right; exact Hx).
    destruct (existsb (key_eqb (key_of r)) ks) eqn:Ex; [lia|].
    exfalso. assert (existsb (key_eqb (key_of r)) ks = true); [|congruence].
    apply existsb_exists. exists (key_of r).
    split; [apply Hall; left; reflexivity|apply key_eqb_refl].
Qed.

Section Tables.

Context {order : DictOrder}.

Lemma grouped_keys (segments : list row) (limit : option Z)
  (timers grouped : list group_row) :
  detect_timers segments limit = Ok (timers, grouped) ->
  map key_of_group grouped = map fst (groupby (tmp_of segments limit)).
Proof.
  intros H. apply detect_timers_Ok in H. destruct H as [_ HF].
  induction HF as [|[k rows] g l l' Hagg _ IH]; [reflexivity|].
  cbn [map fst]. rewrite IH. f_equal.
  apply agg_row_Ok in Hagg. tauto.
Qed.

Lemma StronglySorted_filter_map (l : list group_row) (p : group_row -> bool) :
  StronglySorted key_lt (map key_of_group l) ->
  StronglySorted key_lt (map key_of_group (filter p l)).
Proof.
  induction l as [|g l IH]; intros Hs; [constructor|].
  cbn [map] in Hs. apply StronglySorted_inv in Hs. destruct Hs as [Hs Hall].
  cbn [filter]. destruct (p g); [|apply IH, Hs].
  cbn [map]. constructor; [apply IH, Hs|].
  apply Forall_forall. intros k Hk. rewrite Forall_forall in Hall.
  apply Hall. apply in_map_iff in Hk. destruct Hk as (g' & <- & Hg').
  apply filter_In in Hg'. apply in_map. tauto.
Qed.

(** [segments_grouped] has one row for every key that a row of the table
    carries and no other, in ascending order of the keys, so no key comes
    twice; its groups hold each row of the table once; and [timers] lists
    some of its rows, in the same order. *)
Theorem segments_grouped_keys (segments : list row) (limit : option Z)
  (timers grouped : list group_row) :
  detect_timers segments limit = Ok (timers, grouped) ->
  StronglySorted key_lt (map key_of_group grouped)
  /\ NoDup (map key_of_group grouped)
  /\ (forall k, In k (map key_of_group grouped)
                <-> exists r, In r (tmp_of segments limit) /\ key_of r = k)
  /\ rows_in_groups (map key_of_group grouped) (tmp_of segments limit)
     = len (tmp_of segments limit)
  /\ StronglySorted key_lt (map key_of_group timers)
  /\ incl timers grouped.
Proof.
  intros H. pose proof (grouped_keys _ _ _ _ H) as Hk.
  pose proof (detect_timers_Ok _ _ _ _ H) as [Ht _].
  assert (Hmem : forall k, In k (map key_of_group grouped)
                  <-> exists r, In r (tmp_of segments limit) /\ key_of r = k).
  { intros k. rewrite Hk. rewrite in_map_iff. split.
    - intros ([k' rows] & <- & Hin). apply groupby_spec in Hin.
      destruct Hin as [-> Hne].
      destruct (rows_with k' (tmp_of segments limit)) as [|r l] eqn:E;
        [congruence|].
      assert (Hr : In r (rows_with k' (tmp_of segments limit)))
        by (rewrite E; left; reflexivity).
      apply rows_with_In in Hr. exists r. exact Hr.
    - intros (r & Hr & <-). exists (key_of r, rows_with (key_of r)
                                                (tmp_of segments limit)).
      split; [reflexivity|apply groupby_row, Hr]. }
  assert (Hsorted : StronglySorted key_lt (map key_of_group grouped))
    by (rewrite Hk; apply groupby_sorted).
  assert (Hnd : NoDup (map key_of_group grouped))
    by (rewrite Hk; apply groupby_NoDup).
  split; [exact Hsorted|]. split; [exact Hnd|]. split; [exact Hmem|].
  split; [|split].
  - apply rows_in_groups_all; [exact Hnd|].
    intros r Hr. apply Hmem. exists r. tauto.
  - rewrite Ht. apply StronglySorted_filter_map, Hsorted.
  - rewrite Ht. intros g Hg. apply filter_In in Hg. tauto.
Qed.

(** A confirmed timer was observed 6 times or more, with 5 distinct digit
    strings or more, and with int time stamps of 5 distinct values or
    more. *)
Theorem timers_observations (segments : list row) (limit : option Z)
  (timers grouped : list group_row) (g : group_row) :
  detect_timers segments limit = Ok (timers, grouped) ->
  In g timers ->
  let rows := rows_with (key_of_group g) (tmp_of segments limit) in
  (6 <= List.length rows)%nat
  /\ 5 <= Spec.distinct (digits_of rows)
  /\ (forall r, In r rows -> is_Timestamp (time_stamp (raw r)) = false)
  /\ 5 <= distinct_ids (ints_of (time_stamps_of rows)).
Proof.
  intros H Hg rows. apply (timers_In _ _ _ _ _ H) in Hg.
  destruct Hg as (Hg & Hdec & Hmode & Hgate).
  destruct (grouped_row_agg _ _ _ _ _ H Hg) as [_ Hagg]. fold rows in Hagg.
  apply agg_row_Ok in Hagg. destruct Hagg as (_ & _ & H2 & H3 & _).
  rewrite Hmode in H2. rewrite Hgate in H3.
  destruct (is_decreasing_mode_true _ H2) as (ds & Hds & Hn & Hu).
  pose proof (six_of_diffs _ _ Hds Hn) as Hlen.
  unfold digits_of in Hlen. rewrite length_map in Hlen.
  split; [exact Hlen|]. split; [exact Hu|].
  apply ts_check_Ok in H3. destruct H3 as [Hno H3]. split.
  - intros r Hr.
    destruct (is_Timestamp (time_stamp (raw r))) eqn:Hb; [|reflexivity].
    assert (existsb is_Timestamp (time_stamps_of rows) = true); [|congruence].
    apply existsb_exists. exists (time_stamp (raw r)). split; [|exact Hb].
    unfold time_stamps_of. apply (in_map (fun r => time_stamp (raw r))), Hr.
  - symmetry in H3. apply Z.leb_le, H3.
Qed.

(** The limit: 0 is no limit, as is a limit that the table does not
    exceed; with a negative limit that takes every row away, and on a table
    without rows, the two tables returned are empty. *)
Theorem detect_timers_limit (segments : list row) :
  detect_timers segments (Some 0) = detect_timers segments None
  /\ (forall n, len segments <= n ->
                detect_timers segments (Some n) = detect_timers segments None)
  /\ (forall n, n <= - len segments -> n < 0 ->
                detect_timers segments (Some n) = Ok ([], []))
  /\ (forall limit, detect_timers [] limit = Ok ([], [])).
Proof.
  split; [reflexivity|]. split; [|split].
  - intros n Hn.
    assert (E : tmp_of segments (Some n) = tmp_of segments None).
    { unfold tmp_of, py_not, head, len in *.
      destruct (Z.eqb_spec n 0); [reflexivity|].
      destruct (Z.leb_spec 0 n); [|lia].
      rewrite firstn_all2 by lia. reflexivity. }
    unfold detect_timers. cbv zeta. rewrite E. reflexivity.
  - intros n Hn Hneg. unfold detect_timers, tmp_of, py_not, head, len in *.
    destruct (Z.eqb_spec n 0); [lia|].
    destruct (Z.leb_spec 0 n); [lia|].
    replace (List.length segments - Z.to_nat (- n))%nat with 0%nat by lia.
    reflexivity.
  - intros limit. unfold detect_timers, tmp_of, head.
    destruct (py_not limit); [reflexivity|].
    destruct limit as [n|]; [|reflexivity].
    destruct (0 <=? n); rewrite firstn_nil; reflexivity.
Qed.

End Tables.

Lemma segments_grouped_keys_witness :
  let segments := with_text_columns table_two_places in
  exists timers grouped,
    @detect_timers insertion_order segments None = Ok (timers, grouped)
    /\ map key_of_group grouped
       = [(41, 145, 290, "Ends in DPNUM s"); (41, 621, 290, "DPNUM left")]
    /\ StronglySorted key_lt (map key_of_group grouped)
    /\ rows_in_groups (map key_of_group grouped) (tmp_of segments None) = 4.
Proof.
  intros segments.
  destruct (@detect_timers insertion_order segments None)
    as [[timers grouped]|e] eqn:Hd; [|vm_compute in Hd; discriminate].
  exists timers, grouped. split; [reflexivity|].
  destruct (@segments_grouped_keys insertion_order segments None timers
              grouped Hd) as (Hs & _ & _ & Hrows & _).
  split; [vm_compute in Hd; inversion Hd; reflexivity|].
  split; [exact Hs|]. rewrite Hrows. reflexivity.
Defined.

Lemma timers_observations_witness :
  let segments := with_text_columns table_in_time_order in
  let g := group_of_results true true true in
  @detect_timers insertion_order segments None = Ok ([g], [g])
  /\ In g [g]
  /\ (6 <= List.length (rows_with (key_of_group g) (tmp_of segments None)))%nat
  /\ 5 <= Spec.distinct
            (digits_of (rows_with (key_of_group g) (tmp_of segments None)))
  /\ (forall r, In r (rows_with (key_of_group g) (tmp_of segments None)) ->
                 is_Timestamp (time_stamp (raw r)) = false)
  /\ 5 <= distinct_ids
            (ints_of
               (time_stamps_of
                  (rows_with (key_of_group g) (tmp_of segments None)))).
Proof.
  intros segments g.
  assert (Hd : @detect_timers insertion_order segments None = Ok ([g], [g]))
    by (vm_compute; reflexivity).
  assert (Hg : In g [g]) by (left; reflexivity).
  split; [exact Hd|]. split; [exact Hg|].
  exact (@timers_observations insertion_order segments None [g] [g] g Hd Hg).
Defined.

Lemma detect_timers_limit_witness :
  let segments := with_text_columns table_in_time_order in
  len segments <= 6 /\ -7 <= - len segments /\ -7 < 0
  /\ @detect_timers insertion_order segments (Some 6)
     = @detect_timers insertion_order segments None
  /\ @detect_timers insertion_order segments (Some (-7)) = Ok ([], []).
Proof.
  intros segments.
  assert (H1 : len segments <= 6) by (vm_compute; discriminate).
  assert (H2 : -7 <= - len segments) by (vm_compute; discriminate).
  assert (H3 : -7 < 0) by lia.
  destruct (@detect_timers_limit insertion_order segments) as (_ & T2 & T3 & _).
  split; [exact H1|]. split; [exact H2|]. split; [exact H3|].
  split; [exact (T2 6 H1)|exact (T3 (-7) H2 H3)].
Defined.

(** ** [load_segments], [get_timers], [dump_timer_urls] *)

Module FilesFacts.

Import Files.

Lemma put_same {A : Type} (name : string) (content : A)
  (m : string -> option A) : put name content m name = Some content.
Proof. unfold put. rewrite String.eqb_refl. reflexivity. Qed.

Lemma left_join_text (db : database) (se : db_segment) (text : string)
  (q : query_row) :
  In q (left_join db se text) -> q_inner_text q = text.
Proof.
  unfold left_join.
  destruct (filter (fun sv => sv_visit_id sv =? se_visit_id se) (site_visits db))
    as [|sv svs].
  - intros [<-|[]]. reflexivity.
  - intros H. apply in_map_iff in H. destruct H as (sv' & <- & _). reflexivity.
Qed.

(** Every row that the query returns has a digit in its text. *)
Lemma SEGMENTS_QUERY_digit (db : database) (q : query_row) :
  In q (SEGMENTS_QUERY db) -> glob_has_digit (q_inner_text q) = true.
Proof.
  unfold SEGMENTS_QUERY. intros H. apply in_flat_map in H.
  destruct H as (se & _ & Hq). unfold where_text in Hq.
  destruct (se_node_name se) as [name|]; [|destruct Hq].
  destruct (se_inner_text se) as [text|]; [|destruct Hq].
  destruct (negb (String.eqb name "BODY") && glob_has_digit text) eqn:E;
    [|destruct Hq].
  apply andb_true_iff in E. rewrite (left_join_text _ _ _ _ Hq). tauto.
Qed.

Lemma groupable_text (table : list query_row) (s : segment) :
  In s (groupable table) ->
  exists q, In q table /\ inner_text s = q_inner_text q.
Proof.
  unfold groupable. intros H. apply in_flat_map in H.
  destruct H as (q & Hq & Hs). exists q. split; [exact Hq|].
  destruct (q_visit_id q); [|destruct Hs].
  destruct Hs as [<-|[]]. reflexivity.
Qed.

Lemma known_crawler (name : string) :
  name = "odin" \/ name = "webtap" ->
  negb (existsb (String.eqb name) ["odin"; "webtap"]) = false.
Proof. intros [->| ->]; reflexivity. Qed.

Lemma unknown_crawler (name : string) :
  name <> "odin" -> name <> "webtap" ->
  negb (existsb (String.eqb name) ["odin"; "webtap"]) = true.
Proof.
  intros H1 H2. cbn [existsb].
  apply String.eqb_neq in H1. apply String.eqb_neq in H2.
  rewrite H1, H2. reflexivity.
Qed.

Section Runs.

Context {order : DictOrder}.

(** What a run of [get_timers] returned, the next run with the cache on
    returns again, from the pickle: it prints one line and writes no
    file. *)
Theorem get_timers_cached (name : string) (disable_cache : bool)
  (st st1 : state) (r : list group_row * list group_row) :
  get_timers name disable_cache st = (Done r, st1) ->
  exists line, get_timers name false st1 = (Done r, print line st1).
Proof.
  unfold get_timers.
  destruct (if disable_cache then None else grouped_pickle (disk st) name)
    as [grouped|] eqn:E.
  - intros H. inversion H. subst r st1. clear H.
    destruct disable_cache; [discriminate|].
    cbn [print disk]. rewrite E. eexists. reflexivity.
  - destruct (load_segments name true true st) as [[segments|e] st0];
      [|discriminate].
    destruct (detect_timers (preprocess_segments (groupable segments)) None)
      as [[timers grouped]|e] eqn:Hd; [|discriminate].
    intros H. inversion H. subst r st1. clear H.
    apply detect_timers_Ok in Hd. destruct Hd as [-> _].
    cbn [write_grouped_pickle disk grouped_pickle]. rewrite put_same.
    eexists. reflexivity.
Qed.

(** With no pickle to read, a run on one of the two crawlers writes the
    result of the query to the segments pickle and then, when the query has
    a row that [groupby] keeps, stops with the [TypeError] of [int] on a
    [Timestamp]: no grouped pickle and no export is written, and nothing is
    printed.  Only on a query without such a row does the run return, with
    two empty tables. *)
Theorem get_timers_fresh (name : string) (disable_cache : bool) (st : state) :
  name = "odin" \/ name = "webtap" ->
  segments_pickle (disk st) name = None ->
  disable_cache = true \/ grouped_pickle (disk st) name = None ->
  let table := SEGMENTS_QUERY (sqlite (disk st) name) in
  let st1 := write_segments_pickle name table st in
  (groupable table <> [] ->
   get_timers name disable_cache st = (Fail (Exn TypeError), st1))
  /\ (groupable table = [] ->
      get_timers name disable_cache st
      = (Done ([], []),
         write_grouped_pickle name [] (dump_timer_urls [] name st1)))
  /\ segments_pickle (disk st1) name = Some table
  /\ grouped_pickle (disk st1) = grouped_pickle (disk st)
  /\ timer_urls_csv (disk st1) = timer_urls_csv (disk st)
  /\ stdout st1 = stdout st.
Proof.
  intros Hname Hseg Hgrp table st1.
  assert (E : (if disable_cache then None
               else grouped_pickle (disk st) name) = None)
    by (destruct disable_cache; [reflexivity|destruct Hgrp; congruence]).
  split; [|split].
  - intros Hne. unfold get_timers, load_segments.
    rewrite E, (known_crawler name Hname), Hseg. fold table.
    destruct (groupable table) as [|s l] eqn:Eg; [congruence|].
    rewrite (detect_timers_preprocessed (s :: l) s (or_introl eq_refl)).
    reflexivity.
  - intros Hnil. unfold get_timers, load_segments.
    rewrite E, (known_crawler name Hname), Hseg. fold table.
    rewrite Hnil. reflexivity.
  - cbn. rewrite put_same. repeat split; reflexivity.
Qed.

(** A crawler name other than "odin" and "webtap" is refused with an
    [AssertionError] before any file is read or written; [get_timers]
    refuses it too, unless the cache is on and a grouped pickle of that
    name is there, which it then returns without checking the name. *)
Theorem get_timers_unknown_crawler (name : string) (st : state) :
  name <> "odin" -> name <> "webtap" ->
  (forall check_cache dump_pickle,
      load_segments name check_cache dump_pickle st
      = (Fail AssertionError, st))
  /\ get_timers name true st = (Fail AssertionError, st)
  /\ (grouped_pickle (disk st) name = None ->
      get_timers name false st = (Fail AssertionError, st))
  /\ (forall grouped, grouped_pickle (disk st) name = Some grouped ->
      exists line,
        get_timers name false st
        = (Done (filter timer_mask grouped, grouped), print line st)).
Proof.
  intros H1 H2.
  assert (Hload : forall cc dp,
             load_segments name cc dp st = (Fail AssertionError, st)).
  { intros cc dp. unfold load_segments.
    rewrite (unknown_crawler name H1 H2). reflexivity. }
  split; [exact Hload|]. split; [|split].
  - unfold get_timers. rewrite Hload. reflexivity.
  - intros E. unfold get_timers. rewrite E, Hload. reflexivity.
  - intros grouped E. unfold get_timers. rewrite E. eexists. reflexivity.
Qed.

(** Once a segments pickle is there, [get_timers] no longer reads the
    crawl database, even with [disable_cache=True], which turns off the
    grouped pickle only: over any other databases the run returns the same
    and does the same to the files. *)
Theorem get_timers_ignores_database (name : string) (disable_cache : bool)
  (st : state) (table : list query_row) (dbs : string -> database) :
  segments_pickle (disk st) name = Some table ->
  get_timers name disable_cache (with_sqlite dbs st)
  = (fst (get_timers name disable_cache st),
     with_sqlite dbs (snd (get_timers name disable_cache st))).
Proof.
  intros Hseg. unfold get_timers, load_segments.
  cbn [with_sqlite disk grouped_pickle segments_pickle].
  destruct (if disable_cache then None else grouped_pickle (disk st) name)
    as [grouped|]; [reflexivity|].
  destruct (negb (existsb (String.eqb name) ["odin"; "webtap"]));
    [reflexivity|].
  rewrite Hseg.
  destruct (detect_timers (preprocess_segments (groupable table)) None)
    as [[timers grouped]|e]; reflexivity.
Qed.

End Runs.

Lemma unique_from_In (l seen : list (option string)) (x : option string) :
  In x (unique_from seen l) <-> In x l /\ existsb (eqb_url x) seen = false.
Proof.
  assert (Heq : forall a b, eqb_url a b = true <-> a = b).
  { intros [a|] [b|]; cbn; rewrite ?String.eqb_eq;
      split; intros H; try congruence; try discriminate. }
  assert (Hmem : forall a s, existsb (eqb_url a) s = true <-> In a s).
  { intros a s. rewrite existsb_exists. split.
    - intros (b & Hb & E). apply Heq in E. subst. exact Hb.
    - intros H. exists a. split; [exact H|apply Heq; reflexivity]. }
  revert seen. induction l as [|y l IH]; intros seen; cbn [unique_from].
  - simpl. tauto.
  - destruct (existsb (eqb_url y) seen) eqn:E.
    + rewrite IH. cbn [In]. split; [tauto|].
      intros [[->|H] Hn]; [congruence|tauto].
    + cbn [In]. rewrite IH. cbn [existsb].
      destruct (eqb_url x y) eqn:Exy.
      * apply Heq in Exy. subst y. split; [tauto|]. intros _. left. reflexivity.
      * assert (y <> x) by (intros ->; rewrite (proj2 (Heq x x) eq_refl) in Exy;
                            discriminate).
        cbn [orb]. split; [intros [?|[? ?]]; [contradiction|tauto]|].
        intros [[?|?] ?]; [contradiction|tauto].
Qed.

Lemma unique_from_NoDup (l seen : list (option string)) :
  NoDup (unique_from seen l).
Proof.
  revert seen. induction l as [|y l IH]; intros seen; cbn [unique_from].
  - constructor.
  - destruct (existsb (eqb_url y) seen) eqn:E; [apply IH|].
    constructor; [|apply IH].
    rewrite unique_from_In. cbn [existsb].
    assert (eqb_url y y = true) by (destruct y; cbn; [apply String.eqb_refl|reflexivity]).
    rewrite H. cbn. intros [_ ?]. discriminate.
Qed.

(** [dump_timer_urls] writes the URLs of the timers, each once, and touches
    no other file. *)
Theorem dump_timer_urls_spec (timers : list group_row) (name : string)
  (st : state) :
  exists urls,
    timer_urls_csv (disk (dump_timer_urls timers name st)) name = Some urls
    /\ NoDup urls
    /\ (forall u, In u urls <-> exists g, In g timers /\ site_url_first g = u)
    /\ (forall other, other <> name ->
          timer_urls_csv (disk (dump_timer_urls timers name st)) other
          = timer_urls_csv (disk st) other)
    /\ segments_pickle (disk (dump_timer_urls timers name st))
       = segments_pickle (disk st)
    /\ grouped_pickle (disk (dump_timer_urls timers name st))
       = grouped_pickle (disk st)
    /\ stdout (dump_timer_urls timers name st) = stdout st.
Proof.
  exists (unique (map site_url_first timers)).
  cbn. rewrite put_same. split; [reflexivity|].
  split; [apply unique_from_NoDup|]. split; [|split].
  - intros u. unfold unique. rewrite unique_from_In, in_map_iff. cbn.
    split; [intros [(g & <- & Hg) _]; exists g; tauto|].
    intros (g & Hg & <-). split; [exists g; tauto|reflexivity].
  - intros other Hne. unfold put.
    apply String.eqb_neq in Hne. rewrite Hne. reflexivity.
  - repeat split; reflexivity.
Qed.

End FilesFacts.

Lemma get_timers_cached_witness :
  exists r st1 line,
    @Files.get_timers insertion_order "test" false state_with_pickle
    = (Files.Done r, st1)
    /\ fst r = [group_of_results true true true]
    /\ @Files.get_timers insertion_order "test" false st1
       = (Files.Done r, Files.print line st1).
Proof.
  destruct (@Files.get_timers insertion_order "test" false state_with_pickle)
    as [[r|e] st1] eqn:H; [|vm_compute in H; discriminate].
  destruct (@FilesFacts.get_timers_cached insertion_order _ _ _ _ _ H)
    as [line Hl].
  exists r, st1, line. split; [reflexivity|].
  split; [vm_compute in H; inversion H; reflexivity|exact Hl].
Defined.

Lemma get_timers_fresh_witness :
  ("webtap" = "odin" \/ "webtap" = "webtap")
  /\ Files.segments_pickle (Files.disk fresh_state) "webtap" = None
  /\ (false = true
      \/ Files.grouped_pickle (Files.disk fresh_state) "webtap" = None)
  /\ Files.groupable (Files.SEGMENTS_QUERY sample_database) <> []
  /\ exists st1,
       @Files.get_timers insertion_order "webtap" false fresh_state
       = (Files.Fail (Files.Exn TypeError), st1)
       /\ Files.segments_pickle (Files.disk st1) "webtap"
          = Some (Files.SEGMENTS_QUERY sample_database)
       /\ Files.grouped_pickle (Files.disk st1) "webtap" = None
       /\ Files.timer_urls_csv (Files.disk st1) "webtap" = None.
Proof.
  assert (H1 : "webtap" = "odin" \/ "webtap" = "webtap") by (right; reflexivity).
  assert (H2 : Files.segments_pickle (Files.disk fresh_state) "webtap" = None)
    by reflexivity.
  assert (H3 : false = true
               \/ Files.grouped_pickle (Files.disk fresh_state) "webtap" = None)
    by (right; reflexivity).
  assert (H4 : Files.groupable (Files.SEGMENTS_QUERY sample_database) <> [])
    by (vm_compute; discriminate).
  split; [exact H1|]. split; [exact H2|]. split; [exact H3|].
  split; [exact H4|].
  destruct (@FilesFacts.get_timers_fresh insertion_order "webtap" false
              fresh_state H1 H2 H3)
    as (Hrun & _ & Hseg & Hgrp & Hcsv & _).
  eexists. split; [exact (Hrun H4)|]. split; [exact Hseg|].
  split; [rewrite Hgrp|rewrite Hcsv]; reflexivity.
Defined.

Lemma get_timers_unknown_crawler_witness :
  "test" <> "odin" /\ "test" <> "webtap"
  /\ Files.grouped_pickle (Files.disk fresh_state) "test" = None
  /\ Files.grouped_pickle (Files.disk state_with_pickle) "test"
     = Some [group_of_results true true true]
  /\ @Files.get_timers insertion_order "test" false fresh_state
     = (Files.Fail Files.AssertionError, fresh_state)
  /\ exists line,
       @Files.get_timers insertion_order "test" false state_with_pickle
       = (Files.Done (filter timer_mask [group_of_results true true true],
                      [group_of_results true true true]),
          Files.print line state_with_pickle).
Proof.
  assert (H1 : "test" <> "odin") by discriminate.
  assert (H2 : "test" <> "webtap") by discriminate.
  assert (H3 : Files.grouped_pickle (Files.disk fresh_state) "test" = None)
    by reflexivity.
  assert (H4 : Files.grouped_pickle (Files.disk state_with_pickle) "test"
               = Some [group_of_results true true true]) by reflexivity.
  split; [exact H1|]. split; [exact H2|]. split; [exact H3|].
  split; [exact H4|]. split.
  - exact (proj1 (proj2 (proj2 (@FilesFacts.get_timers_unknown_crawler
                                  insertion_order "test" fresh_state H1 H2)))
             H3).
  - exact (proj2 (proj2 (proj2 (@FilesFacts.get_timers_unknown_crawler
                                  insertion_order "test" state_with_pickle
                                  H1 H2))) _ H4).
Defined.

Lemma get_timers_ignores_database_witness :
  Files.segments_pickle (Files.disk state_with_segments) "webtap" = Some []
  /\ @Files.get_timers insertion_order "webtap" true
       (Files.with_sqlite (fun _ => {| Files.SEGMENTS := [];
                                       Files.site_visits := [] |})
          state_with_segments)
     = (fst (@Files.get_timers insertion_order "webtap" true
               state_with_segments),
        Files.with_sqlite (fun _ => {| Files.SEGMENTS := [];
                                       Files.site_visits := [] |})
          (snd (@Files.get_timers insertion_order "webtap" true
                  state_with_segments))).
Proof.
  assert (H : Files.segments_pickle (Files.disk state_with_segments) "webtap"
              = Some []) by reflexivity.
  split; [exact H|].
  exact (@FilesFacts.get_timers_ignores_database insertion_order "webtap" true
           state_with_segments [] _ H).
Defined.

(** ** The export of the URLs *)

Module ExportFacts.

Import Files.

Lemma firstn_plus {A : Type} (k m : nat) (l : list A) :
  firstn (k + m) l = firstn k l ++ firstn m (skipn k l).
Proof.
  revert l. induction k as [|k IH]; intros l; [reflexivity|].
  destruct l as [|a l]; cbn [Nat.add firstn skipn app].
  - rewrite firstn_nil. reflexivity.
  - rewrite IH. reflexivity.
Qed.

Lemma sections_concat {A : Type} (sizes : list nat) (l : list A) :
  List.concat (sections sizes l) = firstn (fold_right Nat.add 0%nat sizes) l.
Proof.
  revert l. induction sizes as [|k sizes IH]; intros l.
  - reflexivity.
  - cbn [sections List.concat fold_right]. rewrite IH, firstn_plus. reflexivity.
Qed.

Lemma sections_lengths {A : Type} (sizes : list nat) (l : list A) :
  (fold_right Nat.add 0 sizes <= List.length l)%nat ->
  map (@List.length A) (sections sizes l) = sizes.
Proof.
  revert l. induction sizes as [|k sizes IH]; intros l H; [reflexivity|].
  cbn [sections map fold_right] in *. rewrite IH.
  - rewrite length_firstn. f_equal. lia.
  - rewrite length_skipn. lia.
Qed.

Lemma sum_repeat (a n : nat) :
  fold_right Nat.add 0%nat (repeat a n) = (a * n)%nat.
Proof. induction n as [|n IH]; cbn [repeat fold_right]; lia. Qed.

Lemma sum_app (l1 l2 : list nat) :
  fold_right Nat.add 0%nat (l1 ++ l2)
  = (fold_right Nat.add 0 l1 + fold_right Nat.add 0 l2)%nat.
Proof. induction l1 as [|a l1 IH]; cbn [app fold_right]; lia. Qed.

Lemma section_sizes_sum (total n : nat) :
  n <> 0%nat -> fold_right Nat.add 0%nat (section_sizes total n) = total.
Proof.
  intros Hn. unfold section_sizes. rewrite sum_app, !sum_repeat.
  pose proof (Nat.div_mod_eq total n).
  pose proof (Nat.mod_upper_bound total n Hn). nia.
Qed.

Lemma section_sizes_length (total n : nat) :
  n <> 0%nat -> List.length (section_sizes total n) = n.
Proof.
  intros Hn. unfold section_sizes. rewrite length_app, !repeat_length.
  pose proof (Nat.mod_upper_bound total n Hn). lia.
Qed.

(** [array_split] cuts the list into [n] consecutive sections that put
    together give the list back, each of [len // n] elements or one more,
    the longer ones first. *)
Lemma array_split_spec {A : Type} (l : list A) (n : nat) :
  n <> 0%nat ->
  List.concat (array_split l n) = l
  /\ map (@List.length A) (array_split l n) = section_sizes (List.length l) n
  /\ List.length (array_split l n) = n.
Proof.
  intros Hn. unfold array_split.
  assert (Hl : map (@List.length A)
                   (sections (section_sizes (List.length l) n) l)
               = section_sizes (List.length l) n)
    by (apply sections_lengths; rewrite section_sizes_sum by exact Hn; lia).
  split; [|split].
  - rewrite sections_concat, section_sizes_sum by exact Hn.
    apply firstn_all.
  - exact Hl.
  - rewrite <- (length_map (@List.length A)), Hl.
    apply section_sizes_length, Hn.
Qed.

(** The 8 files of URLs, read one after the other, give the list of URLs
    back; each holds an eighth of the URLs, rounded down, or one more; for
    1618 URLs, the number of lines of [timer_urls.csv] in the notebook, the
    sizes are those of the notebook: 203, 203 and six times 202. *)
Theorem url_files_partition (urls : list (option string)) :
  List.concat (url_files urls) = urls
  /\ List.length (url_files urls) = 8%nat
  /\ Forall (fun f => List.length f = Nat.div (List.length urls) 8
                      \/ List.length f = S (Nat.div (List.length urls) 8))
            (url_files urls)
  /\ (List.length urls = 1618%nat ->
      map (@List.length _) (url_files urls)
      = [203; 203; 202; 202; 202; 202; 202; 202]%nat).
Proof.
  unfold url_files, URL_CSV_CNT.
  destruct (array_split_spec urls 8) as (Hc & Hl & Hn); [discriminate|].
  split; [exact Hc|]. split; [exact Hn|]. split.
  - apply Forall_forall. intros f Hf.
    assert (Hin : In (List.length f) (section_sizes (List.length urls) 8))
      by (rewrite <- Hl; apply in_map, Hf).
    unfold section_sizes in Hin. apply in_app_or in Hin.
    destruct Hin as [Hin|Hin]; apply repeat_spec in Hin; tauto.
  - intros H. rewrite Hl, H. reflexivity.
Qed.

Lemma url_leb_total (a b : option string) :
  url_leb a b = false -> url_leb b a = true.
Proof.
  destruct a as [x|], b as [y|]; cbn; try congruence.
  destruct (String.leb_total x y); congruence.
Qed.

Lemma insert_url_Permutation (x : option string) (l : list (option string)) :
  Permutation (insert_url x l) (x :: l).
Proof.
  induction l as [|y l IH]; cbn [insert_url]; [reflexivity|].
  destruct (url_leb x y); [reflexivity|].
  rewrite IH. apply perm_swap.
Qed.

Lemma sort_urls_Permutation (l : list (option string)) :
  Permutation (sort_urls l) l.
Proof.
  induction l as [|x l IH]; [reflexivity|].
  cbn [sort_urls fold_right]. fold (sort_urls l).
  rewrite insert_url_Permutation, IH. reflexivity.
Qed.

Lemma insert_url_Sorted (x : option string) (l : list (option string)) :
  Sorted (fun a b => url_leb a b = true) l ->
  Sorted (fun a b => url_leb a b = true) (insert_url x l).
Proof.
  induction l as [|y l IH]; intros Hs; cbn [insert_url].
  - repeat constructor.
  - destruct (url_leb x y) eqn:E.
    + constructor; [exact Hs|constructor; exact E].
    + apply Sorted_inv in Hs. destruct Hs as [Hs Hhd].
      constructor; [apply IH, Hs|].
      destruct l as [|z l]; cbn [insert_url].
      * constructor. apply url_leb_total, E.
      * destruct (url_leb x z); constructor.
        -- apply url_leb_total, E.
        -- apply HdRel_inv in Hhd. exact Hhd.
Qed.

(** [all_urls] lists the URLs of the confirmed timers of the two crawls,
    each once, in ascending order, a null first. *)
Theorem all_urls_sorted (webtap_timers odin_timers : list group_row) :
  Sorted (fun a b => url_leb a b = true) (all_urls webtap_timers odin_timers)
  /\ NoDup (all_urls webtap_timers odin_timers)
  /\ (forall u, In u (all_urls webtap_timers odin_timers)
                <-> exists g, (In g webtap_timers \/ In g odin_timers)
                              /\ site_url_first g = u).
Proof.
  unfold all_urls. cbv zeta.
  set (l := map site_url_first (webtap_timers ++ odin_timers)).
  split; [|split].
  - generalize (unique l). intros u. induction u as [|x u IH]; [constructor|].
    cbn [sort_urls fold_right]. apply insert_url_Sorted, IH.
  - eapply Permutation_NoDup;
      [apply Permutation_sym, sort_urls_Permutation|].
    apply FilesFacts.unique_from_NoDup.
  - intros u. split.
    + intros H. apply (Permutation_in _ (sort_urls_Permutation _)) in H.
      apply FilesFacts.unique_from_In in H. destruct H as [H _].
      apply in_map_iff in H. destruct H as (g & <- & Hg).
      exists g. split; [apply in_app_or, Hg|reflexivity].
    + intros (g & Hg & <-).
      apply (Permutation_in _ (Permutation_sym (sort_urls_Permutation _))).
      apply FilesFacts.unique_from_In. split; [|reflexivity].
      apply in_map, in_or_app, Hg.
Qed.

End ExportFacts.

Lemma url_files_partition_witness :
  let urls := repeat (Some "https://shop.example/item") 1618 in
  List.length urls = 1618%nat
  /\ map (@List.length _) (Files.url_files urls)
     = [203; 203; 202; 202; 202; 202; 202; 202]%nat.
Proof.
  intros urls.
  assert (H : List.length urls = 1618%nat) by apply repeat_length.
  split; [exact H|].
  exact (proj2 (proj2 (proj2 (ExportFacts.url_files_partition urls))) H).
Defined.

(** ** [join_with_comma] *)

Lemma append_assoc (a b c : string) :
  String.append (String.append a b) c = String.append a (String.append b c).
Proof. induction a as [|x a IH]; [reflexivity|]. simpl. rewrite IH. reflexivity. Qed.

Lemma join_fold_prefix (rest : list string) (p x : string) :
  fold_left (fun x y => String.append (String.append x ",") y) rest
            (String.append (String.append p ",") x)
  = String.append (String.append p ",")
      (fold_left (fun x y => String.append (String.append x ",") y) rest x).
Proof.
  revert x. induction rest as [|y rest IH]; intros x; [reflexivity|].
  cbn [fold_left].
  rewrite <- IH. f_equal. rewrite !append_assoc. reflexivity.
Qed.

(** [join_with_comma] fails on the empty sequence and on no other, returns
    a single element as it is, and joins a sequence made of two parts by
    joining the parts and putting a comma between them. *)
Theorem join_with_comma_app :
  (forall series, join_with_comma series = None <-> series = [])
  /\ (forall x, join_with_comma [x] = Some x)
  /\ (forall l1 l2 a b,
         join_with_comma l1 = Some a -> join_with_comma l2 = Some b ->
         join_with_comma (l1 ++ l2)
         = Some (String.append (String.append a ",") b)).
Proof.
  split; [|split].
  - intros [|x l]; cbn; split; congruence.
  - reflexivity.
  - intros [|x1 l1] [|x2 l2] a b H1 H2; try discriminate.
    cbn [join_with_comma app] in *. inversion H1. inversion H2. subst a b.
    f_equal. rewrite fold_left_app. cbn [fold_left]. apply join_fold_prefix.
Qed.

Lemma join_with_comma_app_witness :
  join_with_comma ["a"; "b"] = Some "a,b"
  /\ join_with_comma ["c"] = Some "c"
  /\ join_with_comma (["a"; "b"] ++ ["c"]) = Some "a,b,c".
Proof.
  assert (H1 : join_with_comma ["a"; "b"] = Some "a,b") by reflexivity.
  assert (H2 : join_with_comma ["c"] = Some "c") by reflexivity.
  split; [exact H1|]. split; [exact H2|].
  exact (proj2 (proj2 join_with_comma_app) _ _ _ _ H1 H2).
Defined.

(** ** More of the theorems at work *)

Lemma inner_digits_of_app_witness :
  all_digits "2024" = true
  /\ inner_digits_of "2024" = "2024"
  /\ inner_digits_of (String.append "Ends in 10 s, " "9 left")
     = String.append (inner_digits_of "Ends in 10 s, ") (inner_digits_of "9 left").
Proof.
  assert (H : all_digits "2024" = true) by reflexivity.
  split; [exact H|].
  split; [exact (proj1 (proj1 (proj2 inner_digits_of_app) "2024") H)|].
  exact (proj1 inner_digits_of_app "Ends in 10 s, " "9 left").
Defined.

Lemma inner_processed_no_digit_witness :
  glob_has_digit "Sale" = false /\ inner_processed_of "Sale" = "Sale".
Proof.
  assert (H : glob_has_digit "Sale" = false) by reflexivity.
  split; [exact H|].
  exact (proj2 (proj2 (proj2 (inner_processed_no_digit "Sale"))) H).
Defined.

Lemma dump_timer_urls_spec_witness :
  let timers := [group_of_results true true true;
                 group_of_results true true true] in
  "odin" <> "webtap"
  /\ exists urls,
       Files.timer_urls_csv
         (Files.disk (Files.dump_timer_urls timers "webtap" fresh_state))
         "webtap" = Some urls
       /\ NoDup urls
       /\ Files.timer_urls_csv
            (Files.disk (Files.dump_timer_urls timers "webtap" fresh_state))
            "odin"
          = Files.timer_urls_csv (Files.disk fresh_state) "odin".
Proof.
  intros timers.
  assert (H : "odin" <> "webtap") by discriminate.
  split; [exact H|].
  destruct (FilesFacts.dump_timer_urls_spec timers "webtap" fresh_state)
    as (urls & Hu & Hnd & _ & Hother & _).
  exists urls. split; [exact Hu|]. split; [exact Hnd|exact (Hother _ H)].
Defined.

Lemma all_urls_sorted_witness :
  let g := group_of_results true true true in
  (In g [g] \/ In g []) /\ site_url_first g = Some "https://shop.example/item"
  /\ In (Some "https://shop.example/item") (Files.all_urls [g] []).
Proof.
  intros g.
  assert (H : In g [g] \/ In g []) by (left; left; reflexivity).
  assert (Hu : site_url_first g = Some "https://shop.example/item")
    by reflexivity.
  split; [exact H|]. split; [exact Hu|].
  apply (proj2 (proj2 (ExportFacts.all_urls_sorted [g] []))).
  exists g. split; [exact H|exact Hu].
Defined.
